(** * Mutagen Compose liaison: specification building and session reconciliation

    A shallow embedding of [pkg/mutagen/liaison.go]: the method
    [processProject], which turns the [x-mutagen] section of a Compose project
    into session creation specifications and injects the sidecar service, and
    [reconcileSessions] with its siblings [listSessions], [pauseSessions],
    [resumeSessions] and [terminateSessions], which drive the Mutagen daemon.

    Conventions.
    - A Go function returning [error] becomes a function into [outcome unit];
      an explicit [panic] is the third constructor of [outcome].
    - Error values are the formatted messages of the source.
    - Go maps are [gmap]s; a [range] over a map visits the entries in an
      arbitrary order, which is modelled by [shuffle] applied to
      [map_to_list], driven by a seed that the environment supplies per loop.
    - Calls to the Docker client and to the Mutagen daemon are recorded, in
      program order, in a trace of [Call]s; the answers come from the
      environment ([Client], [Daemon]).
    - Progress messages printed on standard output are not modelled. *)

From stdpp Require Import base strings list gmap fin_maps.

Local Open Scope string_scope.
Local Open Scope list_scope.

(** ** Results of fallible operations *)

(** A Go pair [(value, error)] returned by a library function. *)
Inductive result (A : Type) : Type :=
| Success (a : A)
| Failure (err : string).
Arguments Success {A} a.
Arguments Failure {A} err.

(** What a method of this package does: return normally, return an error, or
    panic. *)
Inductive outcome (A : Type) : Type :=
| Ok (a : A)
| Err (e : string)
| Panic (msg : string).
Arguments Ok {A} a.
Arguments Err {A} e.
Arguments Panic {A} msg.

#[global] Instance outcome_ret : MRet outcome := λ A a, Ok a.
#[global] Instance outcome_bind : MBind outcome := λ A B f m,
  match m with
  | Ok a => f a
  | Err e => Err e
  | Panic msg => Panic msg
  end.

Definition isPanic {A} (o : outcome A) : bool :=
  match o with Panic _ => true | _ => false end.

(** [if err != nil { return fmt.Errorf(msg, err) }] for an [error] result. *)
Definition ensure (err : option string) (wrap : string → string) : outcome unit :=
  match err with
  | Some e => Err (wrap e)
  | None => Ok tt
  end.

(** [if cond { return errors.New(msg) }]. *)
Definition failIf (cond : bool) (msg : string) : outcome unit :=
  if cond then Err msg else Ok tt.

(** [v, err := f(..); if err != nil { return fmt.Errorf(msg, err) }]. *)
Definition try {A} (r : result A) (wrap : string → string) : outcome A :=
  match r with
  | Success a => Ok a
  | Failure e => Err (wrap e)
  end.

(** Monadic left fold: a loop whose body may return early with an error. *)
Fixpoint foldM {A S} (body : S → A → outcome S) (l : list A) (s : S) : outcome S :=
  match l with
  | [] => Ok s
  | x :: l' => s' ← body s x; foldM body l' s'
  end.

(** ** Iteration order of Go maps *)

Definition insertAt {A} (i : nat) (x : A) (l : list A) : list A :=
  take i l ++ x :: drop i l.

(** [shuffle seed l] is a rearrangement of [l]; every rearrangement is reached
    by some seed ([shuffle_surjective]). *)
Fixpoint shuffle {A} (seed : list nat) (l : list A) : list A :=
  match l with
  | [] => []
  | x :: l' => insertAt (hd 0 seed) x (shuffle (tl seed) l')
  end.

(** The entries of a map in the order a [range] statement visits them. *)
Definition rangeOrder {V} (seed : list nat) (m : gmap string V) : list (string * V) :=
  shuffle seed (map_to_list m).

(** ** Data model *)

(** *** [github.com/mutagen-io/mutagen/pkg/url] *)
Module url.
Inductive Kind := Kind_Synchronization | Kind_Forwarding.
Inductive Protocol := Protocol_Local | Protocol_SSH | Protocol_Docker.

#[global] Instance Protocol_eq_dec : EqDecision Protocol.
Proof. solve_decision. Defined.

Record URL := mkURL {
  kind : Kind;
  protocol : Protocol;
  User : string;
  Host : string;
  Port : nat;
  Path : string;
  Environment : gmap string string;
}.

(** The assignment [u.Path = p]. *)
Definition setPath (u : URL) (p : string) : URL :=
  mkURL (kind u) (protocol u) (User u) (Host u) (Port u) p (Environment u).
End url.

(** *** Session configurations *)

(** Modelled from the spec: the configuration types of the Mutagen library
    ([forwarding.Configuration], [synchronization.Configuration]) are not
    part of this package.  The spec describes a configuration as "a sparse
    record of tunable session parameters where each field is independently
    optional"; a configuration is therefore a finite map from field names to
    values, an unset field being an absent key. *)
Abbreviation Configuration := (gmap string string).

(** Modelled from the spec: [MergeConfigurations] of the Mutagen library is
    not part of this package.  The spec describes the merge as "strictly
    last-writer-wins per field"; the merge of a lower with a higher layer
    takes each field from the higher layer when it is set there and from the
    lower layer otherwise. *)
Definition MergeConfigurations (lower higher : Configuration) : Configuration :=
  higher ∪ lower.

(** *** [pkg/forwarding] and [pkg/service/forwarding] *)
Module forwarding.
Record Session := mkSession {
  Identifier : string;
  Name : string;
  Source : url.URL;
  Destination : url.URL;
  config : Configuration;
  configSource : Configuration;
  configDestination : Configuration;
  Labels : gmap string string;
}.
End forwarding.

Module forwardingsvc.
Record CreationSpecification := mkSpec {
  Source : url.URL;
  Destination : url.URL;
  config : Configuration;
  configSource : Configuration;
  configDestination : Configuration;
  Name : string;
  Labels : gmap string string;
}.

Definition setLabels (s : CreationSpecification) (ls : gmap string string) :=
  mkSpec (Source s) (Destination s) (config s) (configSource s)
         (configDestination s) (Name s) ls.
Definition setEndpoints (s : CreationSpecification) (a b : url.URL) :=
  mkSpec a b (config s) (configSource s) (configDestination s) (Name s) (Labels s).
End forwardingsvc.

(** *** [pkg/synchronization] and [pkg/service/synchronization] *)
Module synchronization.
Record Session := mkSession {
  Identifier : string;
  Name : string;
  Alpha : url.URL;
  Beta : url.URL;
  config : Configuration;
  configAlpha : Configuration;
  configBeta : Configuration;
  Labels : gmap string string;
}.
End synchronization.

Module synchronizationsvc.
Record CreationSpecification := mkSpec {
  Alpha : url.URL;
  Beta : url.URL;
  config : Configuration;
  configAlpha : Configuration;
  configBeta : Configuration;
  Name : string;
  Labels : gmap string string;
}.

Definition setLabels (s : CreationSpecification) (ls : gmap string string) :=
  mkSpec (Alpha s) (Beta s) (config s) (configAlpha s) (configBeta s) (Name s) ls.
Definition setEndpoints (s : CreationSpecification) (a b : url.URL) :=
  mkSpec a b (config s) (configAlpha s) (configBeta s) (Name s) (Labels s).
End synchronizationsvc.

(** *** [pkg/selection] *)
Module selection.
Record Selection := mkSelection {
  Specifications : list string;
  LabelSelector : string;
}.
End selection.

(** *** The decoded [x-mutagen] section *)
Module xmutagen.
Record forwardingSession := mkForwarding {
  Source : string;
  Destination : string;
  fConfiguration : Configuration;
  ConfigurationSource : Configuration;
  ConfigurationDestination : Configuration;
}.

Record synchronizationSession := mkSynchronization {
  Alpha : string;
  Beta : string;
  sConfiguration : Configuration;
  ConfigurationAlpha : Configuration;
  ConfigurationBeta : Configuration;
}.

Record configuration := mkConfiguration {
  Forwarding : gmap string forwardingSession;
  Synchronization : gmap string synchronizationSession;
}.
End xmutagen.

(** *** [github.com/compose-spec/compose-go/types] *)
Module types.
Record ServiceVolumeConfig := mkVolume {
  Type_ : string;
  Source : string;
  Target : string;
}.

Record ServiceDependency := mkDependency { Condition : string }.

Record ServiceNetworkConfig := mkNetwork { Aliases : list string }.

Record ServiceConfig := mkService {
  Name : string;
  Image : string;
  Labels : gmap string string;
  Networks : gmap string (option ServiceNetworkConfig);
  Volumes : list ServiceVolumeConfig;
  (** [None] is the nil map. *)
  DependsOn : option (gmap string ServiceDependency);
}.

Definition setDependsOn (s : ServiceConfig) (d : gmap string ServiceDependency) :=
  mkService (Name s) (Image s) (Labels s) (Networks s) (Volumes s) (Some d).

Record Project (Extension : Type) := mkProject {
  WorkingDir : string;
  Services : list ServiceConfig;
  ProjectNetworks : gmap string unit;
  ProjectVolumes : gmap string unit;
  Extensions : gmap string Extension;
}.
Arguments mkProject {Extension}.
Arguments WorkingDir {Extension}.
Arguments Services {Extension}.
Arguments ProjectNetworks {Extension}.
Arguments ProjectVolumes {Extension}.
Arguments Extensions {Extension}.

Definition setServices {X} (p : Project X) (ss : list ServiceConfig) : Project X :=
  mkProject (WorkingDir p) ss (ProjectNetworks p) (ProjectVolumes p) (Extensions p).
End types.

(** ** The environment of the liaison *)

(** The Docker engine's answer to [Info] (only the field that is read). *)
Record DaemonMetadata := mkMetadata { OSType : string }.

(** The Docker API client behind [l.dockerCLI.Client()]. *)
Record Client := mkClient {
  Info : result DaemonMetadata;
  DaemonHost : string;
}.

(** Everything [liaison.go] uses and does not define: library functions
    (mapstructure, the Mutagen [url], [selection] and configuration packages,
    [path/filepath]), the helpers and constants that other files of this
    package define, and the order in which each [range] over a map runs.  The
    development is parametric in all of them. *)
Class Env := {
  (** the undecoded value stored under the [x-mutagen] extension key *)
  Extension : Type;
  NewDecoder : option string;
  Decode : Extension → result xmutagen.configuration;
  EnsureNameValid : string → option string;
  urlParse : string → url.Kind → bool → result url.URL;
  forwardingurlParse : string → result (string * string);
  forwardingEnsureValid : Configuration → bool → option string;
  synchronizationEnsureValid : Configuration → bool → option string;
  IsAbs : string → bool;
  Join : string → string → string;
  Abs : string → result string;
  mutagenVersion : string;
  (** defined elsewhere in this package *)
  sidecarServiceName : string;
  sidecarImage : string;
  sidecarRoleLabelKey : string;
  sidecarRoleLabelValue : string;
  sidecarVersionLabelKey : string;
  sessionSidecarLabelKey : string;
  isNetworkURL : string → bool;
  isVolumeURL : string → bool;
  isTCPForwardingProtocol : string → bool;
  parseNetworkURL : string → result (url.URL * string);
  parseVolumeURL : string → string → result (url.URL * string);
  mountPathForVolumeInMutagenContainer : string → string → string;
  chopSidecarIdentifier : string → string;
  reifySidecarURLIfNecessary : url.URL → string → string → url.URL;
  forwardingSessionCurrent :
    forwarding.Session → forwardingsvc.CreationSpecification → bool;
  synchronizationSessionCurrent :
    synchronization.Session → synchronizationsvc.CreationSpecification → bool;
  (** [grpcutil.PeelAwayRPCErrorLayer], applied to the error of a listing *)
  PeelAwayRPCErrorLayer : string → string;
  (** [EnsureValid] of the two listing responses *)
  forwardingListResponseValid : list forwarding.Session → option string;
  synchronizationListResponseValid : list synchronization.Session → option string;
  (** the visiting order of the [n]-th [range] over a map *)
  rangeSeed : nat → list nat;
}.

(** [types.ServiceConditionStarted] of compose-go. *)
Definition ServiceConditionStarted : string := "service_started".

Record Liaison := mkLiaison {
  dockerCLI : Client;
  forwarding : gmap string forwardingsvc.CreationSpecification;
  synchronization : gmap string synchronizationsvc.CreationSpecification;
}.

(** Calls that leave the process, as they appear in a trace. *)
Inductive Call :=
| ClientInfo
| ClientDaemonHost
| DaemonConnect
| ConnectionClose
| ForwardingList (s : selection.Selection)
| SynchronizationList (s : selection.Selection)
| ForwardTerminateWithSelection (s : selection.Selection)
| SyncTerminateWithSelection (s : selection.Selection)
| ForwardResumeWithSelection (s : selection.Selection)
| SyncResumeWithSelection (s : selection.Selection)
| ForwardPauseWithSelection (s : selection.Selection)
| SyncPauseWithSelection (s : selection.Selection)
| ForwardListWithSelection (s : selection.Selection) (long : bool)
| SyncListWithSelection (s : selection.Selection) (long : bool)
| ForwardCreateWithSpecification (spec : forwardingsvc.CreationSpecification)
| SyncCreateWithSpecification (spec : synchronizationsvc.CreationSpecification)
| SyncFlushWithSelection (s : selection.Selection) (skipWait : bool).

(** ** [processProject] *)

Section ProcessProject.
Context `{E : Env}.

(** The three default configurations of one session kind. *)
Record Defaults := mkDefaults {
  defaultSession : Configuration;
  defaultFirst : Configuration;
  defaultSecond : Configuration;
}.

Definition noDefaults : Defaults := mkDefaults ∅ ∅ ∅.

(** Lines 91-96: the name of the sidecar service must be free. *)
Definition checkServiceNames (services : list types.ServiceConfig) : outcome unit :=
  failIf (existsb (λ service, bool_decide (types.Name service = sidecarServiceName)) services)
         ("Mutagen sidecar service name (" +:+ sidecarServiceName
            +:+ ") conflicts with existing service").

(** Lines 111-126: decode the extension section, if there is one. *)
Definition decodeSessions (extensions : gmap string Extension)
  : outcome xmutagen.configuration :=
  match extensions !! "x-mutagen" with
  | None => Ok (xmutagen.mkConfiguration ∅ ∅)
  | Some xMutagen =>
      _ ← ensure NewDecoder (λ e, "unable to create configuration decoder: " +:+ e);
      try (Decode xMutagen) (λ e, "unable to decode x-mutagen section: " +:+ e)
  end.

(** Lines 128-151: the [defaults] entry of the forwarding sessions, which is
    then removed from the map. *)
Definition extractForwardingDefaults (sessions : gmap string xmutagen.forwardingSession)
  : outcome (Defaults * gmap string xmutagen.forwardingSession) :=
  match sessions !! "defaults" with
  | None => Ok (noDefaults, sessions)
  | Some defaults =>
      _ ← failIf (negb (String.eqb (xmutagen.Source defaults) EmptyString))
            "source URL not allowed in default forwarding configuration";
      _ ← failIf (negb (String.eqb (xmutagen.Destination defaults) EmptyString))
            "destination URL not allowed in default forwarding configuration";
      _ ← ensure (forwardingEnsureValid (xmutagen.fConfiguration defaults) false)
            (λ e, "invalid default forwarding configuration: " +:+ e);
      _ ← ensure (forwardingEnsureValid (xmutagen.ConfigurationSource defaults) true)
            (λ e, "invalid default forwarding source configuration: " +:+ e);
      _ ← ensure (forwardingEnsureValid (xmutagen.ConfigurationDestination defaults) true)
            (λ e, "invalid default forwarding destination configuration: " +:+ e);
      Ok (mkDefaults (xmutagen.fConfiguration defaults)
                     (xmutagen.ConfigurationSource defaults)
                     (xmutagen.ConfigurationDestination defaults),
          delete "defaults" sessions)
  end.

(** Lines 153-176: the same for the synchronization sessions. *)
Definition extractSynchronizationDefaults
    (sessions : gmap string xmutagen.synchronizationSession)
  : outcome (Defaults * gmap string xmutagen.synchronizationSession) :=
  match sessions !! "defaults" with
  | None => Ok (noDefaults, sessions)
  | Some defaults =>
      _ ← failIf (negb (String.eqb (xmutagen.Alpha defaults) EmptyString))
            "alpha URL not allowed in default synchronization configuration";
      _ ← failIf (negb (String.eqb (xmutagen.Beta defaults) EmptyString))
            "beta URL not allowed in default synchronization configuration";
      _ ← ensure (synchronizationEnsureValid (xmutagen.sConfiguration defaults) false)
            (λ e, "invalid default synchronization configuration: " +:+ e);
      _ ← ensure (synchronizationEnsureValid (xmutagen.ConfigurationAlpha defaults) true)
            (λ e, "invalid default synchronization alpha configuration: " +:+ e);
      _ ← ensure (synchronizationEnsureValid (xmutagen.ConfigurationBeta defaults) true)
            (λ e, "invalid default synchronization beta configuration: " +:+ e);
      Ok (mkDefaults (xmutagen.sConfiguration defaults)
                     (xmutagen.ConfigurationAlpha defaults)
                     (xmutagen.ConfigurationBeta defaults),
          delete "defaults" sessions)
  end.

(** Lines 183-256: the body of the loop over the forwarding sessions.  It
    yields the creation specification and the network the destination names. *)
Definition forwardingSpecification (defaults : Defaults)
    (name : string) (session : xmutagen.forwardingSession)
  : outcome (forwardingsvc.CreationSpecification * string) :=
  _ ← ensure (EnsureNameValid name)
        (λ e, "invalid forwarding session name (" +:+ name +:+ "): " +:+ e);
  _ ← failIf (isNetworkURL (xmutagen.Source session))
        ("network URL (" +:+ xmutagen.Source session
           +:+ ") not allowed as forwarding source");
  sourceURL ← try (urlParse (xmutagen.Source session) url.Kind_Forwarding true)
        (λ e, "unable to parse forwarding source URL (" +:+ xmutagen.Source session
                +:+ "): " +:+ e);
  _ ← failIf (negb (bool_decide (url.protocol sourceURL = url.Protocol_Local)))
        "only local URLs allowed as forwarding sources";
  protocol ← match forwardingurlParse (url.Path sourceURL) with
             | Failure _ => Panic "forwarding URL failed to reparse"
             | Success (protocol, _) => Ok protocol
             end;
  _ ← failIf (negb (isTCPForwardingProtocol protocol))
        ("non-TCP-based forwarding endpoint (" +:+ url.Path sourceURL
           +:+ ") unsupported");
  _ ← failIf (negb (isNetworkURL (xmutagen.Destination session)))
        ("forwarding destination (" +:+ xmutagen.Destination session
           +:+ ") should be a network URL");
  '(destinationURL, network) ←
      try (parseNetworkURL (xmutagen.Destination session))
        (λ e, "unable to parse forwarding destination URL ("
                +:+ xmutagen.Destination session +:+ "): " +:+ e);
  _ ← ensure (forwardingEnsureValid (xmutagen.fConfiguration session) false)
        (λ e, "invalid forwarding session configuration for " +:+ name +:+ ": " +:+ e);
  let configuration :=
    MergeConfigurations (defaultSession defaults) (xmutagen.fConfiguration session) in
  _ ← ensure (forwardingEnsureValid (xmutagen.ConfigurationSource session) true)
        (λ e, "invalid forwarding session source configuration for " +:+ name
                +:+ ": " +:+ e);
  let sourceConfiguration :=
    MergeConfigurations (defaultFirst defaults) (xmutagen.ConfigurationSource session) in
  _ ← ensure (forwardingEnsureValid (xmutagen.ConfigurationDestination session) true)
        (λ e, "invalid forwarding session destination configuration for " +:+ name
                +:+ ": " +:+ e);
  let destinationConfiguration :=
    MergeConfigurations (defaultSecond defaults)
                        (xmutagen.ConfigurationDestination session) in
  Ok (forwardingsvc.mkSpec sourceURL destinationURL configuration
        sourceConfiguration destinationConfiguration name ∅,
      network).

(** Lines 180-257: the loop, which fills [forwardingSpecifications] and
    [networkDependencies]. *)
Definition forwardingStep (defaults : Defaults)
    (acc : gmap string forwardingsvc.CreationSpecification
           * gmap string (option types.ServiceNetworkConfig))
    (entry : string * xmutagen.forwardingSession)
  : outcome (gmap string forwardingsvc.CreationSpecification
             * gmap string (option types.ServiceNetworkConfig)) :=
  '(specification, network) ← forwardingSpecification defaults entry.1 entry.2;
  Ok (<[entry.1 := specification]> acc.1, <[network := None]> acc.2).

(** Lines 284-331: one endpoint of a synchronization session.  The source
    spells this out once for alpha ([first = true]) and once for beta
    ([first = false]); the two copies differ in the role named by the error
    messages only.  The result is the URL and, for a volume URL, the volume it
    depends on. *)
Definition synchronizationEndpoint (role : string) (first : bool)
    (workingDir osType raw : string) (isVolume : bool)
  : outcome (url.URL * option string) :=
  let unparsable e :=
    "unable to parse synchronization " +:+ role +:+ " URL (" +:+ raw +:+ "): " +:+ e in
  if isVolume then
    '(parsed, volume) ← try (parseVolumeURL raw osType) unparsable;
    Ok (parsed, Some volume)
  else
    parsed ← try (urlParse raw url.Kind_Synchronization first) unparsable;
    _ ← failIf (negb (bool_decide (url.protocol parsed = url.Protocol_Local)))
          "only local and volume URLs allowed as synchronization URLs";
    if IsAbs raw then Ok (parsed, None)
    else
      path ← try (Abs (Join workingDir raw))
               (λ e, "unable to resolve relative " +:+ role +:+ " URL (" +:+ raw
                       +:+ "): " +:+ e);
      Ok (url.setPath parsed path, None).

(** Lines 264-362: the body of the loop over the synchronization sessions.
    It yields the creation specification and the volumes it depends on. *)
Definition synchronizationSpecification (defaults : Defaults)
    (workingDir osType : string)
    (name : string) (session : xmutagen.synchronizationSession)
  : outcome (synchronizationsvc.CreationSpecification * list string) :=
  _ ← ensure (EnsureNameValid name)
        (λ e, "invalid synchronization session name (" +:+ name +:+ "): " +:+ e);
  let alphaIsVolume := isVolumeURL (xmutagen.Alpha session) in
  let betaIsVolume := isVolumeURL (xmutagen.Beta session) in
  _ ← failIf (negb (alphaIsVolume || betaIsVolume))
        ("neither alpha nor beta references a volume in synchronization session ("
           +:+ name +:+ ")");
  _ ← failIf (alphaIsVolume && betaIsVolume)
        ("both alpha and beta reference volumes in synchronization session ("
           +:+ name +:+ ")");
  '(alphaURL, alphaVolume) ←
      synchronizationEndpoint "alpha" true workingDir osType
        (xmutagen.Alpha session) alphaIsVolume;
  '(betaURL, betaVolume) ←
      synchronizationEndpoint "beta" false workingDir osType
        (xmutagen.Beta session) betaIsVolume;
  _ ← ensure (synchronizationEnsureValid (xmutagen.sConfiguration session) false)
        (λ e, "invalid synchronization session configuration for " +:+ name
                +:+ ": " +:+ e);
  let configuration :=
    MergeConfigurations (defaultSession defaults) (xmutagen.sConfiguration session) in
  _ ← ensure (synchronizationEnsureValid (xmutagen.ConfigurationAlpha session) true)
        (λ e, "invalid synchronization session alpha configuration for " +:+ name
                +:+ ": " +:+ e);
  let alphaConfiguration :=
    MergeConfigurations (defaultFirst defaults) (xmutagen.ConfigurationAlpha session) in
  _ ← ensure (synchronizationEnsureValid (xmutagen.ConfigurationBeta session) true)
        (λ e, "invalid synchronization session beta configuration for " +:+ name
                +:+ ": " +:+ e);
  let betaConfiguration :=
    MergeConfigurations (defaultSecond defaults) (xmutagen.ConfigurationBeta session) in
  Ok (synchronizationsvc.mkSpec alphaURL betaURL configuration
        alphaConfiguration betaConfiguration name ∅,
      option_list alphaVolume ++ option_list betaVolume).

(** Lines 261-363: the loop, which fills [synchronizationSpecifications] and
    [volumeDependencies]. *)
Definition synchronizationStep (defaults : Defaults) (workingDir osType : string)
    (acc : gmap string synchronizationsvc.CreationSpecification * gmap string bool)
    (entry : string * xmutagen.synchronizationSession)
  : outcome (gmap string synchronizationsvc.CreationSpecification * gmap string bool) :=
  '(specification, volumes) ←
      synchronizationSpecification defaults workingDir osType entry.1 entry.2;
  Ok (<[entry.1 := specification]> acc.1,
      foldl (λ dependencies volume, <[volume := true]> dependencies) acc.2 volumes).

(** Lines 365-375: every dependency must be declared by the project. *)
Definition validateDependencies {V W} (what whose : string) (seed : list nat)
    (dependencies : gmap string V) (declared : gmap string W) : outcome unit :=
  foldM (λ _ (entry : string * V),
           failIf (negb (bool_decide (is_Some (declared !! entry.1))))
             ("undefined " +:+ what +:+ " (" +:+ entry.1 +:+ ") referenced by "
                +:+ whose +:+ " session"))
        (rangeOrder seed dependencies) tt.

(** Lines 381-393: a service that mounts a targeted volume waits for the
    sidecar. *)
Definition addSidecarDependency (volumeDependencies : gmap string bool)
    (service : types.ServiceConfig) : types.ServiceConfig :=
  if existsb (λ volume,
                String.eqb (types.Type_ volume) "volume"
                && default false (volumeDependencies !! types.Source volume))
             (types.Volumes service)
  then types.setDependsOn service
         (<[sidecarServiceName := types.mkDependency ServiceConditionStarted]>
            (default ∅ (types.DependsOn service)))
  else service.

(** Lines 395-403: the volume dependencies in the Compose format. *)
Definition serviceVolumeDependencies (osType : string)
    (volumeDependencies : gmap string bool) : list types.ServiceVolumeConfig :=
  (λ entry : string * bool,
     types.mkVolume "volume" entry.1
       (mountPathForVolumeInMutagenContainer osType entry.1))
    <$> rangeOrder (rangeSeed 4) volumeDependencies.

(** Lines 405-416: the sidecar service definition. *)
Definition sidecarService (osType : string)
    (networkDependencies : gmap string (option types.ServiceNetworkConfig))
    (volumeDependencies : gmap string bool) : types.ServiceConfig :=
  types.mkService sidecarServiceName sidecarImage
    (<[sidecarVersionLabelKey := mutagenVersion]>
       {[sidecarRoleLabelKey := sidecarRoleLabelValue]})
    networkDependencies
    (serviceVolumeDependencies osType volumeDependencies)
    None.

(** Lines 98-423: what follows the name check, given the answer of the Docker
    engine.  The project and the liaison are assigned to on the last lines
    only, so a failure leaves both as they were. *)
Definition buildProject (l : Liaison) (project : types.Project Extension)
  : outcome (Liaison * types.Project Extension) :=
  daemonMetadata ← try (Info (dockerCLI l))
                     (λ e, "unable to query daemon metadata: " +:+ e);
  sessions ← decodeSessions (types.Extensions project);
  '(defaultsForwarding, forwardingSessions) ←
      extractForwardingDefaults (xmutagen.Forwarding sessions);
  '(defaultsSynchronization, synchronizationSessions) ←
      extractSynchronizationDefaults (xmutagen.Synchronization sessions);
  '(forwardingSpecifications, networkDependencies) ←
      foldM (forwardingStep defaultsForwarding)
            (rangeOrder (rangeSeed 0) forwardingSessions) (∅, ∅);
  '(synchronizationSpecifications, volumeDependencies) ←
      foldM (synchronizationStep defaultsSynchronization
               (types.WorkingDir project) (OSType daemonMetadata))
            (rangeOrder (rangeSeed 1) synchronizationSessions) (∅, ∅);
  _ ← validateDependencies "network" "forwarding" (rangeSeed 2)
        networkDependencies (types.ProjectNetworks project);
  _ ← validateDependencies "volume" "synchronization" (rangeSeed 3)
        volumeDependencies (types.ProjectVolumes project);
  let services :=
    (addSidecarDependency volumeDependencies <$> types.Services project)
      ++ [sidecarService (OSType daemonMetadata) networkDependencies volumeDependencies] in
  Ok (mkLiaison (dockerCLI l) forwardingSpecifications synchronizationSpecifications,
      types.setServices project services).

(** What a call of a method leaves behind: its result, the liaison and the
    project as the call left them, and the external calls it made. *)
Record Processed := mkProcessed {
  returned : outcome unit;
  liaisonAfter : Liaison;
  projectAfter : option (types.Project Extension);
  calls : list Call;
}.

(** Lines 82-424. *)
Definition processProject (l : Liaison) (project : option (types.Project Extension))
  : Processed :=
  match project with
  | None => mkProcessed (Ok tt) l None []
  | Some p =>
      match checkServiceNames (types.Services p) with
      | Ok _ =>
          match buildProject l p with
          | Ok (l', p') => mkProcessed (Ok tt) l' (Some p') [ClientInfo]
          | Err e => mkProcessed (Err e) l (Some p) [ClientInfo]
          | Panic msg => mkProcessed (Panic msg) l (Some p) [ClientInfo]
          end
      | Err e => mkProcessed (Err e) l (Some p) []
      | Panic msg => mkProcessed (Panic msg) l (Some p) []
      end
  end.

End ProcessProject.

(** ** The Mutagen daemon *)

(** The daemon as the liaison sees it.  An answer may depend on everything
    that was asked before, so each answer is a function of the trace so far.
    A listing response is modelled by the sessions of its states. *)
Record Daemon := mkDaemon {
  Connect : option string;
  forwardingListResponse :
    list Call → selection.Selection → result (list forwarding.Session);
  synchronizationListResponse :
    list Call → selection.Selection → result (list synchronization.Session);
  forwardCreateResponse :
    list Call → forwardingsvc.CreationSpecification → result string;
  syncCreateResponse :
    list Call → synchronizationsvc.CreationSpecification → result string;
  (** the error, if any, of a call that returns nothing else *)
  response : list Call → Call → option string;
}.

(** Computations that talk to the daemon: they extend the trace and may stop
    early. *)
Definition Run (A : Type) : Type := list Call → outcome A * list Call.

#[global] Instance Run_ret : MRet Run := λ A a trace, (Ok a, trace).
#[global] Instance Run_bind : MBind Run := λ A B f m trace,
  match m trace with
  | (Ok a, trace') => f a trace'
  | (Err e, trace') => (Err e, trace')
  | (Panic msg, trace') => (Panic msg, trace')
  end.

(** A call that returns an error or nothing. *)
Definition perform (d : Daemon) (c : Call) (wrap : string → string) : Run unit :=
  λ trace, (ensure (response d trace c) wrap, trace ++ [c]).

(** [daemon.Connect] followed by [defer daemonConnection.Close()]: the
    connection is closed on every way out of [body]. *)
Definition withConnection {A} (d : Daemon) (body : Run A) : Run A :=
  λ trace,
    match Connect d with
    | Some e => (Err ("unable to connect to Mutagen daemon: " +:+ e),
                 trace ++ [DaemonConnect])
    | None => let '(r, trace') := body (trace ++ [DaemonConnect]) in
              (r, trace' ++ [ConnectionClose])
    end.

(** ** [reconcileSessions] *)

Section Reconcile.
Context `{E : Env}.

(** Lines 432-438 and 439-445: the loop bodies that reify the sidecar URLs of
    a specification and label it. *)
Definition stampForwarding (dockerHost sidecarID : string)
    (specification : forwardingsvc.CreationSpecification)
  : forwardingsvc.CreationSpecification :=
  forwardingsvc.setLabels
    (forwardingsvc.setEndpoints specification
       (reifySidecarURLIfNecessary (forwardingsvc.Source specification)
          dockerHost sidecarID)
       (reifySidecarURLIfNecessary (forwardingsvc.Destination specification)
          dockerHost sidecarID))
    {[sessionSidecarLabelKey := chopSidecarIdentifier sidecarID]}.

Definition stampSynchronization (dockerHost sidecarID : string)
    (specification : synchronizationsvc.CreationSpecification)
  : synchronizationsvc.CreationSpecification :=
  synchronizationsvc.setLabels
    (synchronizationsvc.setEndpoints specification
       (reifySidecarURLIfNecessary (synchronizationsvc.Alpha specification)
          dockerHost sidecarID)
       (reifySidecarURLIfNecessary (synchronizationsvc.Beta specification)
          dockerHost sidecarID))
    {[sessionSidecarLabelKey := chopSidecarIdentifier sidecarID]}.

(** Lines 486-494 and 501-509: the body of the loop that sorts the listed
    sessions into the prune list and the map from name to existing session.
    The two copies of the source differ in the session type only. *)
Definition classifyStep {Session Specification}
    (name identifier : Session → string)
    (desired : gmap string Specification)
    (acc : list string * gmap string Session) (session : Session)
  : list string * gmap string Session :=
  match desired !! name session with
  | None => (acc.1 ++ [identifier session], acc.2)
  | Some _ =>
      match acc.2 !! name session with
      | Some _ => (acc.1 ++ [identifier session], acc.2)
      | None => (acc.1, <[name session := session]> acc.2)
      end
  end.

Definition classify {Session Specification}
    (name identifier : Session → string)
    (desired : gmap string Specification) (listed : list Session)
  : list string * gmap string Session :=
  foldl (classifyStep name identifier desired) ([], ∅) listed.

(** Lines 513-520 and 524-531: the body of the loop that finds the
    specifications to create, and the stale sessions they replace. *)
Definition diffStep {Session Specification}
    (identifier : Session → string) (current : Session → Specification → bool)
    (nameToSession : gmap string Session)
    (acc : list string * list Specification) (entry : string * Specification)
  : list string * list Specification :=
  match nameToSession !! entry.1 with
  | None => (acc.1, acc.2 ++ [entry.2])
  | Some existing =>
      if negb (current existing entry.2)
      then (acc.1 ++ [identifier existing], acc.2 ++ [entry.2])
      else acc
  end.

(** Lines 484-531 for one session kind: the prune list and the create list. *)
Definition plan {Session Specification}
    (name identifier : Session → string) (current : Session → Specification → bool)
    (seed : list nat)
    (desired : gmap string Specification) (listed : list Session)
  : list string * list Specification :=
  let '(pruneList, nameToSession) := classify name identifier desired listed in
  foldl (diffStep identifier current nameToSession) (pruneList, [])
        (rangeOrder seed desired).

Definition forwardingPlan (desired : gmap string forwardingsvc.CreationSpecification)
    (listed : list forwarding.Session) :=
  plan forwarding.Name forwarding.Identifier forwardingSessionCurrent
       (rangeSeed 5) desired listed.

Definition synchronizationPlan
    (desired : gmap string synchronizationsvc.CreationSpecification)
    (listed : list synchronization.Session) :=
  plan synchronization.Name synchronization.Identifier synchronizationSessionCurrent
       (rangeSeed 6) desired listed.

(** Lines 463-479: the two listings. *)
Definition queryForwarding (d : Daemon) (projectSelection : selection.Selection)
  : Run (list forwarding.Session) :=
  λ trace,
    (listed ← try (forwardingListResponse d trace projectSelection)
                (λ e, "forwarding session listing failed: " +:+ PeelAwayRPCErrorLayer e);
     _ ← ensure (forwardingListResponseValid listed)
           (λ e, "invalid forwarding session listing response received: " +:+ e);
     Ok listed,
     trace ++ [ForwardingList projectSelection]).

Definition querySynchronization (d : Daemon) (projectSelection : selection.Selection)
  : Run (list synchronization.Session) :=
  λ trace,
    (listed ← try (synchronizationListResponse d trace projectSelection)
                (λ e, "synchronization session listing failed: "
                        +:+ PeelAwayRPCErrorLayer e);
     _ ← ensure (synchronizationListResponseValid listed)
           (λ e, "invalid synchronization session listing response received: " +:+ e);
     Ok listed,
     trace ++ [SynchronizationList projectSelection]).

(** Lines 533-549: a prune list is terminated in one call, if it is not
    empty. *)
Definition pruneForwarding (d : Daemon) (forwardingPruneList : list string) : Run unit :=
  if bool_decide (0 < length forwardingPruneList) then
    perform d (ForwardTerminateWithSelection (selection.mkSelection forwardingPruneList EmptyString))
      (λ e, "unable to prune orphaned/duplicate/stale forwarding sessions: " +:+ e)
  else mret tt.

Definition pruneSynchronization (d : Daemon) (synchronizationPruneList : list string)
  : Run unit :=
  if bool_decide (0 < length synchronizationPruneList) then
    perform d
      (SyncTerminateWithSelection (selection.mkSelection synchronizationPruneList EmptyString))
      (λ e, "unable to prune orphaned/duplicate/stale synchronization sessions: " +:+ e)
  else mret tt.

(** Lines 565-571. *)
Fixpoint createForwarding (d : Daemon)
    (specifications : list forwardingsvc.CreationSpecification) : Run unit :=
  match specifications with
  | [] => mret tt
  | specification :: rest =>
      _ ← (λ trace,
             (_ ← try (forwardCreateResponse d trace specification)
                    (λ e, "unable to create forwarding session ("
                            +:+ forwardingsvc.Name specification +:+ "): " +:+ e);
              Ok tt,
              trace ++ [ForwardCreateWithSpecification specification])) : Run unit;
      createForwarding d rest
  end.

(** Lines 573-582: the identifiers of the created sessions are collected. *)
Fixpoint createSynchronization (d : Daemon)
    (specifications : list synchronizationsvc.CreationSpecification)
    (newSynchronizationSessions : list string) : Run (list string) :=
  match specifications with
  | [] => mret newSynchronizationSessions
  | specification :: rest =>
      s ← (λ trace,
             (try (syncCreateResponse d trace specification)
                (λ e, "unable to create synchronization session ("
                        +:+ synchronizationsvc.Name specification +:+ "): " +:+ e),
              trace ++ [SyncCreateWithSpecification specification])) : Run string;
      createSynchronization d rest (newSynchronizationSessions ++ [s])
  end.

(** Lines 584-591. *)
Definition flushNew (d : Daemon) (newSynchronizationSessions : list string) : Run unit :=
  if bool_decide (0 < length newSynchronizationSessions) then
    perform d
      (SyncFlushWithSelection (selection.mkSelection newSynchronizationSessions EmptyString) false)
      (λ e, "unable to flush synchronization session(s): " +:+ e)
  else mret tt.

(** Lines 533-594: everything after the prune and create lists are known. *)
Definition applyPlan (d : Daemon) (projectSelection : selection.Selection)
    (forwardingPruneList : list string)
    (forwardingCreateSpecifications : list forwardingsvc.CreationSpecification)
    (synchronizationPruneList : list string)
    (synchronizationCreateSpecifications : list synchronizationsvc.CreationSpecification)
  : Run unit :=
  _ ← pruneForwarding d forwardingPruneList;
  _ ← pruneSynchronization d synchronizationPruneList;
  _ ← perform d (ForwardResumeWithSelection projectSelection)
        (λ e, "forwarding resumption failed: " +:+ e);
  _ ← perform d (SyncResumeWithSelection projectSelection)
        (λ e, "synchronization resumption failed: " +:+ e);
  _ ← createForwarding d forwardingCreateSpecifications;
  newSynchronizationSessions ←
    createSynchronization d synchronizationCreateSpecifications [];
  flushNew d newSynchronizationSessions.

(** What a call of one of the session methods leaves behind. *)
Record Reconciled := mkReconciled {
  result_ : outcome unit;
  liaison_ : Liaison;
  trace_ : list Call;
}.

(** Lines 429-595. *)
Definition reconcileSessions (d : Daemon) (l : Liaison) (sidecarID : string)
  : Reconciled :=
  let dockerHost := DaemonHost (dockerCLI l) in
  let l' :=
    mkLiaison (dockerCLI l)
      (stampForwarding dockerHost sidecarID <$> forwarding l)
      (stampSynchronization dockerHost sidecarID <$> synchronization l) in
  let '(r, trace) :=
    withConnection d
      (let projectSelection :=
         selection.mkSelection []
           (sessionSidecarLabelKey +:+ " == " +:+ chopSidecarIdentifier sidecarID) in
       forwardingListed ← queryForwarding d projectSelection;
       synchronizationListed ← querySynchronization d projectSelection;
       let '(forwardingPruneList, forwardingCreateSpecifications) :=
         forwardingPlan (forwarding l') forwardingListed in
       let '(synchronizationPruneList, synchronizationCreateSpecifications) :=
         synchronizationPlan (synchronization l') synchronizationListed in
       applyPlan d projectSelection
         forwardingPruneList forwardingCreateSpecifications
         synchronizationPruneList synchronizationCreateSpecifications)
      [ClientDaemonHost] in
  mkReconciled r l' trace.

(** Lines 599-626. *)
Definition listSessions (d : Daemon) (l : Liaison) (sidecarID : string) : Reconciled :=
  let '(r, trace) :=
    withConnection d
      (let projectSelection :=
         selection.mkSelection []
           (sessionSidecarLabelKey +:+ " == " +:+ chopSidecarIdentifier sidecarID) in
       _ ← perform d (ForwardListWithSelection projectSelection false)
             (λ e, "forwarding listing failed: " +:+ e);
       perform d (SyncListWithSelection projectSelection false)
         (λ e, "synchronization listing failed: " +:+ e))
      [] in
  mkReconciled r l trace.

(** Lines 630-657. *)
Definition pauseSessions (d : Daemon) (l : Liaison) (sidecarID : string) : Reconciled :=
  let '(r, trace) :=
    withConnection d
      (let projectSelection :=
         selection.mkSelection []
           (sessionSidecarLabelKey +:+ " == " +:+ chopSidecarIdentifier sidecarID) in
       _ ← perform d (ForwardPauseWithSelection projectSelection)
             (λ e, "forwarding pausing failed: " +:+ e);
       perform d (SyncPauseWithSelection projectSelection)
         (λ e, "synchronization pausing failed: " +:+ e))
      [] in
  mkReconciled r l trace.

(** Lines 661-688. *)
Definition resumeSessions (d : Daemon) (l : Liaison) (sidecarID : string) : Reconciled :=
  let '(r, trace) :=
    withConnection d
      (let projectSelection :=
         selection.mkSelection []
           (sessionSidecarLabelKey +:+ " == " +:+ chopSidecarIdentifier sidecarID) in
       _ ← perform d (ForwardResumeWithSelection projectSelection)
             (λ e, "forwarding resumption failed: " +:+ e);
       perform d (SyncResumeWithSelection projectSelection)
         (λ e, "synchronization resumption failed: " +:+ e))
      [] in
  mkReconciled r l trace.

(** Lines 692-719. *)
Definition terminateSessions (d : Daemon) (l : Liaison) (sidecarID : string)
  : Reconciled :=
  let '(r, trace) :=
    withConnection d
      (let projectSelection :=
         selection.mkSelection []
           (sessionSidecarLabelKey +:+ " == " +:+ chopSidecarIdentifier sidecarID) in
       _ ← perform d (ForwardTerminateWithSelection projectSelection)
             (λ e, "forwarding termination failed: " +:+ e);
       perform d (SyncTerminateWithSelection projectSelection)
         (λ e, "synchronization termination failed: " +:+ e))
      [] in
  mkReconciled r l trace.

End Reconcile.

(** ** A sample environment

    A small instance of [Env] on which the model runs: endpoints are
    [protocol:address] strings, [network://] and [volume://] prefixes mark the
    pseudo-URLs, and maps are visited in the order of [map_to_list]. *)
Module Sample.

Definition localURL (k : url.Kind) (path : string) : url.URL :=
  url.mkURL k url.Protocol_Local EmptyString EmptyString 0 path ∅.

Definition sidecarURL (k : url.Kind) (path : string) : url.URL :=
  url.mkURL k url.Protocol_Docker EmptyString "sidecar" 0 path ∅.

Definition after (prefix raw : string) : string :=
  String.substring (String.length prefix) (String.length raw - String.length prefix) raw.

Definition endpointParse (raw : string) : result (string * string) :=
  match String.index 0 ":" raw with
  | None => Failure "invalid forwarding endpoint"
  | Some i => Success (String.substring 0 i raw, after (String.substring 0 (S i) raw) raw)
  end.

Definition parse (raw : string) (k : url.Kind) (first : bool) : result url.URL :=
  if String.eqb raw EmptyString then Failure "empty raw URL"
  else match k with
       | url.Kind_Synchronization => Success (localURL k raw)
       | url.Kind_Forwarding =>
           match endpointParse raw with
           | Failure e => Failure ("invalid forwarding endpoint URL: " +:+ e)
           | Success _ => Success (localURL k raw)
           end
       end.

Definition networkParse (raw : string) : result (url.URL * string) :=
  match String.index 0 ":" (after "network://" raw) with
  | None => Failure "missing forwarding endpoint"
  | Some i =>
      Success (sidecarURL url.Kind_Forwarding (after "network://" raw),
               String.substring 0 i (after "network://" raw))
  end.

Definition volumeParse (raw osType : string) : result (url.URL * string) :=
  if String.eqb (after "volume://" raw) EmptyString then Failure "empty volume name"
  else Success (sidecarURL url.Kind_Synchronization ("/volumes/" +:+ after "volume://" raw),
                after "volume://" raw).

Definition endpointSpecificOnly (c : Configuration) (endpointSpecific : bool)
  : option string :=
  if negb endpointSpecific && bool_decide (is_Some (c !! "socketOwner"))
  then Some "socket owner must be endpoint-specific"
  else None.

Definition envWith (reparse : string → result (string * string)) : Env := {|
  Extension := xmutagen.configuration;
  NewDecoder := None;
  Decode := Success;
  EnsureNameValid name := if String.eqb name EmptyString then Some "empty name" else None;
  urlParse := parse;
  forwardingurlParse := reparse;
  forwardingEnsureValid := endpointSpecificOnly;
  synchronizationEnsureValid := endpointSpecificOnly;
  IsAbs path := String.prefix "/" path;
  Join a b := a +:+ "/" +:+ b;
  Abs := Success;
  mutagenVersion := "0.13.0";
  sidecarServiceName := "mutagen";
  sidecarImage := "mutagenio/sidecar";
  sidecarRoleLabelKey := "io.mutagen.compose.role";
  sidecarRoleLabelValue := "sidecar";
  sidecarVersionLabelKey := "io.mutagen.compose.version";
  sessionSidecarLabelKey := "io.mutagen.compose.sidecar";
  isNetworkURL := String.prefix "network://";
  isVolumeURL := String.prefix "volume://";
  isTCPForwardingProtocol p := String.eqb p "tcp";
  parseNetworkURL := networkParse;
  parseVolumeURL := volumeParse;
  mountPathForVolumeInMutagenContainer osType volume := "/volumes/" +:+ volume;
  chopSidecarIdentifier := String.substring 0 4;
  reifySidecarURLIfNecessary u dockerHost sidecarID :=
    if bool_decide (url.protocol u = url.Protocol_Docker)
    then url.mkURL (url.kind u) (url.protocol u) (url.User u) sidecarID (url.Port u)
           (url.Path u) {["DOCKER_HOST" := dockerHost]}
    else u;
  forwardingSessionCurrent existing specification :=
    bool_decide (url.Path (forwarding.Destination existing)
                 = url.Path (forwardingsvc.Destination specification));
  synchronizationSessionCurrent existing specification :=
    bool_decide (url.Path (synchronization.Beta existing)
                 = url.Path (synchronizationsvc.Beta specification));
  PeelAwayRPCErrorLayer e := e;
  forwardingListResponseValid _ := None;
  synchronizationListResponseValid _ := None;
  rangeSeed _ := [];
|}.

Definition env : Env := envWith endpointParse.

(** A Docker client that answers, and a daemon that lists what it is given,
    numbers the sessions it creates and never fails. *)
Definition client : Client := mkClient (Success (mkMetadata "linux")) "unix:///docker.sock".

Definition daemon (fs : list forwarding.Session) (ss : list synchronization.Session)
  : Daemon :=
  mkDaemon None (λ _ _, Success fs) (λ _ _, Success ss)
    (λ _ spec, Success ("forw_" +:+ forwardingsvc.Name spec))
    (λ _ spec, Success ("sync_" +:+ synchronizationsvc.Name spec))
    (λ _ _, None).

Definition web : xmutagen.forwardingSession :=
  xmutagen.mkForwarding "tcp:localhost:8080" "network://backend:tcp:web:80"
    {["socketOverwriteMode" := "overwrite"]} ∅ ∅.

Definition data : xmutagen.synchronizationSession :=
  xmutagen.mkSynchronization "./app" "volume://cache" {["mode" := "two-way-resolved"]} ∅ ∅.

Definition sessions : xmutagen.configuration :=
  xmutagen.mkConfiguration {["web" := web]} {["data" := data]}.

Definition app : types.ServiceConfig :=
  types.mkService "app" "nginx" ∅ ∅ [types.mkVolume "volume" "cache" "/srv"] None.

Definition project : types.Project xmutagen.configuration :=
  types.mkProject "/work" [app] {["backend" := tt]} {["cache" := tt]}
    {["x-mutagen" := sessions]}.

Definition empty : Liaison := mkLiaison client ∅ ∅.

Definition existing (identifier name destination : string) : forwarding.Session :=
  forwarding.mkSession identifier name
    (localURL url.Kind_Forwarding "tcp:localhost:8080")
    (sidecarURL url.Kind_Forwarding destination) ∅ ∅ ∅ ∅.

End Sample.

(** ** Notions used by the properties *)

(** The calls of a complete apply phase, in the order the specification
    gives: terminations, resumptions, creations, flush. *)
Definition pruneCalls (forwardingPruneList synchronizationPruneList : list string)
  : list Call :=
  (if bool_decide (0 < length forwardingPruneList)
   then [ForwardTerminateWithSelection (selection.mkSelection forwardingPruneList EmptyString)]
   else [])
  ++ (if bool_decide (0 < length synchronizationPruneList)
      then [SyncTerminateWithSelection (selection.mkSelection synchronizationPruneList EmptyString)]
      else []).

Definition resumeCalls (projectSelection : selection.Selection) : list Call :=
  [ForwardResumeWithSelection projectSelection; SyncResumeWithSelection projectSelection].

Definition createCalls
    (forwardingCreate : list forwardingsvc.CreationSpecification)
    (synchronizationCreate : list synchronizationsvc.CreationSpecification)
  : list Call :=
  (ForwardCreateWithSpecification <$> forwardingCreate)
  ++ (SyncCreateWithSpecification <$> synchronizationCreate).

Definition flushCalls (created : list string) : list Call :=
  if bool_decide (0 < length created)
  then [SyncFlushWithSelection (selection.mkSelection created EmptyString) false]
  else [].

Definition applyCalls (projectSelection : selection.Selection)
    (forwardingPruneList : list string)
    (forwardingCreate : list forwardingsvc.CreationSpecification)
    (synchronizationPruneList : list string)
    (synchronizationCreate : list synchronizationsvc.CreationSpecification)
    (created : list string) : list Call :=
  pruneCalls forwardingPruneList synchronizationPruneList
  ++ resumeCalls projectSelection
  ++ createCalls forwardingCreate synchronizationCreate
  ++ flushCalls created.

(** [answers d trace specifications created]: the daemon, asked after
    [trace] to create the [specifications] one after the other, answers with
    the identifiers [created], one per specification. *)
Fixpoint answers (d : Daemon) (trace : list Call)
    (specifications : list synchronizationsvc.CreationSpecification)
    (created : list string) : Prop :=
  match specifications, created with
  | [], [] => True
  | specification :: specifications', s :: created' =>
      syncCreateResponse d trace specification = Success s
      ∧ answers d (trace ++ [SyncCreateWithSpecification specification])
                specifications' created'
  | _, _ => False
  end.

(** The selection a call carries, if it carries one. *)
Definition callSelection (c : Call) : option selection.Selection :=
  match c with
  | ForwardingList s | SynchronizationList s
  | ForwardTerminateWithSelection s | SyncTerminateWithSelection s
  | ForwardResumeWithSelection s | SyncResumeWithSelection s
  | ForwardPauseWithSelection s | SyncPauseWithSelection s
  | ForwardListWithSelection s _ | SyncListWithSelection s _
  | SyncFlushWithSelection s _ => Some s
  | _ => None
  end.

(** Modelled from the spec: how the daemon evaluates a label selector is not
    part of this package.  The spec says that a selection is "either an
    explicit identifier set or a label-equality expression"; the expression
    [key == value] selects the sessions whose label [key] is [value]. *)
Definition labelSelectorSelects (selector : string) (labels : gmap string string)
  : Prop :=
  ∃ key value, selector = key +:+ " == " +:+ value ∧ labels !! key = Some value.

(** A selection is the project selection or an explicit, non-empty list of
    identifiers. *)
Definition projectOrExplicit `{E : Env} (sidecarID : string)
    (s : selection.Selection) : Prop :=
  s = selection.mkSelection []
        (sessionSidecarLabelKey +:+ " == " +:+ chopSidecarIdentifier sidecarID)
  ∨ (selection.LabelSelector s = EmptyString ∧ selection.Specifications s ≠ []).

(** The four methods that connect and then make two calls with the project
    selection. *)
Definition labelOnly `{E : Env} (d : Daemon) (l : Liaison) (sidecarID : string)
    (method : Daemon → Liaison → string → Reconciled)
    (first second : selection.Selection → Call) : Prop :=
  let projectSelection :=
    selection.mkSelection []
      (sessionSidecarLabelKey +:+ " == " +:+ chopSidecarIdentifier sidecarID) in
  (is_Some (Connect d) ∧ trace_ (method d l sidecarID) = [DaemonConnect])
  ∨ trace_ (method d l sidecarID)
    = [DaemonConnect; first projectSelection; ConnectionClose]
  ∨ trace_ (method d l sidecarID)
    = [DaemonConnect; first projectSelection; second projectSelection;
       ConnectionClose].


(** The steps of a build that succeeded. *)
Inductive Built `{E : Env} (l : Liaison) (p : types.Project Extension)
    (l' : Liaison) (p' : types.Project Extension) : Prop :=
| mkBuilt (daemonMetadata : DaemonMetadata)
    (sessions : xmutagen.configuration)
    (defaultsForwarding defaultsSynchronization : Defaults)
    (networkDependencies : gmap string (option types.ServiceNetworkConfig))
    (volumeDependencies : gmap string bool)
    (built_metadata : Info (dockerCLI l) = Success daemonMetadata)
    (built_sessions : decodeSessions (types.Extensions p) = Ok sessions)
    (built_forwardingDefaults :
       extractForwardingDefaults (xmutagen.Forwarding sessions)
       = Ok (defaultsForwarding, delete "defaults" (xmutagen.Forwarding sessions)))
    (built_synchronizationDefaults :
       extractSynchronizationDefaults (xmutagen.Synchronization sessions)
       = Ok (defaultsSynchronization,
             delete "defaults" (xmutagen.Synchronization sessions)))
    (built_forwarding :
       foldM (forwardingStep defaultsForwarding)
         (rangeOrder (rangeSeed 0) (delete "defaults" (xmutagen.Forwarding sessions)))
         (∅, ∅)
       = Ok (forwarding l', networkDependencies))
    (built_synchronization :
       foldM (synchronizationStep defaultsSynchronization (types.WorkingDir p)
                (OSType daemonMetadata))
         (rangeOrder (rangeSeed 1)
            (delete "defaults" (xmutagen.Synchronization sessions)))
         (∅, ∅)
       = Ok (synchronization l', volumeDependencies))
    (built_client : dockerCLI l' = dockerCLI l)
    (built_project :
       p' = types.setServices p
              ((addSidecarDependency volumeDependencies <$> types.Services p)
                 ++ [sidecarService (OSType daemonMetadata) networkDependencies
                       volumeDependencies])).

(** Field by field, [merged] takes the value of [higher] where it is set and
    that of [lower] otherwise. *)
Definition lastWriterWins (lower higher merged : Configuration) : Prop :=
  ∀ field,
    merged !! field = match higher !! field with
                      | Some value => Some value
                      | None => lower !! field
                      end.

(** The merge the specification words: one effective configuration out of
    the global defaults, the defaults of the role and the session's own
    values. *)
Definition mergeThreeTier (global roleDefault override : Configuration) : Configuration :=
  MergeConfigurations (MergeConfigurations global roleDefault) override.

(** A configuration object of the [defaults] entry, empty when the section
    has no such entry. *)
Definition layer {Session} (slot : Session → Configuration) (defaults : option Session)
  : Configuration :=
  default ∅ (slot <$> defaults).


(** A section whose [defaults] entry sets the synchronization mode for the
    session as a whole, and a session that sets nothing. *)
Definition layeredSessions : xmutagen.configuration :=
  xmutagen.mkConfiguration ∅
    {["defaults" := xmutagen.mkSynchronization EmptyString EmptyString
                      {["mode" := "two-way-resolved"]} ∅ ∅;
      "data" := xmutagen.mkSynchronization "./app" "volume://cache" ∅ ∅ ∅]}.

Definition layeredProject : types.Project xmutagen.configuration :=
  types.mkProject "/work" [] ∅ {["cache" := tt]} {["x-mutagen" := layeredSessions]}.

(** The error, if any, with which the daemon answers a call of the apply
    phase that is made after [trace]. *)
Definition refusal (d : Daemon) (trace : list Call) (c : Call) : option string :=
  match c with
  | ForwardCreateWithSpecification specification =>
      match forwardCreateResponse d trace specification with
      | Failure e => Some e
      | Success _ => None
      end
  | SyncCreateWithSpecification specification =>
      match syncCreateResponse d trace specification with
      | Failure e => Some e
      | Success _ => None
      end
  | _ => response d trace c
  end.

(** [carriedOut d trace calls]: the daemon, asked after [trace] to carry out
    the [calls] one after the other, refuses none of them. *)
Fixpoint carriedOut (d : Daemon) (trace : list Call) (calls : list Call) : Prop :=
  match calls with
  | [] => True
  | c :: calls' => refusal d trace c = None ∧ carriedOut d (trace ++ [c]) calls'
  end.

(** Lines 538, 547, 558, 562, 569, 578 and 589: the error that the apply
    phase returns when the daemon refuses a call with the error [e]. *)
Definition applyFailure (c : Call) (e : string) : string :=
  match c with
  | ForwardTerminateWithSelection _ =>
      "unable to prune orphaned/duplicate/stale forwarding sessions: " +:+ e
  | SyncTerminateWithSelection _ =>
      "unable to prune orphaned/duplicate/stale synchronization sessions: " +:+ e
  | ForwardResumeWithSelection _ => "forwarding resumption failed: " +:+ e
  | SyncResumeWithSelection _ => "synchronization resumption failed: " +:+ e
  | ForwardCreateWithSpecification specification =>
      "unable to create forwarding session ("
        +:+ forwardingsvc.Name specification +:+ "): " +:+ e
  | SyncCreateWithSpecification specification =>
      "unable to create synchronization session ("
        +:+ synchronizationsvc.Name specification +:+ "): " +:+ e
  | SyncFlushWithSelection _ _ => "unable to flush synchronization session(s): " +:+ e
  | _ => e
  end.

(** [followed d trace script r]: the run [r], started after [trace], made
    the calls of [script] in their order, all of them and none refused, and
    returned; or it made them up to the first one that the daemon refused,
    that one included, made no call after it and returned the error of the
    refusal. *)
Definition followed {A} (d : Daemon) (trace script : list Call)
    (r : outcome A * list Call) : Prop :=
  ((∃ a, r.1 = Ok a) ∧ r.2 = trace ++ script ∧ carriedOut d trace script)
  ∨ ∃ pre c post e,
      script = pre ++ c :: post
      ∧ r.2 = trace ++ pre ++ [c]
      ∧ carriedOut d trace pre
      ∧ refusal d (trace ++ pre) c = Some e
      ∧ r.1 = Err (applyFailure c e).



(** ** Further sample inputs *)

(** The sample environment with a decoder that reads the section as text and
    rejects it. *)
Definition strictEnv : Env := {|
  Extension := string;
  NewDecoder := None;
  Decode raw := Failure ("unknown field " +:+ raw);
  EnsureNameValid := EnsureNameValid (Env := Sample.env);
  urlParse := urlParse (Env := Sample.env);
  forwardingurlParse := forwardingurlParse (Env := Sample.env);
  forwardingEnsureValid := forwardingEnsureValid (Env := Sample.env);
  synchronizationEnsureValid := synchronizationEnsureValid (Env := Sample.env);
  IsAbs := IsAbs (Env := Sample.env);
  Join := Join (Env := Sample.env);
  Abs := Abs (Env := Sample.env);
  mutagenVersion := mutagenVersion (Env := Sample.env);
  sidecarServiceName := sidecarServiceName (Env := Sample.env);
  sidecarImage := sidecarImage (Env := Sample.env);
  sidecarRoleLabelKey := sidecarRoleLabelKey (Env := Sample.env);
  sidecarRoleLabelValue := sidecarRoleLabelValue (Env := Sample.env);
  sidecarVersionLabelKey := sidecarVersionLabelKey (Env := Sample.env);
  sessionSidecarLabelKey := sessionSidecarLabelKey (Env := Sample.env);
  isNetworkURL := isNetworkURL (Env := Sample.env);
  isVolumeURL := isVolumeURL (Env := Sample.env);
  isTCPForwardingProtocol := isTCPForwardingProtocol (Env := Sample.env);
  parseNetworkURL := parseNetworkURL (Env := Sample.env);
  parseVolumeURL := parseVolumeURL (Env := Sample.env);
  mountPathForVolumeInMutagenContainer :=
    mountPathForVolumeInMutagenContainer (Env := Sample.env);
  chopSidecarIdentifier := chopSidecarIdentifier (Env := Sample.env);
  reifySidecarURLIfNecessary := reifySidecarURLIfNecessary (Env := Sample.env);
  forwardingSessionCurrent := forwardingSessionCurrent (Env := Sample.env);
  synchronizationSessionCurrent := synchronizationSessionCurrent (Env := Sample.env);
  PeelAwayRPCErrorLayer := PeelAwayRPCErrorLayer (Env := Sample.env);
  forwardingListResponseValid := forwardingListResponseValid (Env := Sample.env);
  synchronizationListResponseValid :=
    synchronizationListResponseValid (Env := Sample.env);
  rangeSeed := rangeSeed (Env := Sample.env);
|}.

(** ** Notions used by the further properties *)

(** The URL that a synchronization endpoint which is not a volume URL
    becomes: the local URL that [url.Parse] returns, with its path replaced
    by the absolute path under the working directory when the endpoint is
    not an absolute path. *)
Definition resolvesLocally `{E : Env} (first : bool) (workingDir raw : string)
    (resolved : url.URL) : Prop :=
  ∃ parsed,
    urlParse raw url.Kind_Synchronization first = Success parsed
    ∧ url.protocol parsed = url.Protocol_Local
    ∧ if IsAbs raw then resolved = parsed
      else ∃ path, Abs (Join workingDir raw) = Success path
                   ∧ resolved = url.setPath parsed path.

(** A forwarding session of the section, other than [defaults], whose
    destination [parseNetworkURL] resolves to [network]. *)
Definition targetsNetwork `{E : Env} (sessions : xmutagen.configuration)
    (network : string) : Prop :=
  ∃ name session parsed,
    name ≠ "defaults"
    ∧ xmutagen.Forwarding sessions !! name = Some session
    ∧ parseNetworkURL (xmutagen.Destination session) = Success (parsed, network).

(** A synchronization session of the section, other than [defaults], one of
    whose endpoints is a volume URL that [parseVolumeURL] resolves to
    [volume]. *)
Definition targetsVolume `{E : Env} (sessions : xmutagen.configuration)
    (osType volume : string) : Prop :=
  ∃ name session raw parsed,
    name ≠ "defaults"
    ∧ xmutagen.Synchronization sessions !! name = Some session
    ∧ (raw = xmutagen.Alpha session ∨ raw = xmutagen.Beta session)
    ∧ isVolumeURL raw = true
    ∧ parseVolumeURL raw osType = Success (parsed, volume).

(** A service that mounts, as a volume, a volume that a session targets. *)
Definition mountsTargeted `{E : Env} (sessions : xmutagen.configuration)
    (osType : string) (service : types.ServiceConfig) : Prop :=
  ∃ mount,
    mount ∈ types.Volumes service
    ∧ types.Type_ mount = "volume"
    ∧ targetsVolume sessions osType (types.Source mount).

(** The first listed session of a name. *)
Definition firstListed {Session} (name : Session → string) (listed : list Session)
    (n : string) : option Session :=
  head (filter (λ s, name s = n) listed).

(** The listed session that a desired specification replaces: the first
    listed session of its name, when that session is not current. *)
Definition replaced {Session Specification} (name : Session → string)
    (current : Session → Specification → bool) (listed : list Session)
    (entry : string * Specification) : option Session :=
  match firstListed name listed entry.1 with
  | Some existing => if current existing entry.2 then None else Some existing
  | None => None
  end.

(** A desired specification has to be created: no listed session has its
    name, or the first one that has is not current. *)
Definition wanted {Session Specification} (name : Session → string)
    (current : Session → Specification → bool) (listed : list Session)
    (entry : string * Specification) : bool :=
  match firstListed name listed entry.1 with
  | Some existing => negb (current existing entry.2)
  | None => true
  end.

(** The listing matches the desired specifications: every listed session has
    a name of its own and is current for the desired specification of that
    name, and every desired specification has a listed session. *)
Definition converged {Session Specification} (name : Session → string)
    (current : Session → Specification → bool)
    (desired : gmap string Specification) (listed : list Session) : bool :=
  bool_decide (NoDup (name <$> listed))
  && forallb (λ s, match desired !! name s with
                   | Some specification => current s specification
                   | None => false
                   end) listed
  && forallb (λ entry : string * Specification,
                bool_decide (entry.1 ∈ name <$> listed)) (map_to_list desired).

(** The methods of the liaison that talk to the Mutagen daemon. *)
Definition sessionMethods `{E : Env} : list (Daemon → Liaison → string → Reconciled) :=
  [reconcileSessions; listSessions; pauseSessions; resumeSessions; terminateSessions].

(** A method that connects, makes two calls with the project selection, the
    second only if the first succeeds, and closes the connection. *)
Definition twoCalls `{E : Env} (d : Daemon) (l : Liaison) (sidecarID : string)
    (method : Daemon → Liaison → string → Reconciled)
    (first second : selection.Selection → Call)
    (failedFirst failedSecond : string) : Prop :=
  let projectSelection :=
    selection.mkSelection []
      (sessionSidecarLabelKey +:+ " == " +:+ chopSidecarIdentifier sidecarID) in
  let answerFirst := response d [DaemonConnect] (first projectSelection) in
  let answerSecond :=
    response d [DaemonConnect; first projectSelection] (second projectSelection) in
  method d l sidecarID
  = match answerFirst with
    | Some e =>
        mkReconciled (Err (failedFirst +:+ e)) l
          [DaemonConnect; first projectSelection; ConnectionClose]
    | None =>
        mkReconciled
          (match answerSecond with
           | Some e => Err (failedSecond +:+ e)
           | None => Ok tt
           end) l
          [DaemonConnect; first projectSelection; second projectSelection;
           ConnectionClose]
    end.

(** A synchronization session as the sample daemon lists it. *)
Definition existingSynchronization (identifier name beta : string)
  : synchronization.Session :=
  synchronization.mkSession identifier name
    (Sample.localURL url.Kind_Synchronization "/work/./app")
    (Sample.sidecarURL url.Kind_Synchronization beta) ∅ ∅ ∅ ∅.

(** [accepted d trace specifications]: the daemon, asked after [trace] to
    create the forwarding [specifications] one after the other, accepts each
    of them. *)
Fixpoint accepted (d : Daemon) (trace : list Call)
    (specifications : list forwardingsvc.CreationSpecification) : Prop :=
  match specifications with
  | [] => True
  | specification :: specifications' =>
      (∃ identifier, forwardCreateResponse d trace specification = Success identifier)
      ∧ accepted d (trace ++ [ForwardCreateWithSpecification specification])
                 specifications'
  end.

(** A daemon that cannot list forwarding sessions. *)
Definition deafDaemon : Daemon :=
  mkDaemon None (λ _ _, Failure "rpc error: unavailable") (λ _ _, Success [])
    (λ _ spec, Success ("forw_" +:+ forwardingsvc.Name spec))
    (λ _ spec, Success ("sync_" +:+ synchronizationsvc.Name spec))
    (λ _ _, None).

(** A daemon that creates the sessions named [good] only, and refuses to
    pause forwarding sessions. *)
Definition pickyDaemon (good : string) : Daemon :=
  mkDaemon None (λ _ _, Success []) (λ _ _, Success [])
    (λ _ spec, if String.eqb (forwardingsvc.Name spec) good
               then Success ("forw_" +:+ forwardingsvc.Name spec)
               else Failure "refused")
    (λ _ spec, if String.eqb (synchronizationsvc.Name spec) good
               then Success ("sync_" +:+ synchronizationsvc.Name spec)
               else Failure "refused")
    (λ _ call, match call with
               | ForwardPauseWithSelection _ => Some "busy"
               | _ => None
               end).

(** A synchronization specification as [processProject] stores it, by name. *)
Definition synchronizationNamed (name : string)
  : synchronizationsvc.CreationSpecification :=
  synchronizationsvc.mkSpec
    (Sample.localURL url.Kind_Synchronization "/work/./app")
    (Sample.sidecarURL url.Kind_Synchronization "/volumes/cache")
    ∅ ∅ ∅ name ∅.

(** What a reconciliation pass may ask of the daemon, given the sessions the
    two listings returned and the specifications of the liaison: it
    terminates listed sessions, by identifier; it creates stored
    specifications; it neither pauses sessions nor lists them for display,
    and it does not query the Docker daemon's metadata. *)
Definition confined (forwardingListed : list forwarding.Session)
    (synchronizationListed : list synchronization.Session) (l : Liaison) (c : Call)
  : Prop :=
  match c with
  | ForwardTerminateWithSelection s =>
      selection.LabelSelector s = EmptyString
      ∧ selection.Specifications s ⊆ forwarding.Identifier <$> forwardingListed
  | SyncTerminateWithSelection s =>
      selection.LabelSelector s = EmptyString
      ∧ selection.Specifications s ⊆ synchronization.Identifier <$> synchronizationListed
  | ForwardCreateWithSpecification spec => ∃ name, forwarding l !! name = Some spec
  | SyncCreateWithSpecification spec => ∃ name, synchronization l !! name = Some spec
  | ForwardPauseWithSelection _ | SyncPauseWithSelection _
  | ForwardListWithSelection _ _ | SyncListWithSelection _ _ | ClientInfo => False
  | _ => True
  end.

(** A listed session that reconciliation keeps: it is the first listed
    session of its name, and it is current for the desired specification of
    that name. *)
Definition kept {Session Specification} (name : Session → string)
    (current : Session → Specification → bool)
    (desired : gmap string Specification) (listed : list Session) (s : Session)
  : Prop :=
  firstListed name listed (name s) = Some s
  ∧ ∃ specification, desired !! name s = Some specification
                     ∧ current s specification = true.

(** * Properties *)

Example sample_build_succeeds :
  returned (processProject (E := Sample.env) Sample.empty (Some Sample.project)) = Ok tt.
Proof. vm_compute. reflexivity. Qed.

(** ** The visiting order of a map *)

Lemma insertAt_perm {A} (i : nat) (x : A) (l : list A) : insertAt i x l ≡ₚ x :: l.
Proof.
  unfold insertAt. rewrite <- Permutation_middle. by rewrite take_drop.
Qed.

Lemma shuffle_perm {A} (seed : list nat) (l : list A) : shuffle seed l ≡ₚ l.
Proof.
  revert seed. induction l as [|x l IH]; intros seed; simpl; [done|].
  rewrite insertAt_perm. by rewrite IH.
Qed.

(** No order is left out: the model covers every run of a [range]. *)
Lemma shuffle_surjective {A} (l l' : list A) :
  l' ≡ₚ l → ∃ seed, shuffle seed l = l'.
Proof.
  revert l'. induction l as [|x l IH]; intros l' Hp.
  - apply Permutation_nil_r in Hp. subst. by exists [].
  - assert (x ∈ l') as Hin by (rewrite Hp; left).
    apply list_elem_of_split in Hin as (l1 & l2 & ->).
    rewrite <- Permutation_middle in Hp. apply (inj (cons x)) in Hp.
    destruct (IH _ Hp) as [seed Hs].
    exists (length l1 :: seed). simpl. rewrite Hs. unfold insertAt.
    by rewrite take_app_length, drop_app_length.
Qed.

Lemma elem_of_rangeOrder {V} (seed : list nat) (m : gmap string V) k v :
  (k, v) ∈ rangeOrder seed m ↔ m !! k = Some v.
Proof.
  unfold rangeOrder. rewrite shuffle_perm. apply elem_of_map_to_list.
Qed.

Lemma rangeOrder_empty {V} (seed : list nat) : rangeOrder seed (∅ : gmap string V) = [].
Proof. unfold rangeOrder. by rewrite map_to_list_empty. Qed.

(** ** The nil project *)

(** C9: [processProject] called with a nil project returns nil at once: it
    makes no call to the Docker engine (the metadata query included), does not
    touch a project, and leaves the specification maps of the liaison as they
    were. *)
Theorem processProject_nil `{E : Env} (l : Liaison) :
  processProject l None = mkProcessed (Ok tt) l None [].
Proof. reflexivity. Qed.

(** ** Classification of the listed sessions *)

Section Classification.
Context {Session Specification : Type}.
Context (name identifier : Session → string).
Context (desired : gmap string Specification).

Local Abbreviation classify' := (classify name identifier desired).
Local Abbreviation named n := (filter (λ s, name s = n)).

Lemma classify_snoc (listed : list Session) (s : Session) :
  classify' (listed ++ [s]) = classifyStep name identifier desired (classify' listed) s.
Proof. unfold classify. by rewrite foldl_snoc. Qed.

(** The map from name to existing session holds, for a desired name, the
    first listed session of that name, and nothing for any other name. *)
Lemma classify_current (listed : list Session) (n : string) :
  (classify' listed).2 !! n =
    match desired !! n with
    | None => None
    | Some _ => head (named n listed)
    end.
Proof.
  revert n. induction listed as [|s listed IH] using rev_ind; intros n.
  - simpl. rewrite lookup_empty. by destruct (desired !! n).
  - rewrite classify_snoc, filter_app. unfold classifyStep.
    destruct (desired !! name s) eqn:Hd.
    + destruct ((classify' listed).2 !! name s) eqn:Hc; simpl.
      * rewrite IH. destruct (desired !! n) eqn:Hn; [|done].
        rewrite head_app. destruct (head (named n listed)) eqn:Hh; [done|].
        rewrite filter_cons. case_decide as Hname; [|done]. subst n.
        rewrite IH, Hd, Hh in Hc. done.
      * destruct (decide (name s = n)) as [<-|Hne].
        -- rewrite lookup_insert_eq, Hd. rewrite IH, Hd in Hc.
           rewrite head_app, Hc. rewrite filter_cons. by case_decide.
        -- rewrite lookup_insert_ne by done. rewrite IH.
           destruct (desired !! n); [|done].
           rewrite filter_cons. case_decide; [done|].
           by rewrite filter_nil, app_nil_r.
    + simpl. rewrite IH. destruct (desired !! n) eqn:Hn; [|done].
      rewrite filter_cons. case_decide as Hname.
      * subst n. congruence.
      * by rewrite filter_nil, app_nil_r.
Qed.

(** Once on the prune list, always on the prune list. *)
Lemma classify_prune_app (listed more : list Session) :
  ∃ added, (classify' (listed ++ more)).1 = (classify' listed).1 ++ added.
Proof.
  induction more as [|s more IH] using rev_ind.
  - exists []. by rewrite !app_nil_r.
  - destruct IH as [added IH]. rewrite app_assoc, classify_snoc.
    unfold classifyStep.
    destruct (desired !! name s); [destruct (_ !! name s)|]; simpl; rewrite IH;
      first [ by exists added
            | exists (added ++ [identifier s]); by rewrite app_assoc ].
Qed.

(** Every listed session ends up either on the prune list or as the current
    session of its name. *)
Lemma classify_count (listed : list Session) :
  length (classify' listed).1 + size (classify' listed).2 = length listed.
Proof.
  induction listed as [|s listed IH] using rev_ind; [done|].
  rewrite classify_snoc, length_app. unfold classifyStep. simpl.
  destruct (desired !! name s); [destruct (_ !! name s) eqn:Hc|]; simpl.
  - rewrite length_app. simpl. lia.
  - rewrite map_size_insert_None by done. lia.
  - rewrite length_app. simpl. lia.
Qed.

Lemma classify_pruned_here (pre post : list Session) (s : Session) :
  identifier s ∈ (classifyStep name identifier desired (classify' pre) s).1 →
  identifier s ∈ (classify' (pre ++ s :: post)).1.
Proof.
  intros Hin. rewrite (cons_middle s pre post), app_assoc.
  destruct (classify_prune_app (pre ++ [s]) post) as [added ->].
  rewrite classify_snoc. set_solver.
Qed.

End Classification.

(** C1 (as amended): each listed session is either an orphan (its name has no
    desired specification), which goes on the prune list; or a duplicate (its
    name is desired and an earlier listed session carries it), which goes on
    the prune list while the earlier session stays current; or else it
    becomes the current session of its name.  The prune list and the current
    sessions together account for every listed session exactly once.  So of
    several listed sessions sharing a desired name the first one is current
    and every later one is pruned, and of several sharing a name that is not
    desired every one is pruned. *)
Theorem classify_listed {Session Specification : Type}
    (name identifier : Session → string) (desired : gmap string Specification)
    (listed pre post : list Session) (s : Session) :
  listed = pre ++ s :: post →
  let r := classify name identifier desired listed in
  (desired !! name s = None →
     identifier s ∈ r.1 ∧ r.2 !! name s = None)
  ∧ (is_Some (desired !! name s) →
     (∃ earlier, earlier ∈ pre ∧ name earlier = name s) →
     identifier s ∈ r.1
     ∧ ∃ first, r.2 !! name s = Some first
                ∧ head (filter (λ s', name s' = name s) pre) = Some first)
  ∧ (is_Some (desired !! name s) →
     (∀ earlier, earlier ∈ pre → name earlier ≠ name s) →
     r.2 !! name s = Some s)
  ∧ length r.1 + size r.2 = length listed.
Proof.
  intros -> r. subst r. split; [|split; [|split]].
  - intros Hd. split.
    + apply classify_pruned_here. unfold classifyStep. rewrite Hd. set_solver.
    + rewrite classify_current. by rewrite Hd.
  - intros [spec Hd] (earlier & Hin & Hname).
    destruct (head (filter (λ s', name s' = name s) pre)) as [first|] eqn:Hh.
    + split.
      * apply classify_pruned_here. unfold classifyStep.
        rewrite Hd, classify_current, Hd, Hh. set_solver.
      * exists first. split; [|done].
        by rewrite classify_current, Hd, filter_app, head_app, Hh.
    + apply head_None in Hh. exfalso.
      by eapply (filter_nil_not_elem_of (λ s', name s' = name s)).
  - intros [spec Hd] Hfresh.
    rewrite classify_current, Hd, filter_app, head_app.
    destruct (head (filter (λ s', name s' = name s) pre)) as [earlier|] eqn:Hh.
    + apply head_Some_elem_of, list_elem_of_filter in Hh as [Hname Hin].
      by destruct (Hfresh earlier Hin).
    + rewrite filter_cons. by case_decide.
  - apply classify_count.
Qed.

Lemma classify_listed_witness :
  let desired : gmap string forwardingsvc.CreationSpecification :=
    {["web" := forwardingsvc.mkSpec
                 (Sample.localURL url.Kind_Forwarding "tcp:localhost:8080")
                 (Sample.sidecarURL url.Kind_Forwarding "backend:tcp:web:80")
                 ∅ ∅ ∅ "web" ∅]} in
  let first := Sample.existing "id1" "web" "backend:tcp:web:80" in
  let second := Sample.existing "id2" "web" "backend:tcp:web:80" in
  let orphan := Sample.existing "id3" "gone" "backend:tcp:web:80" in
  let r := classify forwarding.Name forwarding.Identifier desired
             [first; second; orphan] in
  "id2" ∈ r.1 ∧ ∃ kept, r.2 !! "web" = Some kept ∧ Some first = Some kept.
Proof.
  intros desired first second orphan r.
  destruct (classify_listed forwarding.Name forwarding.Identifier desired
              [first; second; orphan] [first] [orphan] second eq_refl)
    as (_ & Hduplicate & _ & _).
  destruct Hduplicate as (Hin & kept & Hkept & Hfirst).
  - eexists. vm_compute. reflexivity.
  - exists first. split; [left | reflexivity].
  - split; [exact Hin|]. exists kept. split; [exact Hkept|]. exact Hfirst.
Defined.

(** C1 as the specification words it, where the first of several sessions of
    one name always survives, fails for a name that is not desired: both
    sessions named [web] are orphans and neither becomes current. *)
Lemma classify_first_need_not_survive :
  ¬ (∀ (desired : gmap string forwardingsvc.CreationSpecification)
       (first : forwarding.Session) (rest : list forwarding.Session),
       (∃ later, later ∈ rest ∧ forwarding.Name later = forwarding.Name first) →
       (classify forwarding.Name forwarding.Identifier desired (first :: rest)).2
         !! forwarding.Name first = Some first).
Proof.
  intros Hclaim.
  specialize (Hclaim ∅ (Sample.existing "id1" "web" "backend:tcp:web:80")
                [Sample.existing "id2" "web" "backend:tcp:web:80"]).
  assert (∃ later, later ∈ [Sample.existing "id2" "web" "backend:tcp:web:80"]
                   ∧ forwarding.Name later
                     = forwarding.Name (Sample.existing "id1" "web" "backend:tcp:web:80"))
    as Hlater by (eexists; split; [left | reflexivity]).
  specialize (Hclaim Hlater). vm_compute in Hclaim. discriminate.
Qed.

(** ** The calls of the apply phase *)

Lemma answers_length d trace specifications created :
  answers d trace specifications created → length created = length specifications.
Proof.
  revert trace created.
  induction specifications as [|spec specs IH]; intros trace [|s created]; simpl;
    try done.
  intros [_ H]. f_equal. eauto.
Qed.

Section ApplyPhase.
Context `{E : Env}.
Context (d : Daemon).

Lemma Run_bind_unfold {A B} (m : Run A) (f : A → Run B) (trace : list Call) :
  (m ≫= f) trace =
    match m trace with
    | (Ok a, trace') => f a trace'
    | (Err e, trace') => (Err e, trace')
    | (Panic msg, trace') => (Panic msg, trace')
    end.
Proof. reflexivity. Qed.

Lemma perform_run (c : Call) (wrap : string → string) (trace : list Call) :
  perform d c wrap trace = (ensure (response d trace c) wrap, trace ++ [c]).
Proof. reflexivity. Qed.

Lemma ensure_cases (err : option string) (wrap : string → string) :
  ensure err wrap = Ok tt ∨ ∃ e, ensure err wrap = Err e.
Proof. destruct err; simpl; eauto. Qed.

Lemma createForwarding_trace
    (specifications : list forwardingsvc.CreationSpecification) (trace : list Call) :
  ∃ reached,
    reached `prefix_of` specifications
    ∧ (createForwarding d specifications trace).2
      = trace ++ (ForwardCreateWithSpecification <$> reached)
    ∧ ((createForwarding d specifications trace).1 = Ok tt ∧ reached = specifications
       ∨ ∃ e, (createForwarding d specifications trace).1 = Err e).
Proof.
  revert trace. induction specifications as [|spec specs IH]; intros trace.
  - exists []. simpl. rewrite app_nil_r. auto.
  - simpl. rewrite Run_bind_unfold.
    destruct (forwardCreateResponse d trace spec) as [s|e]; simpl.
    + destruct (IH (trace ++ [ForwardCreateWithSpecification spec]))
        as (reached & Hpre & -> & Hres).
      exists (spec :: reached). split; [by apply prefix_cons|].
      split; [by rewrite <- app_assoc|].
      destruct Hres as [[-> ->]|[e ->]]; eauto.
    + exists [spec]. split; [apply prefix_cons, prefix_nil|]. eauto.
Qed.

Lemma createSynchronization_trace
    (specifications : list synchronizationsvc.CreationSpecification)
    (collected : list string) (trace : list Call) :
  ∃ reached,
    reached `prefix_of` specifications
    ∧ (createSynchronization d specifications collected trace).2
      = trace ++ (SyncCreateWithSpecification <$> reached)
    ∧ ((∃ created,
          (createSynchronization d specifications collected trace).1
            = Ok (collected ++ created)
          ∧ reached = specifications
          ∧ answers d trace specifications created)
       ∨ ∃ e, (createSynchronization d specifications collected trace).1 = Err e).
Proof.
  revert collected trace.
  induction specifications as [|spec specs IH]; intros collected trace.
  - exists []. simpl. rewrite app_nil_r. split; [done|]. split; [done|].
    left. exists []. by rewrite app_nil_r.
  - simpl. rewrite Run_bind_unfold.
    destruct (syncCreateResponse d trace spec) as [s|e] eqn:Hanswer; simpl.
    + destruct (IH (collected ++ [s]) (trace ++ [SyncCreateWithSpecification spec]))
        as (reached & Hpre & -> & Hres).
      exists (spec :: reached). split; [by apply prefix_cons|].
      split; [by rewrite <- app_assoc|].
      destruct Hres as [(created & -> & -> & Hanswers)|[e ->]]; [left|eauto].
      exists (s :: created). rewrite <- app_assoc. simpl. auto.
    + exists [spec]. split; [apply prefix_cons, prefix_nil|]. eauto.
Qed.

Lemma pruneForwarding_trace (forwardingPruneList : list string) (trace : list Call) :
  (pruneForwarding d forwardingPruneList trace).2
    = trace ++ pruneCalls forwardingPruneList []
  ∧ ((pruneForwarding d forwardingPruneList trace).1 = Ok tt
     ∨ ∃ e, (pruneForwarding d forwardingPruneList trace).1 = Err e).
Proof.
  unfold pruneForwarding, pruneCalls. simpl. case_bool_decide; simpl.
  - split; [done|]. apply ensure_cases.
  - rewrite app_nil_r. auto.
Qed.

Lemma pruneSynchronization_trace (synchronizationPruneList : list string)
    (trace : list Call) :
  (pruneSynchronization d synchronizationPruneList trace).2
    = trace ++ pruneCalls [] synchronizationPruneList
  ∧ ((pruneSynchronization d synchronizationPruneList trace).1 = Ok tt
     ∨ ∃ e, (pruneSynchronization d synchronizationPruneList trace).1 = Err e).
Proof.
  unfold pruneSynchronization, pruneCalls. simpl. case_bool_decide; simpl.
  - split; [done|]. apply ensure_cases.
  - rewrite app_nil_r. auto.
Qed.

Lemma flushNew_trace (created : list string) (trace : list Call) :
  (flushNew d created trace).2 = trace ++ flushCalls created
  ∧ ((flushNew d created trace).1 = Ok tt
     ∨ ∃ e, (flushNew d created trace).1 = Err e).
Proof.
  unfold flushNew, flushCalls. case_bool_decide; simpl.
  - split; [done|]. apply ensure_cases.
  - rewrite app_nil_r. auto.
Qed.

Lemma pruneCalls_split (forwardingPruneList synchronizationPruneList : list string) :
  pruneCalls forwardingPruneList synchronizationPruneList
  = pruneCalls forwardingPruneList [] ++ pruneCalls [] synchronizationPruneList.
Proof. unfold pruneCalls. simpl. by rewrite app_nil_r. Qed.

(** A run that stopped after [calls] stopped inside the script. *)
Ltac inside_script f s :=
  unfold applyCalls, resumeCalls, createCalls;
  rewrite (pruneCalls_split f s), ?fmap_app;
  eexists; rewrite <- ?app_assoc; simpl; rewrite <- ?app_assoc; reflexivity.

(** The trace of the apply phase: it follows the script [applyCalls] up to
    the first call that fails, and to its end when none does. *)
Lemma applyPlan_trace (projectSelection : selection.Selection)
    (forwardingPruneList : list string)
    (forwardingCreate : list forwardingsvc.CreationSpecification)
    (synchronizationPruneList : list string)
    (synchronizationCreate : list synchronizationsvc.CreationSpecification)
    (trace : list Call) :
  let run := applyPlan d projectSelection forwardingPruneList forwardingCreate
               synchronizationPruneList synchronizationCreate trace in
  let script := applyCalls projectSelection forwardingPruneList forwardingCreate
                  synchronizationPruneList synchronizationCreate in
  ∃ calls created,
    run.2 = trace ++ calls
    ∧ calls `prefix_of` script created
    ∧ (run.1 = Ok tt
       ∧ calls = script created
       ∧ answers d
           (trace ++ pruneCalls forwardingPruneList synchronizationPruneList
              ++ resumeCalls projectSelection
              ++ (ForwardCreateWithSpecification <$> forwardingCreate))
           synchronizationCreate created
       ∨ ∃ e, run.1 = Err e).
Proof.
  intros run script. subst run script. unfold applyPlan.
  rewrite Run_bind_unfold.
  destruct (pruneForwarding_trace forwardingPruneList trace) as [Ht1 Hr1].
  destruct (pruneForwarding d forwardingPruneList trace) as [r1 t1].
  simpl in Ht1, Hr1. subst t1.
  destruct Hr1 as [->|[e ->]]; cycle 1.
  { exists (pruneCalls forwardingPruneList []), [].
    split; [done|]. split; [inside_script forwardingPruneList synchronizationPruneList|eauto]. }
  rewrite Run_bind_unfold.
  destruct (pruneSynchronization_trace synchronizationPruneList
              (trace ++ pruneCalls forwardingPruneList [])) as [Ht2 Hr2].
  destruct (pruneSynchronization d synchronizationPruneList _) as [r2 t2].
  simpl in Ht2, Hr2. subst t2.
  destruct Hr2 as [->|[e ->]]; cycle 1.
  { exists (pruneCalls forwardingPruneList [] ++ pruneCalls [] synchronizationPruneList), [].
    split; [by rewrite app_assoc|]. split; [inside_script forwardingPruneList synchronizationPruneList|eauto]. }
  rewrite <- app_assoc, <- pruneCalls_split.
  set (pruned := pruneCalls forwardingPruneList synchronizationPruneList).
  rewrite Run_bind_unfold, perform_run.
  destruct (ensure_cases (response d (trace ++ pruned)
                            (ForwardResumeWithSelection projectSelection))
              (λ e, "forwarding resumption failed: " +:+ e)) as [->|[e ->]]; cycle 1.
  { exists (pruned ++ [ForwardResumeWithSelection projectSelection]), [].
    split; [by rewrite app_assoc|]. subst pruned. split; [inside_script forwardingPruneList synchronizationPruneList|eauto]. }
  rewrite Run_bind_unfold, perform_run.
  destruct (ensure_cases
              (response d ((trace ++ pruned)
                             ++ [ForwardResumeWithSelection projectSelection])
                 (SyncResumeWithSelection projectSelection))
              (λ e, "synchronization resumption failed: " +:+ e)) as [->|[e ->]]; cycle 1.
  { exists (pruned ++ resumeCalls projectSelection), [].
    split; [by rewrite <- !app_assoc|]. subst pruned. split; [inside_script forwardingPruneList synchronizationPruneList|eauto]. }
  rewrite Run_bind_unfold.
  replace (((trace ++ pruned) ++ [ForwardResumeWithSelection projectSelection])
             ++ [SyncResumeWithSelection projectSelection])
    with (trace ++ pruned ++ resumeCalls projectSelection)
    by (by rewrite <- !app_assoc).
  set (resumed := trace ++ pruned ++ resumeCalls projectSelection).
  destruct (createForwarding_trace forwardingCreate resumed)
    as (reachedF & [restF HpreF] & HtF & HrF).
  destruct (createForwarding d forwardingCreate resumed) as [rF tF].
  simpl in HtF, HrF. subst tF.
  destruct HrF as [[-> ->]|[e ->]]; cycle 1.
  { exists (pruned ++ resumeCalls projectSelection
              ++ (ForwardCreateWithSpecification <$> reachedF)), [].
    split; [subst resumed; by rewrite <- !app_assoc|].
    subst pruned forwardingCreate.
    split; [inside_script forwardingPruneList synchronizationPruneList|eauto]. }
  rewrite Run_bind_unfold.
  set (forwarded := resumed ++ (ForwardCreateWithSpecification <$> forwardingCreate)).
  destruct (createSynchronization_trace synchronizationCreate [] forwarded)
    as (reachedS & [restS HpreS] & HtS & HrS).
  destruct (createSynchronization d synchronizationCreate [] forwarded) as [rS tS].
  simpl in HtS, HrS. subst tS.
  destruct HrS as [(created & -> & -> & Hanswers)|[e ->]]; cycle 1.
  { exists (pruned ++ resumeCalls projectSelection
              ++ (ForwardCreateWithSpecification <$> forwardingCreate)
              ++ (SyncCreateWithSpecification <$> reachedS)), [].
    split; [subst forwarded resumed; by rewrite <- !app_assoc|].
    subst pruned synchronizationCreate.
    split; [inside_script forwardingPruneList synchronizationPruneList|eauto]. }
  simpl.
  destruct (flushNew_trace created
              (forwarded ++ (SyncCreateWithSpecification <$> synchronizationCreate)))
    as [HtN HrN].
  exists (applyCalls projectSelection forwardingPruneList forwardingCreate
            synchronizationPruneList synchronizationCreate created), created.
  split.
  { rewrite HtN. subst forwarded resumed pruned.
    unfold applyCalls, createCalls. by rewrite <- !app_assoc. }
  split; [done|].
  destruct HrN as [->|[e ->]]; [left|eauto].
  split; [done|]. split; [done|].
  subst forwarded resumed pruned. by rewrite <- !app_assoc in Hanswers.
Qed.

End ApplyPhase.

(** ** The apply phase, call by call *)

Section ApplyRun.
Context (d : Daemon).

Lemma carriedOut_app (trace first second : list Call) :
  carriedOut d trace (first ++ second)
  ↔ carriedOut d trace first ∧ carriedOut d (trace ++ first) second.
Proof.
  revert trace. induction first as [|c first IH]; intros trace; simpl.
  - rewrite app_nil_r. tauto.
  - rewrite IH, <- app_assoc. simpl. tauto.
Qed.

Lemma followed_ret {A} (a : A) (trace : list Call) :
  followed d trace [] (mret (M := Run) a trace).
Proof. left. split; [by exists a|]. split; [by rewrite app_nil_r|done]. Qed.

(** Two parts of a method, one after the other. *)
Lemma followed_bind {A B} (m : Run A) (f : A → Run B)
    (trace first second : list Call) :
  followed d trace first (m trace) →
  (∀ a, (m trace).1 = Ok a → followed d (trace ++ first) second (f a (trace ++ first))) →
  followed d trace (first ++ second) ((m ≫= f) trace).
Proof.
  intros Hfirst Hsecond. rewrite Run_bind_unfold.
  destruct (m trace) as [r trace'].
  destruct Hfirst
    as [([a Ha] & Htrace & Hdone)
       |(pre & c & post & e & Hscript & Htrace & Hdone & Hrefused & Hr)];
    simpl in *; subst.
  - destruct (Hsecond a eq_refl)
      as [(Hok & Htrace & Hdone')
         |(pre & c & post & e & -> & Htrace & Hdone' & Hrefused & Hr)].
    + left. split; [done|]. split; [by rewrite Htrace, app_assoc|].
      by apply carriedOut_app.
    + right. exists (first ++ pre), c, post, e.
      split; [by rewrite <- app_assoc|].
      split; [by rewrite Htrace, <- !app_assoc|].
      split; [by apply carriedOut_app|].
      split; [by rewrite app_assoc|done].
  - right. exists pre, c, (post ++ second), e.
    split; [by rewrite <- app_assoc|]. done.
Qed.

Lemma followed_perform (c : Call) (trace : list Call) :
  refusal d trace c = response d trace c →
  followed d trace [c] (perform d c (applyFailure c) trace).
Proof.
  intros Hrefusal. rewrite perform_run.
  destruct (response d trace c) as [e|] eqn:Hresponse; simpl.
  - right. exists [], c, [], e. simpl. by rewrite app_nil_r.
  - left. split; [by exists tt|]. done.
Qed.

Lemma followed_pruneForwarding (forwardingPruneList : list string) (trace : list Call) :
  followed d trace (pruneCalls forwardingPruneList [])
    (pruneForwarding d forwardingPruneList trace).
Proof.
  unfold pruneForwarding, pruneCalls. simpl. rewrite app_nil_r. case_bool_decide.
  - by apply (followed_perform (ForwardTerminateWithSelection _)).
  - apply followed_ret.
Qed.

Lemma followed_pruneSynchronization (synchronizationPruneList : list string)
    (trace : list Call) :
  followed d trace (pruneCalls [] synchronizationPruneList)
    (pruneSynchronization d synchronizationPruneList trace).
Proof.
  unfold pruneSynchronization, pruneCalls. simpl. case_bool_decide.
  - by apply (followed_perform (SyncTerminateWithSelection _)).
  - apply followed_ret.
Qed.

Lemma followed_flushNew (created : list string) (trace : list Call) :
  followed d trace (flushCalls created) (flushNew d created trace).
Proof.
  unfold flushNew, flushCalls. case_bool_decide.
  - by apply (followed_perform (SyncFlushWithSelection _ _)).
  - apply followed_ret.
Qed.

Lemma followed_createForwarding
    (specifications : list forwardingsvc.CreationSpecification) (trace : list Call) :
  followed d trace (ForwardCreateWithSpecification <$> specifications)
    (createForwarding d specifications trace).
Proof.
  revert trace. induction specifications as [|specification rest IH]; intros trace.
  - apply followed_ret.
  - cbn [createForwarding fmap list_fmap].
    apply (followed_bind _ _ trace [ForwardCreateWithSpecification specification]).
    + destruct (forwardCreateResponse d trace specification) as [s|e] eqn:Hanswer.
      * left. simpl. rewrite ?Hanswer. simpl. split; [by exists tt|].
        split; [done|]. by rewrite ?Hanswer.
      * right. exists [], (ForwardCreateWithSpecification specification), [], e.
        simpl. rewrite app_nil_r, ?Hanswer. done.
    + intros _ _. apply IH.
Qed.

Lemma followed_createSynchronization
    (specifications : list synchronizationsvc.CreationSpecification)
    (collected : list string) (trace : list Call) :
  followed d trace (SyncCreateWithSpecification <$> specifications)
    (createSynchronization d specifications collected trace).
Proof.
  revert collected trace.
  induction specifications as [|specification rest IH]; intros collected trace.
  - apply followed_ret.
  - cbn [createSynchronization fmap list_fmap].
    apply (followed_bind _ _ trace [SyncCreateWithSpecification specification]).
    + destruct (syncCreateResponse d trace specification) as [s|e] eqn:Hanswer.
      * left. simpl. rewrite ?Hanswer. simpl. split; [by exists s|].
        split; [done|]. by rewrite ?Hanswer.
      * right. exists [], (SyncCreateWithSpecification specification), [], e.
        simpl. rewrite app_nil_r, ?Hanswer. done.
    + intros s _. apply IH.
Qed.

(** The identifiers that the daemon answers are the ones collected. *)
Lemma answers_created
    (specifications : list synchronizationsvc.CreationSpecification)
    (collected created : list string) (trace : list Call) :
  answers d trace specifications created →
  (createSynchronization d specifications collected trace).1 = Ok (collected ++ created).
Proof.
  revert collected created trace.
  induction specifications as [|specification rest IH];
    intros collected [|s created] trace; simpl; try done.
  - intros _. by rewrite app_nil_r.
  - intros [Hanswer Hanswers]. rewrite Run_bind_unfold, Hanswer. simpl.
    rewrite (IH _ created) by done. by rewrite <- app_assoc.
Qed.

(** The whole apply phase follows its script, which ends with the flush of
    the identifiers that the synchronization creations return. *)
Lemma applyPlan_followed (projectSelection : selection.Selection)
    (forwardingPruneList : list string)
    (forwardingCreate : list forwardingsvc.CreationSpecification)
    (synchronizationPruneList : list string)
    (synchronizationCreate : list synchronizationsvc.CreationSpecification)
    (trace : list Call) (created : list string) :
  (∀ ids,
     (createSynchronization d synchronizationCreate []
        (trace ++ pruneCalls forwardingPruneList synchronizationPruneList
           ++ resumeCalls projectSelection
           ++ (ForwardCreateWithSpecification <$> forwardingCreate))).1 = Ok ids →
     ids = created) →
  followed d trace
    (applyCalls projectSelection forwardingPruneList forwardingCreate
       synchronizationPruneList synchronizationCreate created)
    (applyPlan d projectSelection forwardingPruneList forwardingCreate
       synchronizationPruneList synchronizationCreate trace).
Proof.
  intros Hcreated. unfold applyPlan, applyCalls, resumeCalls, createCalls.
  rewrite (pruneCalls_split forwardingPruneList synchronizationPruneList) in *.
  rewrite <- !app_assoc.
  apply followed_bind; [apply followed_pruneForwarding|]. intros _ _.
  apply followed_bind; [apply followed_pruneSynchronization|]. intros _ _.
  apply (followed_bind _ _ _ [ForwardResumeWithSelection projectSelection]);
    [by apply (followed_perform (ForwardResumeWithSelection _))|]. intros _ _.
  apply (followed_bind _ _ _ [SyncResumeWithSelection projectSelection]);
    [by apply (followed_perform (SyncResumeWithSelection _))|]. intros _ _.
  apply followed_bind; [apply followed_createForwarding|]. intros _ _.
  apply followed_bind; [apply followed_createSynchronization|]. intros ids Hids.
  rewrite <- !app_assoc in Hids. simpl in Hids. rewrite <- !app_assoc in Hcreated.
  rewrite (Hcreated ids Hids). apply followed_flushNew.
Qed.

End ApplyRun.

(** ** The trace of a reconciliation pass *)

Section ReconcileTrace.
Context `{E : Env}.
Context (d : Daemon) (l : Liaison) (sidecarID : string).

Local Abbreviation projectSelection :=
  (selection.mkSelection []
     (sessionSidecarLabelKey +:+ " == " +:+ chopSidecarIdentifier sidecarID)).

Local Abbreviation stamped :=
  (mkLiaison (dockerCLI l)
     (stampForwarding (DaemonHost (dockerCLI l)) sidecarID <$> forwarding l)
     (stampSynchronization (DaemonHost (dockerCLI l)) sidecarID <$> synchronization l)).

Lemma reconcileSessions_liaison : liaison_ (reconcileSessions d l sidecarID) = stamped.
Proof. unfold reconcileSessions. by destruct (withConnection _ _ _). Qed.

(** A pass whose connection and listings succeed: the listings are followed
    by the apply phase for the plans computed from them, and the connection
    is closed last. *)
Lemma reconcileSessions_listed
    (fs : list forwarding.Session) (ss : list synchronization.Session) :
  let listing := [ClientDaemonHost; DaemonConnect;
                  ForwardingList projectSelection;
                  SynchronizationList projectSelection] in
  let fplan := forwardingPlan (forwarding stamped) fs in
  let splan := synchronizationPlan (synchronization stamped) ss in
  let run := applyPlan d projectSelection fplan.1 fplan.2 splan.1 splan.2 listing in
  Connect d = None →
  forwardingListResponse d [ClientDaemonHost; DaemonConnect] projectSelection
    = Success fs →
  forwardingListResponseValid fs = None →
  synchronizationListResponse d
    [ClientDaemonHost; DaemonConnect; ForwardingList projectSelection]
    projectSelection = Success ss →
  synchronizationListResponseValid ss = None →
  reconcileSessions d l sidecarID
  = mkReconciled run.1 stamped (run.2 ++ [ConnectionClose]).
Proof.
  intros listing fplan splan run Hconnect Hfs Hfvalid Hss Hsvalid.
  subst run. unfold reconcileSessions, withConnection. rewrite Hconnect.
  rewrite Run_bind_unfold. unfold queryForwarding. simpl.
  rewrite Hfs. simpl. rewrite Hfvalid. simpl.
  rewrite Run_bind_unfold. unfold querySynchronization. simpl.
  rewrite Hss. simpl. rewrite Hsvalid. simpl.
  subst fplan splan listing.
  destruct (forwardingPlan _ fs) as [fP fC].
  destruct (synchronizationPlan _ ss) as [sP sC]. simpl.
  by destruct (applyPlan _ _ _ _ _ _ _).
Qed.

(** Any pass at all: its trace stays inside the script, the connection is
    closed last if it was opened, and the pass returns or fails with an
    error. *)
Lemma reconcileSessions_trace :
  let run := reconcileSessions d l sidecarID in
  (∃ calls fP fC sP sC created,
     trace_ run = [ClientDaemonHost; DaemonConnect] ++ calls
                  ++ (if Connect d is Some _ then [] else [ConnectionClose])
     ∧ calls `prefix_of`
         [ForwardingList projectSelection; SynchronizationList projectSelection]
         ++ applyCalls projectSelection fP fC sP sC created
     ∧ (Connect d = None → ForwardingList projectSelection ∈ calls))
  ∧ (result_ run = Ok tt ∨ ∃ e, result_ run = Err e).
Proof.
  intros run. subst run.
  destruct (Connect d) as [e|] eqn:Hconnect.
  { unfold reconcileSessions, withConnection. rewrite Hconnect. simpl.
    split; [|eauto]. exists [], [], [], [], [], [].
    split; [done|]. split; [apply prefix_nil|done]. }
  destruct (forwardingListResponse d [ClientDaemonHost; DaemonConnect] projectSelection)
    as [fs|e] eqn:Hfs; cycle 1.
  { unfold reconcileSessions, withConnection. rewrite Hconnect.
    rewrite Run_bind_unfold. unfold queryForwarding. simpl. rewrite Hfs. simpl.
    split; [|eauto]. exists [ForwardingList projectSelection], [], [], [], [], [].
    split; [done|]. split; [apply prefix_cons, prefix_nil|intros _; left]. }
  destruct (forwardingListResponseValid fs) as [e|] eqn:Hfvalid.
  { unfold reconcileSessions, withConnection. rewrite Hconnect.
    rewrite Run_bind_unfold. unfold queryForwarding. simpl. rewrite Hfs. simpl.
    rewrite Hfvalid. simpl.
    split; [|eauto]. exists [ForwardingList projectSelection], [], [], [], [], [].
    split; [done|]. split; [apply prefix_cons, prefix_nil|intros _; left]. }
  destruct (synchronizationListResponse d
              [ClientDaemonHost; DaemonConnect; ForwardingList projectSelection]
              projectSelection) as [ss|e] eqn:Hss; cycle 1.
  { unfold reconcileSessions, withConnection. rewrite Hconnect.
    rewrite Run_bind_unfold. unfold queryForwarding. simpl. rewrite Hfs. simpl.
    rewrite Hfvalid. simpl.
    rewrite Run_bind_unfold. unfold querySynchronization. simpl. rewrite Hss. simpl.
    split; [|eauto].
    exists [ForwardingList projectSelection; SynchronizationList projectSelection],
      [], [], [], [], [].
    split; [done|]. split; [apply prefix_cons, prefix_cons, prefix_nil|intros _; left]. }
  destruct (synchronizationListResponseValid ss) as [e|] eqn:Hsvalid.
  { unfold reconcileSessions, withConnection. rewrite Hconnect.
    rewrite Run_bind_unfold. unfold queryForwarding. simpl. rewrite Hfs. simpl.
    rewrite Hfvalid. simpl.
    rewrite Run_bind_unfold. unfold querySynchronization. simpl. rewrite Hss. simpl.
    rewrite Hsvalid. simpl.
    split; [|eauto].
    exists [ForwardingList projectSelection; SynchronizationList projectSelection],
      [], [], [], [], [].
    split; [done|]. split; [apply prefix_cons, prefix_cons, prefix_nil|intros _; left]. }
  rewrite (reconcileSessions_listed fs ss) by done. simpl.
  set (fplan := forwardingPlan _ fs). set (splan := synchronizationPlan _ ss).
  destruct (applyPlan_trace d projectSelection fplan.1 fplan.2 splan.1 splan.2
              [ClientDaemonHost; DaemonConnect; ForwardingList projectSelection;
               SynchronizationList projectSelection])
    as (calls & created & Htrace & Hprefix & Hresult).
  split.
  - exists ([ForwardingList projectSelection; SynchronizationList projectSelection]
              ++ calls), fplan.1, fplan.2, splan.1, splan.2, created.
    rewrite Htrace. split; [done|].
    split; [by apply (prefix_app [ForwardingList _; SynchronizationList _])|].
    intros _. left.
  - destruct Hresult as [(-> & _)|[e ->]]; eauto.
Qed.

End ReconcileTrace.

(** C2: in a reconciliation pass whose connection and listings succeed, the
    calls that follow the listings are, in this order: the termination of the
    forwarding prune list and of the synchronization prune list (one batched
    call per kind, made when the list is not empty), the resumption of all
    forwarding and all synchronization sessions under the ownership label,
    one creation call per specification of the forwarding and of the
    synchronization create list, and a flush with [skipWait = false] of
    exactly the identifiers the daemon answered to the synchronization
    creations, made when there is at least one.  The pass makes these calls
    one after the other for as long as the daemon refuses none: a pass that
    returns nil made all of them and none was refused; a pass that fails made
    them up to the first call that the daemon refused, that call included and
    none after it, and returns the error of that refusal under the message
    of the call.  Either way the connection is closed last. *)
Theorem reconcileSessions_apply_order `{E : Env} (d : Daemon) (l : Liaison)
    (sidecarID : string)
    (fs : list forwarding.Session) (ss : list synchronization.Session) :
  let projectSelection :=
    selection.mkSelection []
      (sessionSidecarLabelKey +:+ " == " +:+ chopSidecarIdentifier sidecarID) in
  let listing := [ClientDaemonHost; DaemonConnect;
                  ForwardingList projectSelection;
                  SynchronizationList projectSelection] in
  let run := reconcileSessions d l sidecarID in
  let fplan := forwardingPlan (forwarding (liaison_ run)) fs in
  let splan := synchronizationPlan (synchronization (liaison_ run)) ss in
  Connect d = None →
  forwardingListResponse d [ClientDaemonHost; DaemonConnect] projectSelection
    = Success fs →
  forwardingListResponseValid fs = None →
  synchronizationListResponse d
    [ClientDaemonHost; DaemonConnect; ForwardingList projectSelection]
    projectSelection = Success ss →
  synchronizationListResponseValid ss = None →
  ∃ calls created,
    trace_ run = listing ++ calls ++ [ConnectionClose]
    ∧ calls `prefix_of`
        pruneCalls fplan.1 splan.1 ++ resumeCalls projectSelection
        ++ createCalls fplan.2 splan.2 ++ flushCalls created
    ∧ (result_ run = Ok tt
       ∧ calls = pruneCalls fplan.1 splan.1 ++ resumeCalls projectSelection
                 ++ createCalls fplan.2 splan.2 ++ flushCalls created
       ∧ carriedOut d listing calls
       ∧ answers d
           (listing ++ pruneCalls fplan.1 splan.1 ++ resumeCalls projectSelection
              ++ (ForwardCreateWithSpecification <$> fplan.2))
           splan.2 created
       ∨ ∃ made refused e,
           calls = made ++ [refused]
           ∧ carriedOut d listing made
           ∧ refusal d (listing ++ made) refused = Some e
           ∧ result_ run = Err (applyFailure refused e)).
Proof.
  intros projectSelection listing run fplan splan Hconnect Hfs Hfvalid Hss Hsvalid.
  subst fplan splan run. rewrite reconcileSessions_liaison.
  rewrite (reconcileSessions_listed d l sidecarID fs ss) by done.
  cbn [trace_ result_].
  set (fplan := forwardingPlan _ fs). set (splan := synchronizationPlan _ ss).
  fold projectSelection listing.
  set (creation :=
         createSynchronization d splan.2 []
           (listing ++ pruneCalls fplan.1 splan.1 ++ resumeCalls projectSelection
              ++ (ForwardCreateWithSpecification <$> fplan.2))).
  set (created := match creation.1 with Ok ids => ids | _ => [] end).
  assert (∀ ids, creation.1 = Ok ids → ids = created) as Hcreated
    by (intros ids Hids; subst created; by rewrite Hids).
  pose proof (applyPlan_followed d projectSelection fplan.1 fplan.2 splan.1 splan.2
                listing created Hcreated) as Hfollowed.
  destruct (applyPlan_trace d projectSelection fplan.1 fplan.2 splan.1 splan.2 listing)
    as (calls' & created' & _ & _ & Hanswered).
  destruct (applyPlan d projectSelection fplan.1 fplan.2 splan.1 splan.2 listing)
    as [r trace].
  cbn [fst snd] in Hanswered. unfold applyCalls in Hfollowed.
  destruct Hfollowed
    as [([[] Hr] & Htrace & Hdone)
       |(made & refused & post & e & Hscript & Htrace & Hdone & Hrefused & Hr)];
    cbn [fst snd] in Hr, Htrace; subst r trace; cbn [fst snd].
  - exists (pruneCalls fplan.1 splan.1 ++ resumeCalls projectSelection
              ++ createCalls fplan.2 splan.2 ++ flushCalls created), created.
    split; [by rewrite <- !app_assoc|]. split; [done|]. left.
    split; [done|]. split; [done|]. split; [done|].
    destruct Hanswered as [(_ & _ & Hanswers)|[e He]]; [|done].
    pose proof (answers_created d _ [] _ _ Hanswers) as Hids.
    by rewrite <- (Hcreated _ Hids).
  - exists (made ++ [refused]), created.
    split; [by rewrite <- !app_assoc|].
    split; [rewrite Hscript; exists post; by rewrite <- app_assoc|].
    right. by exists made, refused, e.
Qed.

Lemma reconcileSessions_apply_order_witness :
  let l := liaisonAfter (processProject (E := Sample.env) Sample.empty
                           (Some Sample.project)) in
  let d := Sample.daemon [Sample.existing "id1" "web" "backend:tcp:old:80";
                          Sample.existing "id2" "gone" "backend:tcp:web:80"] [] in
  let run := reconcileSessions (E := Sample.env) d l "0123456789abcdef" in
  ∃ (calls : list Call) (created : list string),
    trace_ run
    = [ClientDaemonHost; DaemonConnect;
       ForwardingList (selection.mkSelection [] "io.mutagen.compose.sidecar == 0123");
       SynchronizationList (selection.mkSelection [] "io.mutagen.compose.sidecar == 0123")]
      ++ calls ++ [ConnectionClose]
    ∧ length calls = 6 ∧ created = ["sync_data"].
Proof.
  intros l d run.
  destruct (reconcileSessions_apply_order (E := Sample.env) d l "0123456789abcdef"
              [Sample.existing "id1" "web" "backend:tcp:old:80";
               Sample.existing "id2" "gone" "backend:tcp:web:80"] []
              eq_refl eq_refl eq_refl eq_refl eq_refl)
    as (calls & created & Htrace & _ & Hresult).
  exists calls, created. split; [exact Htrace|].
  destruct Hresult
    as [(_ & Hcalls & _ & Hanswers)|(made & refused & e & _ & _ & _ & He)].
  - vm_compute in Hanswers.
    destruct created as [|s [|s' created]];
      [destruct Hanswers| |destruct Hanswers as [_ []]].
    destruct Hanswers as [Hs _]. injection Hs as <-. subst calls.
    split; [vm_compute; reflexivity|reflexivity].
  - vm_compute in He. discriminate He.
Defined.

(** ** Nothing desired *)

Lemma classify_nothing_desired {Session Specification : Type}
    (name identifier : Session → string) (listed : list Session) :
  classify name identifier (∅ : gmap string Specification) listed
  = (identifier <$> listed, ∅).
Proof.
  induction listed as [|s listed IH] using rev_ind; [done|].
  rewrite classify_snoc, IH. unfold classifyStep. rewrite lookup_empty. simpl.
  by rewrite fmap_app.
Qed.

Lemma plan_nothing_desired {Session Specification : Type}
    (name identifier : Session → string) (current : Session → Specification → bool)
    (seed : list nat) (listed : list Session) :
  plan name identifier current seed ∅ listed = (identifier <$> listed, []).
Proof.
  unfold plan. rewrite classify_nothing_desired. by rewrite rangeOrder_empty.
Qed.

(** C3: when the liaison holds no forwarding and no synchronization
    specification and the daemon lists the sessions [fs] and [ss] under the
    ownership label, the prune lists are the identifiers of all listed
    sessions and the create lists are empty; with a daemon that carries out
    what it is asked, the pass returns nil after terminating exactly the
    listed sessions (per kind, when there are any) and resuming, without any
    creation or flush call. *)
Theorem reconcileSessions_nothing_desired `{E : Env} (d : Daemon) (c : Client)
    (sidecarID : string)
    (fs : list forwarding.Session) (ss : list synchronization.Session) :
  let l := mkLiaison c ∅ ∅ in
  let projectSelection :=
    selection.mkSelection []
      (sessionSidecarLabelKey +:+ " == " +:+ chopSidecarIdentifier sidecarID) in
  let listing := [ClientDaemonHost; DaemonConnect;
                  ForwardingList projectSelection;
                  SynchronizationList projectSelection] in
  Connect d = None →
  forwardingListResponse d [ClientDaemonHost; DaemonConnect] projectSelection
    = Success fs →
  forwardingListResponseValid fs = None →
  synchronizationListResponse d
    [ClientDaemonHost; DaemonConnect; ForwardingList projectSelection]
    projectSelection = Success ss →
  synchronizationListResponseValid ss = None →
  (∀ trace call, response d trace call = None) →
  forwardingPlan (forwarding l) fs = (forwarding.Identifier <$> fs, [])
  ∧ synchronizationPlan (synchronization l) ss = (synchronization.Identifier <$> ss, [])
  ∧ length (forwarding.Identifier <$> fs) + length (synchronization.Identifier <$> ss)
    = length fs + length ss
  ∧ reconcileSessions d l sidecarID
    = mkReconciled (Ok tt) l
        (listing
           ++ pruneCalls (forwarding.Identifier <$> fs) (synchronization.Identifier <$> ss)
           ++ resumeCalls projectSelection
           ++ [ConnectionClose]).
Proof.
  intros l projectSelection listing Hconnect Hfs Hfvalid Hss Hsvalid Hobeys.
  split; [apply plan_nothing_desired|]. split; [apply plan_nothing_desired|].
  split; [by rewrite !length_fmap|].
  rewrite (reconcileSessions_listed d l sidecarID fs ss) by done.
  subst l. simpl. rewrite !fmap_empty.
  unfold forwardingPlan, synchronizationPlan. rewrite !plan_nothing_desired. simpl.
  unfold applyPlan, pruneForwarding, pruneSynchronization, pruneCalls.
  do 2 case_bool_decide;
    repeat first [ rewrite Run_bind_unfold | rewrite perform_run
                 | rewrite Hobeys | progress simpl | progress unfold flushNew
                 | rewrite (bool_decide_eq_false_2 (0 < 0)) by lia ];
    by rewrite <- ?app_assoc.
Qed.

Lemma reconcileSessions_nothing_desired_witness :
  reconcileSessions (E := Sample.env)
    (Sample.daemon [Sample.existing "id1" "web" "backend:tcp:web:80";
                    Sample.existing "id2" "web" "backend:tcp:web:80"] [])
    Sample.empty "0123456789abcdef"
  = mkReconciled (Ok tt) Sample.empty
      [ClientDaemonHost; DaemonConnect;
       ForwardingList (selection.mkSelection [] "io.mutagen.compose.sidecar == 0123");
       SynchronizationList (selection.mkSelection [] "io.mutagen.compose.sidecar == 0123");
       ForwardTerminateWithSelection (selection.mkSelection ["id1"; "id2"] EmptyString);
       ForwardResumeWithSelection
         (selection.mkSelection [] "io.mutagen.compose.sidecar == 0123");
       SyncResumeWithSelection
         (selection.mkSelection [] "io.mutagen.compose.sidecar == 0123");
       ConnectionClose].
Proof.
  exact (proj2 (proj2 (proj2
           (reconcileSessions_nothing_desired (E := Sample.env)
              (Sample.daemon [Sample.existing "id1" "web" "backend:tcp:web:80";
                              Sample.existing "id2" "web" "backend:tcp:web:80"] [])
              Sample.client "0123456789abcdef"
              [Sample.existing "id1" "web" "backend:tcp:web:80";
               Sample.existing "id2" "web" "backend:tcp:web:80"] []
              eq_refl eq_refl eq_refl eq_refl eq_refl (λ _ _, eq_refl))))).
Defined.

(** ** The ownership label *)

(** A call found in an explicit list of calls carries the selection written
    there, if it carries one. *)
Ltac listed_call Hin Hs :=
  repeat (apply elem_of_cons in Hin as [->|Hin]);
  [..|by apply elem_of_nil in Hin]; simpl in Hs;
  first [ discriminate Hs | by injection Hs as <- ].

Section OwnershipLabel.
Context `{E : Env}.
Context (d : Daemon) (l : Liaison) (sidecarID : string).

Local Abbreviation projectSelection :=
  (selection.mkSelection []
     (sessionSidecarLabelKey +:+ " == " +:+ chopSidecarIdentifier sidecarID)).

Lemma applyCalls_selections fP fC sP sC created call s :
  call ∈ applyCalls projectSelection fP fC sP sC created →
  callSelection call = Some s → projectOrExplicit sidecarID s.
Proof.
  unfold applyCalls, pruneCalls, resumeCalls, createCalls, flushCalls.
  rewrite !elem_of_app. intros Hin Hs.
  destruct Hin as [[Hin|Hin]|[Hin|[[Hin|Hin]|Hin]]].
  - case_bool_decide; [|by apply elem_of_nil in Hin].
    apply list_elem_of_singleton in Hin as ->. injection Hs as <-.
    right. split; [done|]. simpl. by destruct fP; [simpl in *; lia|].
  - case_bool_decide; [|by apply elem_of_nil in Hin].
    apply list_elem_of_singleton in Hin as ->. injection Hs as <-.
    right. split; [done|]. simpl. by destruct sP; [simpl in *; lia|].
  - left. unfold resumeCalls in Hin. listed_call Hin Hs.
  - apply list_elem_of_fmap in Hin as (spec & -> & _). done.
  - apply list_elem_of_fmap in Hin as (spec & -> & _). done.
  - case_bool_decide; [|by apply elem_of_nil in Hin].
    apply list_elem_of_singleton in Hin as ->. injection Hs as <-.
    right. split; [done|]. simpl. by destruct created; [simpl in *; lia|].
Qed.

Lemma reconcileSessions_selections call s :
  call ∈ trace_ (reconcileSessions d l sidecarID) →
  callSelection call = Some s → projectOrExplicit sidecarID s.
Proof.
  destruct (reconcileSessions_trace d l sidecarID)
    as [(calls & fP & fC & sP & sC & created & -> & [rest Hscript] & _) _].
  rewrite !elem_of_app. intros [Hin|[Hin|Hin]] Hs.
  - listed_call Hin Hs.
  - assert (call ∈ [ForwardingList projectSelection;
                    SynchronizationList projectSelection]
                   ++ applyCalls projectSelection fP fC sP sC created) as Hin'
      by (rewrite Hscript; apply elem_of_app; by left).
    apply elem_of_app in Hin' as [Hin'|Hin'].
    + left. listed_call Hin' Hs.
    + by eapply applyCalls_selections.
  - destruct (Connect d); listed_call Hin Hs.
Qed.

Ltac label_only :=
  unfold labelOnly, withConnection; destruct (Connect d); simpl; eauto;
  rewrite Run_bind_unfold, perform_run;
  match goal with
  | |- context [ensure ?err ?wrap] => destruct (ensure_cases err wrap) as [->|[? ->]]
  end; simpl; auto.

Lemma listSessions_calls :
  labelOnly d l sidecarID listSessions (λ s, ForwardListWithSelection s false)
            (λ s, SyncListWithSelection s false).
Proof. unfold listSessions. label_only. Qed.

Lemma pauseSessions_calls :
  labelOnly d l sidecarID pauseSessions ForwardPauseWithSelection SyncPauseWithSelection.
Proof. unfold pauseSessions. label_only. Qed.

Lemma resumeSessions_calls :
  labelOnly d l sidecarID resumeSessions ForwardResumeWithSelection SyncResumeWithSelection.
Proof. unfold resumeSessions. label_only. Qed.

Lemma terminateSessions_calls :
  labelOnly d l sidecarID terminateSessions
    ForwardTerminateWithSelection SyncTerminateWithSelection.
Proof. unfold terminateSessions. label_only. Qed.

End OwnershipLabel.

(** C10: for a sidecar identifier, the label that [reconcileSessions] puts on
    every forwarding and every synchronization specification is the pair of
    [sessionSidecarLabelKey] and the chopped identifier, and the label
    selector of [reconcileSessions], [listSessions], [pauseSessions],
    [resumeSessions] and [terminateSessions] is the equality of that key with
    that same value: every selection any of the five passes to the daemon is
    this project selection, unless it is an explicit list of identifiers (a
    prune or flush list), and each of them passes it once connected.  A
    session carrying the label is therefore selected by all five. *)
Theorem ownership_label_is_the_selector `{E : Env} (d : Daemon) (l : Liaison)
    (sidecarID : string) :
  let value := chopSidecarIdentifier sidecarID in
  let projectSelection :=
    selection.mkSelection [] (sessionSidecarLabelKey +:+ " == " +:+ value) in
  let labels : gmap string string := {[sessionSidecarLabelKey := value]} in
  (∀ name specification,
     forwarding (liaison_ (reconcileSessions d l sidecarID)) !! name
       = Some specification →
     forwardingsvc.Labels specification = labels)
  ∧ (∀ name specification,
       synchronization (liaison_ (reconcileSessions d l sidecarID)) !! name
         = Some specification →
       synchronizationsvc.Labels specification = labels)
  ∧ (∀ method,
       method ∈ [reconcileSessions; listSessions; pauseSessions;
                 resumeSessions; terminateSessions] →
       (∀ call s,
          call ∈ trace_ (method d l sidecarID) →
          callSelection call = Some s →
          s = projectSelection
          ∨ (selection.LabelSelector s = EmptyString
             ∧ selection.Specifications s ≠ []))
       ∧ (Connect d = None →
          ∃ call, call ∈ trace_ (method d l sidecarID)
                  ∧ callSelection call = Some projectSelection))
  ∧ labelSelectorSelects (selection.LabelSelector projectSelection) labels.
Proof.
  intros value projectSelection labels. split; [|split; [|split]].
  - intros name specification. rewrite reconcileSessions_liaison. simpl.
    rewrite lookup_fmap. destruct (forwarding l !! name); [|done].
    by intros [= <-].
  - intros name specification. rewrite reconcileSessions_liaison. simpl.
    rewrite lookup_fmap. destruct (synchronization l !! name); [|done].
    by intros [= <-].
  - intros method Hmethod.
    repeat (apply elem_of_cons in Hmethod as [->|Hmethod]);
      [| | | | |by apply elem_of_nil in Hmethod].
    + split; [apply reconcileSessions_selections|].
      intros Hconnect.
      destruct (reconcileSessions_trace d l sidecarID)
        as [(calls & fP & fC & sP & sC & created & -> & _ & Hfirst) _].
      exists (ForwardingList projectSelection). split; [|done].
      rewrite !elem_of_app. right. left. by apply Hfirst.
    + destruct (listSessions_calls d l sidecarID) as [[Hfailed H]|[H|H]]; rewrite H;
        (split; [intros call s Hin Hs|intros Hconnect]).
      all: try (left; listed_call Hin Hs).
      all: try (eexists; split; [apply elem_of_cons; right; left|done]).
      rewrite Hconnect in Hfailed. by destruct Hfailed.
    + destruct (pauseSessions_calls d l sidecarID) as [[Hfailed H]|[H|H]]; rewrite H;
        (split; [intros call s Hin Hs|intros Hconnect]).
      all: try (left; listed_call Hin Hs).
      all: try (eexists; split; [apply elem_of_cons; right; left|done]).
      rewrite Hconnect in Hfailed. by destruct Hfailed.
    + destruct (resumeSessions_calls d l sidecarID) as [[Hfailed H]|[H|H]]; rewrite H;
        (split; [intros call s Hin Hs|intros Hconnect]).
      all: try (left; listed_call Hin Hs).
      all: try (eexists; split; [apply elem_of_cons; right; left|done]).
      rewrite Hconnect in Hfailed. by destruct Hfailed.
    + destruct (terminateSessions_calls d l sidecarID) as [[Hfailed H]|[H|H]]; rewrite H;
        (split; [intros call s Hin Hs|intros Hconnect]).
      all: try (left; listed_call Hin Hs).
      all: try (eexists; split; [apply elem_of_cons; right; left|done]).
      rewrite Hconnect in Hfailed. by destruct Hfailed.
  - exists sessionSidecarLabelKey, value. split; [done|].
    subst labels. apply lookup_singleton_eq.
Qed.

(** ** Errors, not panics *)


Lemma returns_ensure (err : option string) (wrap : string → string) :
  isPanic (ensure err wrap) = false.
Proof. by destruct err. Qed.

Lemma returns_failIf (cond : bool) (msg : string) : isPanic (failIf cond msg) = false.
Proof. by destruct cond. Qed.

Lemma returns_try {A} (r : result A) (wrap : string → string) :
  isPanic (try r wrap) = false.
Proof. by destruct r. Qed.

Lemma try_Ok {A} (r : result A) (wrap : string → string) (a : A) :
  try r wrap = Ok a → r = Success a.
Proof. destruct r; simpl; congruence. Qed.

Lemma failIf_Ok (cond : bool) (msg : string) (u : unit) :
  failIf cond msg = Ok u → cond = false.
Proof. by destruct cond. Qed.

Lemma ensure_Ok (err : option string) (wrap : string → string) (u : unit) :
  ensure err wrap = Ok u → err = None.
Proof. by destruct err. Qed.


Create HintDb returns.
#[local] Hint Resolve returns_ensure returns_failIf returns_try : returns.


Section NoPanic.
Context `{E : Env}.








End NoPanic.




(** Where the reparse rejects what [url.Parse] let through, [processProject]
    reaches its [panic]. *)
Remark processProject_panics_when_parsers_disagree :
  returned (processProject (E := Sample.envWith (λ _, Failure "rejected"))
              Sample.empty
              (Some (types.mkProject "/work" [] {["backend" := tt]} ∅
                       {["x-mutagen" :=
                           xmutagen.mkConfiguration
                             {["web" := xmutagen.mkForwarding "tcp:localhost:8080"
                                          "network://backend:tcp:web:80" ∅ ∅ ∅]} ∅]})))
  = Panic "forwarding URL failed to reparse".
Proof. vm_compute. reflexivity. Qed.

(** ** What a successful build went through *)

Lemma bind_Ok {A B} (m : outcome A) (f : A → outcome B) (b : B) :
  m ≫= f = Ok b → ∃ a, m = Ok a ∧ f a = Ok b.
Proof. destruct m; simpl; [eauto|done..]. Qed.

Section Build.
Context `{E : Env}.

(** The specification and the dependencies that the loop body yields for
    each entry are what the loop leaves in its maps. *)
Lemma foldM_recorded {V Spec D N}
    (body : string → V → outcome (Spec * D)) (note : N → D → N)
    (step : gmap string Spec * N → string * V → outcome (gmap string Spec * N))
    (entries : list (string * V)) (acc result : gmap string Spec * N) :
  (∀ acc entry,
     step acc entry
     = (r ← body entry.1 entry.2; Ok (<[entry.1 := r.1]> acc.1, note acc.2 r.2))) →
  NoDup entries.*1 →
  foldM step entries acc = Ok result →
  ∀ name,
    match result.1 !! name with
    | Some spec =>
        (∃ v dependencies, (name, v) ∈ entries ∧ body name v = Ok (spec, dependencies))
        ∨ (name ∉ fst <$> entries) ∧ acc.1 !! name = Some spec
    | None => (name ∉ fst <$> entries) ∧ acc.1 !! name = None
    end.
Proof.
  intros Hstep. revert acc.
  induction entries as [|[k v] entries IH]; intros acc Hnodup Hfold name.
  - simpl in Hfold. injection Hfold as <-.
    destruct (acc.1 !! name) eqn:Hacc; [right|]; split; auto; apply not_elem_of_nil.
  - simpl in Hfold. apply bind_Ok in Hfold as (acc' & Hacc' & Hfold).
    rewrite Hstep in Hacc'. apply bind_Ok in Hacc' as ([spec0 deps0] & Hbody & Hacc').
    injection Hacc' as <-. simpl in Hbody.
    apply NoDup_cons in Hnodup as [Hfresh Hnodup].
    specialize (IH _ Hnodup Hfold name). simpl in IH.
    destruct (result.1 !! name) as [spec|].
    + destruct IH as [(v' & deps & Hin & Hv')|[Hnotin Hlookup]].
      * left. exists v', deps. split; [by right|done].
      * destruct (decide (k = name)) as [->|Hne].
        -- rewrite lookup_insert_eq in Hlookup. injection Hlookup as <-.
           left. exists v, deps0. split; [left|done].
        -- rewrite lookup_insert_ne in Hlookup by done.
           right. split; [|done]. simpl. by apply not_elem_of_cons.
    + destruct IH as [Hnotin Hlookup].
      destruct (decide (k = name)) as [->|Hne].
      * by rewrite lookup_insert_eq in Hlookup.
      * rewrite lookup_insert_ne in Hlookup by done.
        split; [|done]. simpl. by apply not_elem_of_cons.
Qed.

Lemma rangeOrder_NoDup {V} (seed : list nat) (m : gmap string V) :
  NoDup (rangeOrder seed m).*1.
Proof.
  unfold rangeOrder. rewrite shuffle_perm. apply NoDup_fst_map_to_list.
Qed.

Lemma extractForwardingDefaults_Ok sessions defaults remaining :
  extractForwardingDefaults sessions = Ok (defaults, remaining) →
  remaining = delete "defaults" sessions.
Proof.
  unfold extractForwardingDefaults.
  destruct (sessions !! "defaults") as [d|] eqn:Hd.
  - intros H. do 5 (apply bind_Ok in H as (? & _ & H)). by injection H as <- <-.
  - intros [= <- <-]. by rewrite delete_id.
Qed.

Lemma extractSynchronizationDefaults_Ok sessions defaults remaining :
  extractSynchronizationDefaults sessions = Ok (defaults, remaining) →
  remaining = delete "defaults" sessions.
Proof.
  unfold extractSynchronizationDefaults.
  destruct (sessions !! "defaults") as [d|] eqn:Hd.
  - intros H. do 5 (apply bind_Ok in H as (? & _ & H)). by injection H as <- <-.
  - intros [= <- <-]. by rewrite delete_id.
Qed.

Lemma buildProject_Ok l p l' p' : buildProject l p = Ok (l', p') → Built l p l' p'.
Proof.
  unfold buildProject. intros H.
  apply bind_Ok in H as (md & Hmd & H). apply try_Ok in Hmd.
  apply bind_Ok in H as (sessions & Hsessions & H).
  apply bind_Ok in H as ([dF fS] & HdF & H).
  pose proof (extractForwardingDefaults_Ok _ _ _ HdF) as ->.
  apply bind_Ok in H as ([dS sS] & HdS & H).
  pose proof (extractSynchronizationDefaults_Ok _ _ _ HdS) as ->.
  apply bind_Ok in H as ([fSpecs nDeps] & HF & H).
  apply bind_Ok in H as ([sSpecs vDeps] & HS & H).
  apply bind_Ok in H as (? & _ & H). apply bind_Ok in H as (? & _ & H).
  injection H as <- <-.
  by eapply (mkBuilt _ _ _ _ md sessions dF dS nDeps vDeps).
Qed.

Lemma processProject_Ok l p :
  returned (processProject l (Some p)) = Ok tt →
  ∃ l' p', processProject l (Some p) = mkProcessed (Ok tt) l' (Some p') [ClientInfo]
           ∧ checkServiceNames (types.Services p) = Ok tt
           ∧ Built l p l' p'.
Proof.
  unfold processProject.
  destruct (checkServiceNames (types.Services p)) as [[]| |] eqn:Hnames; [|done..].
  destruct (buildProject l p) as [[l' p']| |] eqn:Hbuild; [|done..].
  intros _. exists l', p'. split; [done|]. split; [done|]. by apply buildProject_Ok.
Qed.

(** A call that does not return nil leaves the liaison and the project as
    they were. *)
Lemma processProject_failed l project :
  returned (processProject l project) ≠ Ok tt →
  liaisonAfter (processProject l project) = l
  ∧ projectAfter (processProject l project) = project.
Proof.
  unfold processProject. destruct project as [p|]; [|done].
  destruct (checkServiceNames _) as [[]| |]; [|done..].
  by destruct (buildProject l p) as [[l' p']| |].
Qed.

End Build.

(** ** The one panic *)

Section OnePanic.
Context `{E : Env}.








End OnePanic.




(** ** The loop bodies *)

Section Bodies.
Context `{E : Env}.

(** What a forwarding session went through when its specification was
    built. *)
Lemma forwardingSpecification_Ok defaults name session specification network :
  forwardingSpecification defaults name session = Ok (specification, network) →
  EnsureNameValid name = None
  ∧ isNetworkURL (xmutagen.Source session) = false
  ∧ isNetworkURL (xmutagen.Destination session) = true
  ∧ (∃ protocol address,
       urlParse (xmutagen.Source session) url.Kind_Forwarding true
         = Success (forwardingsvc.Source specification)
       ∧ url.protocol (forwardingsvc.Source specification) = url.Protocol_Local
       ∧ forwardingurlParse (url.Path (forwardingsvc.Source specification))
         = Success (protocol, address)
       ∧ isTCPForwardingProtocol protocol = true)
  ∧ parseNetworkURL (xmutagen.Destination session)
    = Success (forwardingsvc.Destination specification, network)
  ∧ forwardingsvc.config specification
    = MergeConfigurations (defaultSession defaults) (xmutagen.fConfiguration session)
  ∧ forwardingsvc.configSource specification
    = MergeConfigurations (defaultFirst defaults) (xmutagen.ConfigurationSource session)
  ∧ forwardingsvc.configDestination specification
    = MergeConfigurations (defaultSecond defaults)
        (xmutagen.ConfigurationDestination session)
  ∧ forwardingsvc.Name specification = name.
Proof.
  unfold forwardingSpecification. intros H.
  apply bind_Ok in H as (? & Hname & H). apply ensure_Ok in Hname.
  apply bind_Ok in H as (? & Hsource & H). apply failIf_Ok in Hsource.
  apply bind_Ok in H as (sourceURL & Hparsed & H). apply try_Ok in Hparsed.
  apply bind_Ok in H as (? & Hlocal & H).
  apply failIf_Ok, negb_false_iff, bool_decide_eq_true in Hlocal.
  apply bind_Ok in H as (protocol & Hreparsed & H).
  destruct (forwardingurlParse (url.Path sourceURL)) as [[protocol' address]|] eqn:Hre;
    [|done].
  injection Hreparsed as ->.
  apply bind_Ok in H as (? & Htcp & H). apply failIf_Ok, negb_false_iff in Htcp.
  apply bind_Ok in H as (? & Hdestination & H).
  apply failIf_Ok, negb_false_iff in Hdestination.
  apply bind_Ok in H as ([destinationURL network'] & Hnetwork & H). apply try_Ok in Hnetwork.
  do 3 (apply bind_Ok in H as (? & _ & H)).
  injection H as <- <-. simpl. eauto 15.
Qed.

(** What a synchronization session went through. *)
Lemma synchronizationSpecification_Ok defaults workingDir osType name session
    specification volumes :
  synchronizationSpecification defaults workingDir osType name session
    = Ok (specification, volumes) →
  EnsureNameValid name = None
  ∧ xorb (isVolumeURL (xmutagen.Alpha session)) (isVolumeURL (xmutagen.Beta session))
    = true
  ∧ synchronizationsvc.config specification
    = MergeConfigurations (defaultSession defaults) (xmutagen.sConfiguration session)
  ∧ synchronizationsvc.configAlpha specification
    = MergeConfigurations (defaultFirst defaults) (xmutagen.ConfigurationAlpha session)
  ∧ synchronizationsvc.configBeta specification
    = MergeConfigurations (defaultSecond defaults) (xmutagen.ConfigurationBeta session)
  ∧ synchronizationsvc.Name specification = name.
Proof.
  unfold synchronizationSpecification. intros H.
  apply bind_Ok in H as (? & Hname & H). apply ensure_Ok in Hname.
  apply bind_Ok in H as (? & Hneither & H). apply failIf_Ok in Hneither.
  apply bind_Ok in H as (? & Hboth & H). apply failIf_Ok in Hboth.
  apply bind_Ok in H as ([alphaURL alphaVolume] & _ & H).
  apply bind_Ok in H as ([betaURL betaVolume] & _ & H).
  do 3 (apply bind_Ok in H as (? & _ & H)).
  injection H as <- <-. simpl. repeat split; try done.
  by destruct (isVolumeURL (xmutagen.Alpha session)),
              (isVolumeURL (xmutagen.Beta session)).
Qed.

Lemma forwardingStep_body defaults acc entry :
  forwardingStep defaults acc entry
  = (r ← forwardingSpecification defaults entry.1 entry.2;
     Ok (<[entry.1 := r.1]> acc.1, (λ dependencies network, <[network := None]> dependencies)
                                     acc.2 r.2)).
Proof.
  unfold forwardingStep.
  by destruct (forwardingSpecification defaults entry.1 entry.2) as [[]| |].
Qed.

Lemma synchronizationStep_body defaults workingDir osType acc entry :
  synchronizationStep defaults workingDir osType acc entry
  = (r ← synchronizationSpecification defaults workingDir osType entry.1 entry.2;
     Ok (<[entry.1 := r.1]> acc.1,
         (λ dependencies volumes,
            foldl (λ dependencies volume, <[volume := true]> dependencies)
                  dependencies volumes) acc.2 r.2)).
Proof.
  unfold synchronizationStep.
  by destruct (synchronizationSpecification defaults workingDir osType entry.1 entry.2)
    as [[]| |].
Qed.

(** The specifications a successful build stores come from the loop body,
    one for each session of the section other than [defaults]. *)
Lemma Built_forwarding l p l' p' :
  Built l p l' p' →
  ∃ sessions defaults,
    decodeSessions (types.Extensions p) = Ok sessions
    ∧ extractForwardingDefaults (xmutagen.Forwarding sessions)
      = Ok (defaults, delete "defaults" (xmutagen.Forwarding sessions))
    ∧ ∀ name,
        match forwarding l' !! name with
        | Some specification =>
            ∃ session network,
              name ≠ "defaults"
              ∧ xmutagen.Forwarding sessions !! name = Some session
              ∧ forwardingSpecification defaults name session
                = Ok (specification, network)
        | None => name = "defaults" ∨ xmutagen.Forwarding sessions !! name = None
        end.
Proof.
  intros [md sessions dF dS nDeps vDeps _ Hsessions HdF _ HF _ _ _].
  exists sessions, dF. split; [done|]. split; [done|]. intros name.
  pose proof (foldM_recorded _ _ _ _ _ _ (forwardingStep_body dF)
                (rangeOrder_NoDup _ _) HF name) as Hname.
  simpl in Hname. destruct (forwarding l' !! name) as [specification|].
  - destruct Hname as [(session & network & Hin & Hbody)|[_ Hempty]]; [|done].
    apply elem_of_rangeOrder, lookup_delete_Some in Hin as [Hne Hin]. eauto 10.
  - destruct Hname as [Hnotin _].
    destruct (decide (name = "defaults")) as [|Hne]; [by left|right].
    destruct (xmutagen.Forwarding sessions !! name) as [session|] eqn:Hsession; [|done].
    destruct Hnotin. apply list_elem_of_fmap. exists (name, session). split; [done|].
    apply elem_of_rangeOrder. by rewrite lookup_delete_ne.
Qed.

Lemma Built_synchronization l p l' p' :
  Built l p l' p' →
  ∃ sessions defaults osType,
    decodeSessions (types.Extensions p) = Ok sessions
    ∧ extractSynchronizationDefaults (xmutagen.Synchronization sessions)
      = Ok (defaults, delete "defaults" (xmutagen.Synchronization sessions))
    ∧ ∀ name,
        match synchronization l' !! name with
        | Some specification =>
            ∃ session volumes,
              name ≠ "defaults"
              ∧ xmutagen.Synchronization sessions !! name = Some session
              ∧ synchronizationSpecification defaults (types.WorkingDir p) osType
                  name session
                = Ok (specification, volumes)
        | None => name = "defaults" ∨ xmutagen.Synchronization sessions !! name = None
        end.
Proof.
  intros [md sessions dF dS nDeps vDeps _ Hsessions _ HdS _ HS _ _].
  exists sessions, dS, (OSType md). split; [done|]. split; [done|]. intros name.
  pose proof (foldM_recorded _ _ _ _ _ _
                (synchronizationStep_body dS (types.WorkingDir p) (OSType md))
                (rangeOrder_NoDup _ _) HS name) as Hname.
  simpl in Hname. destruct (synchronization l' !! name) as [specification|].
  - destruct Hname as [(session & volumes & Hin & Hbody)|[_ Hempty]]; [|done].
    apply elem_of_rangeOrder, lookup_delete_Some in Hin as [Hne Hin]. eauto 10.
  - destruct Hname as [Hnotin _].
    destruct (decide (name = "defaults")) as [|Hne]; [by left|right].
    destruct (xmutagen.Synchronization sessions !! name) as [session|] eqn:Hsession;
      [|done].
    destruct Hnotin. apply list_elem_of_fmap. exists (name, session). split; [done|].
    apply elem_of_rangeOrder. by rewrite lookup_delete_ne.
Qed.

Lemma decodeSessions_section (extensions : gmap string Extension) xMutagen decoded sessions :
  extensions !! "x-mutagen" = Some xMutagen →
  Decode xMutagen = Success decoded →
  decodeSessions extensions = Ok sessions →
  sessions = decoded.
Proof.
  unfold decodeSessions. intros -> Hdecoded H.
  apply bind_Ok in H as (? & _ & H). rewrite Hdecoded in H. by injection H.
Qed.

End Bodies.

(** ** Endpoints of forwarding sessions *)



(** A network URL as forwarding source, end to end. *)
Example network_source_rejected :
  returned (processProject (E := Sample.env) Sample.empty
              (Some (types.mkProject "/work" [] {["backend" := tt]} ∅
                       {["x-mutagen" :=
                           xmutagen.mkConfiguration
                             {["web" := xmutagen.mkForwarding "network://backend:tcp:web:80"
                                          "network://backend:tcp:web:80" ∅ ∅ ∅]} ∅]})))
  = Err "network URL (network://backend:tcp:web:80) not allowed as forwarding source".
Proof. vm_compute. reflexivity. Qed.

(** ** The volume role of synchronization sessions *)



(** Neither endpoint a volume, end to end. *)
Example neither_volume_rejected :
  returned (processProject (E := Sample.env) Sample.empty
              (Some (types.mkProject "/work" [] ∅ ∅
                       {["x-mutagen" :=
                           xmutagen.mkConfiguration ∅
                             {["data" := xmutagen.mkSynchronization "./app" "./copy"
                                           ∅ ∅ ∅]}]})))
  = Err "neither alpha nor beta references a volume in synchronization session (data)".
Proof. vm_compute. reflexivity. Qed.

(** ** Configuration layers *)

Lemma MergeConfigurations_lastWriterWins (lower higher : Configuration) :
  lastWriterWins lower higher (MergeConfigurations lower higher).
Proof.
  intros field. unfold MergeConfigurations. rewrite lookup_union.
  destruct (higher !! field), (lower !! field); done.
Qed.

Section Layers.
Context `{E : Env}.

Lemma extractForwardingDefaults_layers sessions defaults remaining :
  extractForwardingDefaults sessions = Ok (defaults, remaining) →
  defaultSession defaults = layer xmutagen.fConfiguration (sessions !! "defaults")
  ∧ defaultFirst defaults = layer xmutagen.ConfigurationSource (sessions !! "defaults")
  ∧ defaultSecond defaults
    = layer xmutagen.ConfigurationDestination (sessions !! "defaults").
Proof.
  unfold extractForwardingDefaults.
  destruct (sessions !! "defaults") as [d|].
  - intros H. do 5 (apply bind_Ok in H as (? & _ & H)). by injection H as <- <-.
  - by intros [= <- <-].
Qed.

Lemma extractSynchronizationDefaults_layers sessions defaults remaining :
  extractSynchronizationDefaults sessions = Ok (defaults, remaining) →
  defaultSession defaults = layer xmutagen.sConfiguration (sessions !! "defaults")
  ∧ defaultFirst defaults = layer xmutagen.ConfigurationAlpha (sessions !! "defaults")
  ∧ defaultSecond defaults = layer xmutagen.ConfigurationBeta (sessions !! "defaults").
Proof.
  unfold extractSynchronizationDefaults.
  destruct (sessions !! "defaults") as [d|].
  - intros H. do 5 (apply bind_Ok in H as (? & _ & H)). by injection H as <- <-.
  - by intros [= <- <-].
Qed.

End Layers.

(** C4 (as amended): the builder merges two layers per configuration object.
    For every session of a successful build and each of its three
    configuration objects (that of the session as a whole and those of its
    two endpoints), a field set in the session's object has the session's
    value in the stored specification, a field set only in the same object of
    the [defaults] entry has that value, and a field set in neither is unset.
    The three objects stay apart in the specification: no object takes values
    from a different object of the [defaults] entry. *)
Theorem configuration_layers `{E : Env} (l : Liaison)
    (p : types.Project Extension) (xMutagen : Extension)
    (decoded : xmutagen.configuration) :
  types.Extensions p !! "x-mutagen" = Some xMutagen →
  Decode xMutagen = Success decoded →
  returned (processProject l (Some p)) = Ok tt →
  let l' := liaisonAfter (processProject l (Some p)) in
  let forwardingDefaults := xmutagen.Forwarding decoded !! "defaults" in
  let synchronizationDefaults := xmutagen.Synchronization decoded !! "defaults" in
  (∀ name session,
     name ≠ "defaults" →
     xmutagen.Forwarding decoded !! name = Some session →
     ∃ specification,
       forwarding l' !! name = Some specification
       ∧ lastWriterWins (layer xmutagen.fConfiguration forwardingDefaults)
           (xmutagen.fConfiguration session) (forwardingsvc.config specification)
       ∧ lastWriterWins (layer xmutagen.ConfigurationSource forwardingDefaults)
           (xmutagen.ConfigurationSource session)
           (forwardingsvc.configSource specification)
       ∧ lastWriterWins (layer xmutagen.ConfigurationDestination forwardingDefaults)
           (xmutagen.ConfigurationDestination session)
           (forwardingsvc.configDestination specification))
  ∧ (∀ name session,
       name ≠ "defaults" →
       xmutagen.Synchronization decoded !! name = Some session →
       ∃ specification,
         synchronization l' !! name = Some specification
         ∧ lastWriterWins (layer xmutagen.sConfiguration synchronizationDefaults)
             (xmutagen.sConfiguration session) (synchronizationsvc.config specification)
         ∧ lastWriterWins (layer xmutagen.ConfigurationAlpha synchronizationDefaults)
             (xmutagen.ConfigurationAlpha session)
             (synchronizationsvc.configAlpha specification)
         ∧ lastWriterWins (layer xmutagen.ConfigurationBeta synchronizationDefaults)
             (xmutagen.ConfigurationBeta session)
             (synchronizationsvc.configBeta specification)).
Proof.
  intros Hsection Hdecoded Hok l' forwardingDefaults synchronizationDefaults.
  subst l'. destruct (processProject_Ok l p Hok) as (l' & p' & -> & _ & Hbuilt).
  simpl. split.
  - intros name session Hname Hsession.
    destruct (Built_forwarding l p l' p' Hbuilt)
      as (sessions & defaults & Hs & Hdefaults & Hrecorded).
    pose proof (decodeSessions_section _ _ _ _ Hsection Hdecoded Hs) as ->.
    apply extractForwardingDefaults_layers in Hdefaults as (HdS & HdF & HdD).
    specialize (Hrecorded name).
    destruct (forwarding l' !! name) as [specification|].
    + destruct Hrecorded as (session' & network & _ & Hsession' & Hbody).
      rewrite Hsession in Hsession'. injection Hsession' as <-.
      apply forwardingSpecification_Ok in Hbody
        as (_ & _ & _ & _ & _ & Hc & Hcs & Hcd & _).
      exists specification. split; [done|].
      rewrite Hc, Hcs, Hcd, HdS, HdF, HdD.
      repeat split; apply MergeConfigurations_lastWriterWins.
    + destruct Hrecorded as [?|Hnone]; [done|]. by rewrite Hsession in Hnone.
  - intros name session Hname Hsession.
    destruct (Built_synchronization l p l' p' Hbuilt)
      as (sessions & defaults & osType & Hs & Hdefaults & Hrecorded).
    pose proof (decodeSessions_section _ _ _ _ Hsection Hdecoded Hs) as ->.
    apply extractSynchronizationDefaults_layers in Hdefaults as (HdS & HdA & HdB).
    specialize (Hrecorded name).
    destruct (synchronization l' !! name) as [specification|].
    + destruct Hrecorded as (session' & volumes & _ & Hsession' & Hbody).
      rewrite Hsession in Hsession'. injection Hsession' as <-.
      apply synchronizationSpecification_Ok in Hbody as (_ & _ & Hc & Hca & Hcb & _).
      exists specification. split; [done|].
      rewrite Hc, Hca, Hcb, HdS, HdA, HdB.
      repeat split; apply MergeConfigurations_lastWriterWins.
    + destruct Hrecorded as [?|Hnone]; [done|]. by rewrite Hsession in Hnone.
Qed.

Lemma configuration_layers_witness :
  let l' := liaisonAfter (processProject (E := Sample.env) Sample.empty
                            (Some layeredProject)) in
  ∃ specification,
    synchronization l' !! "data" = Some specification
    ∧ synchronizationsvc.config specification !! "mode" = Some "two-way-resolved"
    ∧ synchronizationsvc.configAlpha specification !! "mode" = None.
Proof.
  intros l'.
  destruct (configuration_layers (E := Sample.env) Sample.empty layeredProject
              layeredSessions layeredSessions eq_refl eq_refl) as [_ Hsynchronization].
  - vm_compute. reflexivity.
  - destruct (Hsynchronization "data"
                (xmutagen.mkSynchronization "./app" "volume://cache" ∅ ∅ ∅))
      as (specification & Hstored & Hsession & Halpha & _).
    + discriminate.
    + vm_compute. reflexivity.
    + exists specification. split; [exact Hstored|].
      split; [rewrite (Hsession "mode")|rewrite (Halpha "mode")];
        vm_compute; reflexivity.
Defined.

(** C4 as the specification words it fails: the configuration of an endpoint
    that the builder stores is not the three-tier merge, because a value of
    the session-wide defaults never reaches it. *)
Lemma three_tier_merge_not_performed :
  ¬ (∀ (E : Env) (defaults : Defaults) name session specification volumes,
       synchronizationSpecification defaults "/work" "linux" name session
         = Ok (specification, volumes) →
       synchronizationsvc.configAlpha specification
       = mergeThreeTier (defaultSession defaults) (defaultFirst defaults)
           (xmutagen.ConfigurationAlpha session)).
Proof.
  intros Hclaim.
  pose (defaults := mkDefaults {["mode" := "two-way-resolved"]} ∅ ∅).
  pose (session := xmutagen.mkSynchronization "./app" "volume://cache" ∅ ∅ ∅).
  destruct (synchronizationSpecification (E := Sample.env) defaults "/work" "linux"
              "data" session) as [[specification volumes]| |] eqn:Hbody;
    [|vm_compute in Hbody; discriminate..].
  specialize (Hclaim Sample.env defaults "data" session specification volumes Hbody).
  vm_compute in Hbody. injection Hbody as <- _.
  apply (f_equal (λ c : Configuration, c !! "mode")) in Hclaim.
  vm_compute in Hclaim. discriminate.
Qed.

(** ** The sidecar service *)






(** * Further properties of [processProject] *)

Section EarlyReturns.
Context `{E : Env}.
Context (l : Liaison) (p : types.Project Extension).

Lemma checkServiceNames_free :
  Forall (λ service, types.Name service ≠ sidecarServiceName) (types.Services p) →
  checkServiceNames (types.Services p) = Ok tt.
Proof.
  intros Hfree. unfold checkServiceNames.
  destruct (existsb _ _) eqn:Htaken; [|done].
  apply existsb_exists in Htaken as (service & Hin & Hname).
  apply bool_decide_eq_true in Hname. apply list_elem_of_In in Hin.
  by destruct (proj1 (Forall_forall _ _) Hfree service Hin).
Qed.

(** What [processProject] comes to once the name check has passed. *)
Lemma processProject_built :
  Forall (λ service, types.Name service ≠ sidecarServiceName) (types.Services p) →
  processProject l (Some p)
  = match buildProject l p with
    | Ok (l', p') => mkProcessed (Ok tt) l' (Some p') [ClientInfo]
    | Err e => mkProcessed (Err e) l (Some p) [ClientInfo]
    | Panic msg => mkProcessed (Panic msg) l (Some p) [ClientInfo]
    end.
Proof. intros Hfree. unfold processProject. by rewrite checkServiceNames_free. Qed.

End EarlyReturns.

(** X1: a project that already has a service with the name of the sidecar
    service is refused with the conflict error before the Docker engine is
    asked anything; the liaison and the project stay as they were. *)
Theorem processProject_name_conflict `{E : Env} (l : Liaison)
    (p : types.Project Extension) (service : types.ServiceConfig) :
  service ∈ types.Services p →
  types.Name service = sidecarServiceName →
  processProject l (Some p)
  = mkProcessed
      (Err ("Mutagen sidecar service name (" +:+ sidecarServiceName
              +:+ ") conflicts with existing service"))
      l (Some p) [].
Proof.
  intros Hin Hname. unfold processProject, checkServiceNames.
  assert (existsb (λ service, bool_decide (types.Name service = sidecarServiceName))
            (types.Services p) = true) as ->; [|done].
  apply existsb_exists. exists service.
  split; [by apply list_elem_of_In|by apply bool_decide_eq_true].
Qed.

Lemma processProject_name_conflict_witness :
  let taken := types.mkService "mutagen" "busybox" ∅ ∅ [] None in
  let p := types.mkProject "/work" [Sample.app; taken] ∅ ∅ ∅ in
  processProject (E := Sample.env) Sample.empty (Some p)
  = mkProcessed
      (Err "Mutagen sidecar service name (mutagen) conflicts with existing service")
      Sample.empty (Some p) [].
Proof.
  intros taken p.
  apply (processProject_name_conflict (E := Sample.env) Sample.empty p taken).
  - right. left.
  - reflexivity.
Defined.

(** X2: when the name check passes and the Docker engine does not answer the
    metadata query, [processProject] returns the wrapped error of the query
    after that one call and changes neither the liaison nor the project. *)
Theorem processProject_metadata_unavailable `{E : Env} (l : Liaison)
    (p : types.Project Extension) (e : string) :
  Forall (λ service, types.Name service ≠ sidecarServiceName) (types.Services p) →
  Info (dockerCLI l) = Failure e →
  processProject l (Some p)
  = mkProcessed (Err ("unable to query daemon metadata: " +:+ e)) l (Some p)
      [ClientInfo].
Proof.
  intros Hfree Hinfo. rewrite processProject_built by done.
  unfold buildProject. by rewrite Hinfo.
Qed.

Lemma processProject_metadata_unavailable_witness :
  let l := mkLiaison (mkClient (Failure "connection refused") "unix:///docker.sock") ∅ ∅ in
  processProject (E := Sample.env) l (Some Sample.project)
  = mkProcessed (E := Sample.env)
      (Err "unable to query daemon metadata: connection refused") l
      (Some Sample.project) [ClientInfo].
Proof.
  intros l.
  apply (processProject_metadata_unavailable (E := Sample.env) l Sample.project
           "connection refused").
  - repeat constructor. discriminate.
  - reflexivity.
Defined.

Lemma addSidecarDependency_untargeted `{E : Env} (service : types.ServiceConfig) :
  addSidecarDependency ∅ service = service.
Proof.
  unfold addSidecarDependency.
  assert (existsb (λ volume, String.eqb (types.Type_ volume) "volume"
                             && default false ((∅ : gmap string bool)
                                                !! types.Source volume))
            (types.Volumes service) = false) as ->; [|done].
  induction (types.Volumes service) as [|volume volumes IH]; [done|].
  simpl. rewrite lookup_empty. simpl. by rewrite andb_false_r.
Qed.

(** X3: a project without an [x-mutagen] section is still processed: with a
    free sidecar name and an answering Docker engine, [processProject] returns
    nil, stores empty specification maps, and appends to the untouched
    services a sidecar service that has the role and version labels and no
    network, volume or dependency. *)
Theorem processProject_without_extension `{E : Env} (l : Liaison)
    (p : types.Project Extension) (daemonMetadata : DaemonMetadata) :
  Forall (λ service, types.Name service ≠ sidecarServiceName) (types.Services p) →
  Info (dockerCLI l) = Success daemonMetadata →
  types.Extensions p !! "x-mutagen" = None →
  processProject l (Some p)
  = mkProcessed (Ok tt) (mkLiaison (dockerCLI l) ∅ ∅)
      (Some (types.setServices p
               (types.Services p
                  ++ [types.mkService sidecarServiceName sidecarImage
                        (<[sidecarVersionLabelKey := mutagenVersion]>
                           {[sidecarRoleLabelKey := sidecarRoleLabelValue]})
                        ∅ [] None])))
      [ClientInfo].
Proof.
  intros Hfree Hinfo Hnone. rewrite processProject_built by done.
  unfold buildProject. rewrite Hinfo. simpl.
  unfold decodeSessions. rewrite Hnone. simpl.
  unfold extractForwardingDefaults, extractSynchronizationDefaults.
  rewrite !lookup_empty. simpl. rewrite !rangeOrder_empty. simpl.
  unfold validateDependencies. rewrite !rangeOrder_empty. simpl.
  unfold sidecarService, serviceVolumeDependencies. rewrite rangeOrder_empty. simpl.
  do 3 f_equal. f_equal. f_equal.
  induction (types.Services p) as [|service services IH]; [done|].
  simpl. rewrite addSidecarDependency_untargeted. f_equal. apply IH.
  by apply Forall_inv_tail in Hfree.
Qed.

Lemma processProject_without_extension_witness :
  let p := types.mkProject "/work" [Sample.app] ∅ {["cache" := tt]} ∅ in
  returned (processProject (E := Sample.env) Sample.empty (Some p)) = Ok tt
  ∧ forwarding (liaisonAfter (processProject (E := Sample.env) Sample.empty (Some p)))
    = ∅.
Proof.
  intros p.
  rewrite (processProject_without_extension (E := Sample.env) Sample.empty p
             (mkMetadata "linux")).
  - split; reflexivity.
  - repeat constructor. discriminate.
  - reflexivity.
  - reflexivity.
Defined.

(** X4: when the project has an [x-mutagen] section that cannot be decoded,
    because the decoder cannot be created or because decoding fails,
    [processProject] returns the wrapped error and changes neither the
    liaison nor the project. *)
Theorem processProject_undecodable `{E : Env} (l : Liaison)
    (p : types.Project Extension) (daemonMetadata : DaemonMetadata)
    (xMutagen : Extension) :
  Forall (λ service, types.Name service ≠ sidecarServiceName) (types.Services p) →
  Info (dockerCLI l) = Success daemonMetadata →
  types.Extensions p !! "x-mutagen" = Some xMutagen →
  (∀ e, NewDecoder = Some e →
     processProject l (Some p)
     = mkProcessed (Err ("unable to create configuration decoder: " +:+ e)) l (Some p)
         [ClientInfo])
  ∧ (∀ e, NewDecoder = None → Decode xMutagen = Failure e →
       processProject l (Some p)
       = mkProcessed (Err ("unable to decode x-mutagen section: " +:+ e)) l (Some p)
           [ClientInfo]).
Proof.
  intros Hfree Hinfo Hsection. rewrite processProject_built by done.
  unfold buildProject. rewrite Hinfo. simpl.
  unfold decodeSessions. rewrite Hsection.
  split.
  - by intros e ->.
  - intros e -> Hdecode. simpl. by rewrite Hdecode.
Qed.

Lemma processProject_undecodable_witness :
  let p := types.mkProject "/work" [] ∅ ∅ {["x-mutagen" := "forwardings"]} in
  processProject (E := strictEnv) Sample.empty (Some p)
  = mkProcessed (E := strictEnv)
      (Err "unable to decode x-mutagen section: unknown field forwardings")
      Sample.empty (Some p) [ClientInfo].
Proof.
  intros p.
  apply (proj2 (processProject_undecodable (E := strictEnv) Sample.empty p
                  (mkMetadata "linux") "forwardings"
                  (Forall_nil_2 _) eq_refl eq_refl)
           "unknown field forwardings" eq_refl eq_refl).
Defined.

Section Decoded.
Context `{E : Env}.
Context (l : Liaison) (p : types.Project Extension).
Context (daemonMetadata : DaemonMetadata) (xMutagen : Extension)
        (decoded : xmutagen.configuration).
Context (Hfree : Forall (λ service, types.Name service ≠ sidecarServiceName)
                   (types.Services p)).
Context (Hinfo : Info (dockerCLI l) = Success daemonMetadata).
Context (Hsection : types.Extensions p !! "x-mutagen" = Some xMutagen).
Context (Hdecoder : NewDecoder = None).
Context (Hdecoded : Decode xMutagen = Success decoded).

(** The result of a call whose section decodes, as a function of what
    follows the decoding. *)
Lemma returned_decoded :
  returned (processProject l (Some p))
  = match buildProject l p with
    | Ok _ => Ok tt
    | Err e => Err e
    | Panic msg => Panic msg
    end.
Proof.
  rewrite processProject_built by done. by destruct (buildProject l p) as [[]| |].
Qed.

Lemma decodeSessions_decoded : decodeSessions (types.Extensions p) = Ok decoded.
Proof. unfold decodeSessions. rewrite Hsection, Hdecoder. simpl. by rewrite Hdecoded. Qed.

Lemma forwarding_defaults_endpoint defaults :
  xmutagen.Forwarding decoded !! "defaults" = Some defaults →
  (xmutagen.Source defaults ≠ EmptyString →
     returned (processProject l (Some p))
     = Err "source URL not allowed in default forwarding configuration")
  ∧ (xmutagen.Source defaults = EmptyString →
     xmutagen.Destination defaults ≠ EmptyString →
     returned (processProject l (Some p))
     = Err "destination URL not allowed in default forwarding configuration").
Proof.
  intros Hdefaults. rewrite returned_decoded. unfold buildProject.
  rewrite Hinfo. simpl. rewrite decodeSessions_decoded. simpl.
  unfold extractForwardingDefaults. rewrite Hdefaults. split.
  - intros Hsource. apply String.eqb_neq in Hsource. by rewrite Hsource.
  - intros -> Hdestination. apply String.eqb_neq in Hdestination.
    simpl. by rewrite Hdestination.
Qed.

Lemma synchronization_defaults_endpoint forwardingDefaults defaults :
  extractForwardingDefaults (xmutagen.Forwarding decoded) = Ok forwardingDefaults →
  xmutagen.Synchronization decoded !! "defaults" = Some defaults →
  (xmutagen.Alpha defaults ≠ EmptyString →
     returned (processProject l (Some p))
     = Err "alpha URL not allowed in default synchronization configuration")
  ∧ (xmutagen.Alpha defaults = EmptyString →
     xmutagen.Beta defaults ≠ EmptyString →
     returned (processProject l (Some p))
     = Err "beta URL not allowed in default synchronization configuration").
Proof.
  intros Hforwarding Hdefaults. rewrite returned_decoded. unfold buildProject.
  rewrite Hinfo. simpl. rewrite decodeSessions_decoded. simpl.
  rewrite Hforwarding. destruct forwardingDefaults as [dF fS]. simpl.
  unfold extractSynchronizationDefaults. rewrite Hdefaults. split.
  - intros Halpha. apply String.eqb_neq in Halpha. by rewrite Halpha.
  - intros -> Hbeta. apply String.eqb_neq in Hbeta. simpl. by rewrite Hbeta.
Qed.

End Decoded.

(** X5: the [defaults] entry of a session kind must not declare endpoints.
    When the section decodes, a [defaults] entry of the forwarding sessions
    with a source, or else with a destination, makes [processProject] return
    the error that says so; and once the forwarding defaults are accepted, a
    [defaults] entry of the synchronization sessions with an alpha, or else
    with a beta, does the same. *)
Theorem defaults_declare_no_endpoints `{E : Env} (l : Liaison)
    (p : types.Project Extension) (daemonMetadata : DaemonMetadata)
    (xMutagen : Extension) (decoded : xmutagen.configuration) :
  Forall (λ service, types.Name service ≠ sidecarServiceName) (types.Services p) →
  Info (dockerCLI l) = Success daemonMetadata →
  types.Extensions p !! "x-mutagen" = Some xMutagen →
  NewDecoder = None →
  Decode xMutagen = Success decoded →
  let r := returned (processProject l (Some p)) in
  (∀ defaults,
     xmutagen.Forwarding decoded !! "defaults" = Some defaults →
     (xmutagen.Source defaults ≠ EmptyString →
        r = Err "source URL not allowed in default forwarding configuration")
     ∧ (xmutagen.Source defaults = EmptyString →
        xmutagen.Destination defaults ≠ EmptyString →
        r = Err "destination URL not allowed in default forwarding configuration"))
  ∧ (∀ forwardingDefaults defaults,
       extractForwardingDefaults (xmutagen.Forwarding decoded) = Ok forwardingDefaults →
       xmutagen.Synchronization decoded !! "defaults" = Some defaults →
       (xmutagen.Alpha defaults ≠ EmptyString →
          r = Err "alpha URL not allowed in default synchronization configuration")
       ∧ (xmutagen.Alpha defaults = EmptyString →
          xmutagen.Beta defaults ≠ EmptyString →
          r = Err "beta URL not allowed in default synchronization configuration")).
Proof.
  intros Hfree Hinfo Hsection Hdecoder Hdecoded r. subst r. split.
  - intros defaults. by eapply forwarding_defaults_endpoint.
  - intros forwardingDefaults defaults. by eapply synchronization_defaults_endpoint.
Qed.

Lemma defaults_declare_no_endpoints_witness :
  let decoded :=
    xmutagen.mkConfiguration ∅
      {["defaults" := xmutagen.mkSynchronization EmptyString "volume://cache" ∅ ∅ ∅]} in
  let p := types.mkProject "/work" [] ∅ {["cache" := tt]} {["x-mutagen" := decoded]} in
  returned (processProject (E := Sample.env) Sample.empty (Some p))
  = Err "beta URL not allowed in default synchronization configuration".
Proof.
  intros decoded p.
  destruct (defaults_declare_no_endpoints (E := Sample.env) Sample.empty p
              (mkMetadata "linux") decoded decoded
              (Forall_nil_2 _) eq_refl eq_refl eq_refl eq_refl) as [_ Hsynchronization].
  destruct (Hsynchronization (noDefaults, ∅)
              (xmutagen.mkSynchronization EmptyString "volume://cache" ∅ ∅ ∅)
              eq_refl eq_refl) as [_ Hbeta].
  apply Hbeta; [reflexivity|discriminate].
Defined.

(** ** What the loops leave behind *)

Lemma foldM_Ok_all {A S} (body : S → A → outcome S) (l : list A) (s s' : S) :
  foldM body l s = Ok s' → ∀ x, x ∈ l → ∃ s0 s1, body s0 x = Ok s1.
Proof.
  revert s. induction l as [|y l IH]; intros s Hfold x Hin.
  - by apply elem_of_nil in Hin.
  - simpl in Hfold. apply bind_Ok in Hfold as (s1 & Hy & Hfold).
    apply elem_of_cons in Hin as [->|Hin]; eauto.
Qed.

(** The second component of a loop's accumulator collects what the body
    yields for the entries, in the order of the visit. *)
Lemma foldM_noted {V Spec D N}
    (body : string → V → outcome (Spec * D)) (note : N → D → N)
    (step : gmap string Spec * N → string * V → outcome (gmap string Spec * N))
    (entries : list (string * V)) (acc result : gmap string Spec * N) :
  (∀ acc entry,
     step acc entry
     = (r ← body entry.1 entry.2; Ok (<[entry.1 := r.1]> acc.1, note acc.2 r.2))) →
  foldM step entries acc = Ok result →
  ∃ yielded,
    Forall2 (λ entry r, body entry.1 entry.2 = Ok r) entries yielded
    ∧ result.2 = foldl note acc.2 yielded.*2.
Proof.
  intros Hstep. revert acc.
  induction entries as [|entry entries IH]; intros acc Hfold.
  - simpl in Hfold. injection Hfold as <-. by exists [].
  - simpl in Hfold. apply bind_Ok in Hfold as (acc' & Hacc' & Hfold).
    rewrite Hstep in Hacc'. apply bind_Ok in Hacc' as (r & Hbody & Hacc').
    injection Hacc' as <-.
    destruct (IH _ Hfold) as (yielded & Hall & ->).
    exists (r :: yielded). split; [by constructor|done].
Qed.

Lemma noted_networks (networks : list string)
    (dependencies : gmap string (option types.ServiceNetworkConfig)) (network : string) :
  foldl (λ dependencies network, <[network := None]> dependencies) dependencies networks
    !! network
  = if bool_decide (network ∈ networks) then Some None else dependencies !! network.
Proof.
  revert dependencies. induction networks as [|n networks IH]; intros dependencies.
  - cbn [foldl concat]. rewrite bool_decide_eq_false_2; [done|apply not_elem_of_nil].
  - cbn [foldl]. rewrite IH. case_bool_decide as Hin.
    + rewrite bool_decide_eq_true_2; [done|by right].
    + destruct (decide (n = network)) as [->|Hne].
      * rewrite lookup_insert_eq. rewrite bool_decide_eq_true_2; [done|left].
      * rewrite lookup_insert_ne by done.
        rewrite bool_decide_eq_false_2; [done|].
        intros [?|?]%elem_of_cons; congruence.
Qed.

Lemma elem_of_concat {A} (x : A) (ls : list (list A)) :
  x ∈ concat ls ↔ ∃ l, x ∈ l ∧ l ∈ ls.
Proof.
  induction ls as [|l ls IH]; simpl.
  - split; [by intros ?%elem_of_nil|by intros (? & _ & ?%elem_of_nil)].
  - rewrite elem_of_app, IH. split.
    + intros [Hin|(l' & Hin & Hl')]; [exists l; split; [done|left]|].
      exists l'. split; [done|by right].
    + intros (l' & Hin & [->|Hl']%elem_of_cons); eauto.
Qed.

Lemma noted_volumes (yielded : list (list string)) (dependencies : gmap string bool)
    (volume : string) :
  foldl (λ dependencies volumes,
           foldl (λ dependencies volume, <[volume := true]> dependencies)
                 dependencies volumes)
        dependencies yielded !! volume
  = if bool_decide (volume ∈ concat yielded) then Some true else dependencies !! volume.
Proof.
  assert (∀ (volumes : list string) (dependencies : gmap string bool),
            foldl (λ dependencies volume, <[volume := true]> dependencies)
                  dependencies volumes !! volume
            = if bool_decide (volume ∈ volumes) then Some true
              else dependencies !! volume) as Hinner.
  { intros volumes. induction volumes as [|v volumes IH]; intros deps.
    - cbn [foldl concat]. rewrite bool_decide_eq_false_2; [done|apply not_elem_of_nil].
    - cbn [foldl]. rewrite IH. case_bool_decide as Hin.
      + rewrite bool_decide_eq_true_2; [done|by right].
      + destruct (decide (v = volume)) as [->|Hne].
        * rewrite lookup_insert_eq. rewrite bool_decide_eq_true_2; [done|left].
        * rewrite lookup_insert_ne by done.
          rewrite bool_decide_eq_false_2; [done|].
          intros [?|?]%elem_of_cons; congruence. }
  revert dependencies. induction yielded as [|volumes yielded IH]; intros dependencies.
  - cbn [foldl concat]. rewrite bool_decide_eq_false_2; [done|apply not_elem_of_nil].
  - cbn [foldl concat]. rewrite IH, Hinner. repeat case_bool_decide; try done.
    + exfalso. rewrite elem_of_app in *. tauto.
    + exfalso. rewrite elem_of_app in *. tauto.
    + exfalso. rewrite elem_of_app in *. tauto.
Qed.

Lemma validateDependencies_Ok {V W} what whose seed
    (dependencies : gmap string V) (declared : gmap string W) :
  validateDependencies what whose seed dependencies declared = Ok tt →
  ∀ name, is_Some (dependencies !! name) → is_Some (declared !! name).
Proof.
  unfold validateDependencies. intros Hvalid name [v Hname].
  apply elem_of_rangeOrder with (seed := seed) in Hname.
  destruct (foldM_Ok_all _ _ _ _ Hvalid _ Hname) as (? & ? & Hcheck).
  apply failIf_Ok, negb_false_iff, bool_decide_eq_true in Hcheck. done.
Qed.

Section Steps.
Context `{E : Env}.

(** Every step of a call that returned nil. *)
Lemma processProject_steps l p :
  returned (processProject l (Some p)) = Ok tt →
  ∃ l' p' daemonMetadata sessions defaultsForwarding defaultsSynchronization
    networkDependencies volumeDependencies,
    processProject l (Some p) = mkProcessed (Ok tt) l' (Some p') [ClientInfo]
    ∧ Info (dockerCLI l) = Success daemonMetadata
    ∧ decodeSessions (types.Extensions p) = Ok sessions
    ∧ extractForwardingDefaults (xmutagen.Forwarding sessions)
      = Ok (defaultsForwarding, delete "defaults" (xmutagen.Forwarding sessions))
    ∧ extractSynchronizationDefaults (xmutagen.Synchronization sessions)
      = Ok (defaultsSynchronization,
            delete "defaults" (xmutagen.Synchronization sessions))
    ∧ foldM (forwardingStep defaultsForwarding)
        (rangeOrder (rangeSeed 0) (delete "defaults" (xmutagen.Forwarding sessions)))
        (∅, ∅)
      = Ok (forwarding l', networkDependencies)
    ∧ foldM (synchronizationStep defaultsSynchronization (types.WorkingDir p)
               (OSType daemonMetadata))
        (rangeOrder (rangeSeed 1)
           (delete "defaults" (xmutagen.Synchronization sessions)))
        (∅, ∅)
      = Ok (synchronization l', volumeDependencies)
    ∧ validateDependencies "network" "forwarding" (rangeSeed 2)
        networkDependencies (types.ProjectNetworks p) = Ok tt
    ∧ validateDependencies "volume" "synchronization" (rangeSeed 3)
        volumeDependencies (types.ProjectVolumes p) = Ok tt
    ∧ p' = types.setServices p
             ((addSidecarDependency volumeDependencies <$> types.Services p)
                ++ [sidecarService (OSType daemonMetadata) networkDependencies
                      volumeDependencies]).
Proof.
  unfold processProject.
  destruct (checkServiceNames (types.Services p)) as [[]| |]; [|done..].
  destruct (buildProject l p) as [[l' p']| |] eqn:H; [|done..].
  intros _. unfold buildProject in H.
  apply bind_Ok in H as (md & Hmd & H). apply try_Ok in Hmd.
  apply bind_Ok in H as (sessions & Hsessions & H).
  apply bind_Ok in H as ([dF fS] & HdF & H).
  pose proof (extractForwardingDefaults_Ok _ _ _ HdF) as ->.
  apply bind_Ok in H as ([dS sS] & HdS & H).
  pose proof (extractSynchronizationDefaults_Ok _ _ _ HdS) as ->.
  apply bind_Ok in H as ([fSpecs nDeps] & HF & H).
  apply bind_Ok in H as ([sSpecs vDeps] & HS & H).
  apply bind_Ok in H as ([] & Hnetworks & H).
  apply bind_Ok in H as ([] & Hvolumes & H).
  injection H as <- <-.
  exists (mkLiaison (dockerCLI l) fSpecs sSpecs), (types.setServices p
    ((addSidecarDependency vDeps <$> types.Services p)
       ++ [sidecarService (OSType md) nDeps vDeps])), md, sessions, dF, dS, nDeps, vDeps.
  simpl. eauto 12.
Qed.

Lemma synchronizationEndpoint_Ok role first workingDir osType raw isVolume
    resolved dependency :
  synchronizationEndpoint role first workingDir osType raw isVolume
    = Ok (resolved, dependency) →
  if isVolume
  then ∃ volume, parseVolumeURL raw osType = Success (resolved, volume)
                 ∧ dependency = Some volume
  else resolvesLocally first workingDir raw resolved ∧ dependency = None.
Proof.
  unfold synchronizationEndpoint, resolvesLocally. destruct isVolume; intros H.
  - apply bind_Ok in H as ([parsed volume] & Hparsed & H). apply try_Ok in Hparsed.
    injection H as <- <-. eauto.
  - apply bind_Ok in H as (parsed & Hparsed & H). apply try_Ok in Hparsed.
    apply bind_Ok in H as (? & Hlocal & H).
    apply failIf_Ok, negb_false_iff, bool_decide_eq_true in Hlocal.
    destruct (IsAbs raw) eqn:Habs.
    + injection H as <- <-. split; [|done]. by exists parsed.
    + apply bind_Ok in H as (path & Hpath & H). apply try_Ok in Hpath.
      injection H as <- <-. split; [|done]. exists parsed. eauto.
Qed.

(** The endpoints of a synchronization specification: one comes from the
    volume URL, the other is resolved locally. *)
Lemma synchronizationSpecification_endpoints defaults workingDir osType name session
    specification volumes :
  synchronizationSpecification defaults workingDir osType name session
    = Ok (specification, volumes) →
  (isVolumeURL (xmutagen.Alpha session) = true
   ∧ isVolumeURL (xmutagen.Beta session) = false
   ∧ (∃ volume,
        parseVolumeURL (xmutagen.Alpha session) osType
          = Success (synchronizationsvc.Alpha specification, volume)
        ∧ volumes = [volume])
   ∧ resolvesLocally false workingDir (xmutagen.Beta session)
       (synchronizationsvc.Beta specification))
  ∨ (isVolumeURL (xmutagen.Alpha session) = false
     ∧ isVolumeURL (xmutagen.Beta session) = true
     ∧ resolvesLocally true workingDir (xmutagen.Alpha session)
         (synchronizationsvc.Alpha specification)
     ∧ ∃ volume,
         parseVolumeURL (xmutagen.Beta session) osType
           = Success (synchronizationsvc.Beta specification, volume)
         ∧ volumes = [volume]).
Proof.
  unfold synchronizationSpecification. intros H.
  apply bind_Ok in H as (? & _ & H).
  apply bind_Ok in H as (? & Hneither & H). apply failIf_Ok in Hneither.
  apply bind_Ok in H as (? & Hboth & H). apply failIf_Ok in Hboth.
  apply bind_Ok in H as ([alphaURL alphaVolume] & Halpha & H).
  apply bind_Ok in H as ([betaURL betaVolume] & Hbeta & H).
  do 3 (apply bind_Ok in H as (? & _ & H)).
  injection H as <- <-. simpl.
  apply synchronizationEndpoint_Ok in Halpha, Hbeta.
  destruct (isVolumeURL (xmutagen.Alpha session)),
           (isVolumeURL (xmutagen.Beta session)); try done.
  - left. destruct Halpha as (volume & Hparsed & ->), Hbeta as [Hlocal ->].
    simpl. eauto 10.
  - right. destruct Halpha as [Hlocal ->], Hbeta as (volume & Hparsed & ->).
    simpl. eauto 10.
Qed.

Lemma forwardingSpecification_valid defaults name session specification network :
  forwardingSpecification defaults name session = Ok (specification, network) →
  forwardingEnsureValid (xmutagen.fConfiguration session) false = None
  ∧ forwardingEnsureValid (xmutagen.ConfigurationSource session) true = None
  ∧ forwardingEnsureValid (xmutagen.ConfigurationDestination session) true = None
  ∧ forwardingsvc.Labels specification = ∅.
Proof.
  unfold forwardingSpecification. intros H.
  do 4 (apply bind_Ok in H as (? & _ & H)).
  apply bind_Ok in H as (protocol & _ & H).
  do 2 (apply bind_Ok in H as (? & _ & H)).
  apply bind_Ok in H as ([destinationURL network'] & _ & H).
  apply bind_Ok in H as (? & H1 & H). apply ensure_Ok in H1.
  apply bind_Ok in H as (? & H2 & H). apply ensure_Ok in H2.
  apply bind_Ok in H as (? & H3 & H). apply ensure_Ok in H3.
  by injection H as <- <-.
Qed.

Lemma synchronizationSpecification_valid defaults workingDir osType name session
    specification volumes :
  synchronizationSpecification defaults workingDir osType name session
    = Ok (specification, volumes) →
  synchronizationEnsureValid (xmutagen.sConfiguration session) false = None
  ∧ synchronizationEnsureValid (xmutagen.ConfigurationAlpha session) true = None
  ∧ synchronizationEnsureValid (xmutagen.ConfigurationBeta session) true = None
  ∧ synchronizationsvc.Labels specification = ∅.
Proof.
  unfold synchronizationSpecification. intros H.
  do 3 (apply bind_Ok in H as (? & _ & H)).
  apply bind_Ok in H as ([alphaURL alphaVolume] & _ & H).
  apply bind_Ok in H as ([betaURL betaVolume] & _ & H).
  apply bind_Ok in H as (? & H1 & H). apply ensure_Ok in H1.
  apply bind_Ok in H as (? & H2 & H). apply ensure_Ok in H2.
  apply bind_Ok in H as (? & H3 & H). apply ensure_Ok in H3.
  by injection H as <- <-.
Qed.

End Steps.

Section Recorded.
Context `{E : Env}.

Lemma recorded_forwarding defaults (sessions : gmap string xmutagen.forwardingSession)
    seed specifications networkDependencies :
  foldM (forwardingStep defaults) (rangeOrder seed (delete "defaults" sessions)) (∅, ∅)
    = Ok (specifications, networkDependencies) →
  ∀ name,
    match specifications !! name with
    | Some specification =>
        ∃ session network,
          name ≠ "defaults" ∧ sessions !! name = Some session
          ∧ forwardingSpecification defaults name session = Ok (specification, network)
    | None => name = "defaults" ∨ sessions !! name = None
    end.
Proof.
  intros HF name.
  pose proof (foldM_recorded _ _ _ _ _ _ (forwardingStep_body defaults)
                (rangeOrder_NoDup _ _) HF name) as Hname.
  simpl in Hname. destruct (specifications !! name) as [specification|].
  - destruct Hname as [(session & network & Hin & Hbody)|[_ Hempty]]; [|done].
    apply elem_of_rangeOrder, lookup_delete_Some in Hin as [Hne Hin]. eauto 10.
  - destruct Hname as [Hnotin _].
    destruct (decide (name = "defaults")) as [|Hne]; [by left|right].
    destruct (sessions !! name) as [session|] eqn:Hsession; [|done].
    destruct Hnotin. apply list_elem_of_fmap. exists (name, session). split; [done|].
    apply elem_of_rangeOrder. by rewrite lookup_delete_ne.
Qed.

Lemma recorded_synchronization defaults workingDir osType
    (sessions : gmap string xmutagen.synchronizationSession)
    seed specifications volumeDependencies :
  foldM (synchronizationStep defaults workingDir osType)
    (rangeOrder seed (delete "defaults" sessions)) (∅, ∅)
    = Ok (specifications, volumeDependencies) →
  ∀ name,
    match specifications !! name with
    | Some specification =>
        ∃ session volumes,
          name ≠ "defaults" ∧ sessions !! name = Some session
          ∧ synchronizationSpecification defaults workingDir osType name session
            = Ok (specification, volumes)
    | None => name = "defaults" ∨ sessions !! name = None
    end.
Proof.
  intros HS name.
  pose proof (foldM_recorded _ _ _ _ _ _
                (synchronizationStep_body defaults workingDir osType)
                (rangeOrder_NoDup _ _) HS name) as Hname.
  simpl in Hname. destruct (specifications !! name) as [specification|].
  - destruct Hname as [(session & volumes & Hin & Hbody)|[_ Hempty]]; [|done].
    apply elem_of_rangeOrder, lookup_delete_Some in Hin as [Hne Hin]. eauto 10.
  - destruct Hname as [Hnotin _].
    destruct (decide (name = "defaults")) as [|Hne]; [by left|right].
    destruct (sessions !! name) as [session|] eqn:Hsession; [|done].
    destruct Hnotin. apply list_elem_of_fmap. exists (name, session). split; [done|].
    apply elem_of_rangeOrder. by rewrite lookup_delete_ne.
Qed.

(** The network dependencies are the networks of the destinations, each with
    a nil configuration. *)
Lemma noted_forwarding defaults (sessions : xmutagen.configuration)
    seed specifications networkDependencies :
  foldM (forwardingStep defaults)
    (rangeOrder seed (delete "defaults" (xmutagen.Forwarding sessions))) (∅, ∅)
    = Ok (specifications, networkDependencies) →
  ∀ network,
    (targetsNetwork sessions network → networkDependencies !! network = Some None)
    ∧ (is_Some (networkDependencies !! network) → targetsNetwork sessions network).
Proof.
  intros HF network.
  destruct (foldM_noted _ _ _ _ _ _ (forwardingStep_body defaults) HF)
    as (yielded & Hall & Hnoted).
  simpl in Hnoted. rewrite Hnoted, noted_networks, lookup_empty. split.
  - intros (name & session & parsed & Hne & Hsession & Hparsed).
    rewrite bool_decide_eq_true_2; [done|].
    assert ((name, session)
            ∈ rangeOrder seed (delete "defaults" (xmutagen.Forwarding sessions)))
      as Hin by (apply elem_of_rangeOrder; by rewrite lookup_delete_ne).
    apply list_elem_of_lookup in Hin as [i Hi].
    destruct (Forall2_lookup_l _ _ _ _ _ Hall Hi) as ([spec network'] & Hr & Hbody).
    simpl in Hbody.
    apply forwardingSpecification_Ok in Hbody as (_ & _ & _ & _ & Hnetwork & _).
    rewrite Hparsed in Hnetwork. injection Hnetwork as _ <-.
    apply list_elem_of_fmap. exists (spec, network). split; [done|].
    by eapply list_elem_of_lookup_2.
  - case_bool_decide as Hin; [|by intros [? ?]]. intros _.
    apply list_elem_of_fmap in Hin as ([spec network'] & -> & Hin).
    apply list_elem_of_lookup in Hin as [i Hi].
    destruct (Forall2_lookup_r _ _ _ _ _ Hall Hi) as ([name session] & Hentry & Hbody).
    simpl in Hbody.
    apply list_elem_of_lookup_2, elem_of_rangeOrder, lookup_delete_Some in Hentry
      as [Hne Hsession].
    apply forwardingSpecification_Ok in Hbody as (_ & _ & _ & _ & Hnetwork & _).
    exists name, session, (forwardingsvc.Destination spec). eauto.
Qed.

(** The volume dependencies are the volumes of the volume endpoints. *)
Lemma noted_synchronization defaults workingDir osType
    (sessions : xmutagen.configuration) seed specifications volumeDependencies :
  foldM (synchronizationStep defaults workingDir osType)
    (rangeOrder seed (delete "defaults" (xmutagen.Synchronization sessions))) (∅, ∅)
    = Ok (specifications, volumeDependencies) →
  ∀ volume,
    (targetsVolume sessions osType volume → volumeDependencies !! volume = Some true)
    ∧ (is_Some (volumeDependencies !! volume) →
       volumeDependencies !! volume = Some true ∧ targetsVolume sessions osType volume).
Proof.
  intros HS volume.
  destruct (foldM_noted _ _ _ _ _ _
              (synchronizationStep_body defaults workingDir osType) HS)
    as (yielded & Hall & Hnoted).
  simpl in Hnoted. rewrite Hnoted, noted_volumes, lookup_empty. split.
  - intros (name & session & raw & parsed & Hne & Hsession & Hraw & Hvolume & Hparsed).
    rewrite bool_decide_eq_true_2; [done|].
    assert ((name, session)
            ∈ rangeOrder seed (delete "defaults" (xmutagen.Synchronization sessions)))
      as Hin by (apply elem_of_rangeOrder; by rewrite lookup_delete_ne).
    apply list_elem_of_lookup in Hin as [i Hi].
    destruct (Forall2_lookup_l _ _ _ _ _ Hall Hi) as ([spec volumes] & Hr & Hbody).
    simpl in Hbody. apply list_elem_of_lookup_2 in Hr.
    apply elem_of_concat. exists volumes. split; [|apply list_elem_of_fmap; by exists (spec, volumes)].
    apply synchronizationSpecification_endpoints in Hbody
      as [(Ha & Hb & (v & Hv & ->) & _)|(Ha & Hb & _ & (v & Hv & ->))];
      destruct Hraw as [->| ->]; try congruence.
    + rewrite Hparsed in Hv. injection Hv as _ <-. left.
    + rewrite Hparsed in Hv. injection Hv as _ <-. left.
  - case_bool_decide as Hin; [|by intros [? ?]]. intros _. split; [done|].
    apply elem_of_concat in Hin as (volumes & Hin & Hvolumes).
    apply list_elem_of_fmap in Hvolumes as ([spec volumes'] & -> & Hr).
    apply list_elem_of_lookup in Hr as [i Hi].
    destruct (Forall2_lookup_r _ _ _ _ _ Hall Hi) as ([name session] & Hentry & Hbody).
    simpl in Hbody, Hin.
    apply list_elem_of_lookup_2, elem_of_rangeOrder, lookup_delete_Some in Hentry
      as [Hne Hsession].
    apply synchronizationSpecification_endpoints in Hbody
      as [(Ha & Hb & (v & Hv & ->) & _)|(Ha & Hb & _ & (v & Hv & ->))];
      apply list_elem_of_singleton in Hin as ->.
    + exists name, session, (xmutagen.Alpha session),
        (synchronizationsvc.Alpha spec). eauto 10.
    + exists name, session, (xmutagen.Beta session),
        (synchronizationsvc.Beta spec). eauto 10.
Qed.

End Recorded.

(** X6: after a call that returned nil the liaison holds exactly one
    specification for each session of the section other than the [defaults]
    entries, under the session's name: a name has a forwarding (or a
    synchronization) specification if and only if it is not [defaults] and
    the section has a forwarding (a synchronization) session of that name,
    and the specification carries that name and no label yet. *)
Theorem stored_specifications `{E : Env} (l : Liaison)
    (p : types.Project Extension) (sessions : xmutagen.configuration) :
  returned (processProject l (Some p)) = Ok tt →
  decodeSessions (types.Extensions p) = Ok sessions →
  let l' := liaisonAfter (processProject l (Some p)) in
  (∀ name,
     is_Some (forwarding l' !! name)
     ↔ name ≠ "defaults" ∧ is_Some (xmutagen.Forwarding sessions !! name))
  ∧ (∀ name specification,
       forwarding l' !! name = Some specification →
       forwardingsvc.Name specification = name
       ∧ forwardingsvc.Labels specification = ∅)
  ∧ (∀ name,
       is_Some (synchronization l' !! name)
       ↔ name ≠ "defaults" ∧ is_Some (xmutagen.Synchronization sessions !! name))
  ∧ (∀ name specification,
       synchronization l' !! name = Some specification →
       synchronizationsvc.Name specification = name
       ∧ synchronizationsvc.Labels specification = ∅).
Proof.
  intros Hok Hsessions l'. subst l'.
  destruct (processProject_steps l p Hok)
    as (l' & p' & md & sessions' & dF & dS & nDeps & vDeps & -> & _ & Hs & _ & _
        & HF & HS & _).
  rewrite Hsessions in Hs. injection Hs as <-. simpl.
  pose proof (recorded_forwarding _ _ _ _ _ HF) as Hforwarding.
  pose proof (recorded_synchronization _ _ _ _ _ _ _ HS) as Hsynchronization.
  split; [|split; [|split]].
  - intros name. specialize (Hforwarding name).
    destruct (forwarding l' !! name) as [specification|].
    + destruct Hforwarding as (session & network & Hne & Hsession & _).
      rewrite Hsession. split; eauto.
    + split; [by intros [? ?]|]. intros [Hne [session Hsession]].
      destruct Hforwarding as [?|Hnone]; [done|]. by rewrite Hsession in Hnone.
  - intros name specification Hstored. specialize (Hforwarding name).
    rewrite Hstored in Hforwarding.
    destruct Hforwarding as (session & network & _ & _ & Hbody). split.
    + by apply forwardingSpecification_Ok in Hbody as (_ & _ & _ & _ & _ & _ & _ & _ & ?).
    + by apply forwardingSpecification_valid in Hbody as (_ & _ & _ & ?).
  - intros name. specialize (Hsynchronization name).
    destruct (synchronization l' !! name) as [specification|].
    + destruct Hsynchronization as (session & volumes & Hne & Hsession & _).
      rewrite Hsession. split; eauto.
    + split; [by intros [? ?]|]. intros [Hne [session Hsession]].
      destruct Hsynchronization as [?|Hnone]; [done|]. by rewrite Hsession in Hnone.
  - intros name specification Hstored. specialize (Hsynchronization name).
    rewrite Hstored in Hsynchronization.
    destruct Hsynchronization as (session & volumes & _ & _ & Hbody). split.
    + by apply synchronizationSpecification_Ok in Hbody as (_ & _ & _ & _ & _ & ?).
    + by apply synchronizationSpecification_valid in Hbody as (_ & _ & _ & ?).
Qed.

Lemma stored_specifications_witness :
  let l' := liaisonAfter (processProject (E := Sample.env) Sample.empty
                            (Some layeredProject)) in
  is_Some (synchronization l' !! "data") ∧ ¬ is_Some (synchronization l' !! "defaults").
Proof.
  intros l'.
  destruct (stored_specifications (E := Sample.env) Sample.empty layeredProject
              layeredSessions) as (_ & _ & Hdomain & _).
  - vm_compute. reflexivity.
  - reflexivity.
  - split.
    + apply Hdomain. split; [discriminate|]. eexists. vm_compute. reflexivity.
    + intros Hdefaults. apply Hdomain in Hdefaults as [Hne _]. by apply Hne.
Defined.

(** X7: after a call that returned nil, the networks of the sidecar service
    are the networks that the destinations of the forwarding sessions name,
    each with a nil configuration, and every one of them is declared by the
    project. *)
Theorem sidecar_networks `{E : Env} (l : Liaison)
    (p : types.Project Extension) (sessions : xmutagen.configuration) :
  returned (processProject l (Some p)) = Ok tt →
  decodeSessions (types.Extensions p) = Ok sessions →
  ∃ p' services sidecar,
    projectAfter (processProject l (Some p)) = Some p'
    ∧ types.Services p' = services ++ [sidecar]
    ∧ ∀ network,
        (targetsNetwork sessions network →
           types.Networks sidecar !! network = Some None)
        ∧ (is_Some (types.Networks sidecar !! network) →
             targetsNetwork sessions network
             ∧ is_Some (types.ProjectNetworks p !! network)).
Proof.
  intros Hok Hsessions.
  destruct (processProject_steps l p Hok)
    as (l' & p' & md & sessions' & dF & dS & nDeps & vDeps & -> & _ & Hs & _ & _
        & HF & _ & Hdeclared & _ & ->).
  rewrite Hsessions in Hs. injection Hs as <-. simpl.
  eexists _, _, _. split; [done|]. split; [done|]. simpl.
  intros network. destruct (noted_forwarding _ _ _ _ _ HF network) as [Hto Hfrom].
  split; [done|]. intros Hsome. split; [by apply Hfrom|].
  by eapply validateDependencies_Ok.
Qed.

Lemma sidecar_networks_witness :
  ∃ p' services sidecar,
    projectAfter (processProject (E := Sample.env) Sample.empty (Some Sample.project))
      = Some p'
    ∧ types.Services p' = services ++ [sidecar]
    ∧ types.Networks sidecar !! "backend" = Some None.
Proof.
  destruct (sidecar_networks (E := Sample.env) Sample.empty Sample.project
              Sample.sessions) as (p' & services & sidecar & Hp' & Hservices & Hnetworks).
  - vm_compute. reflexivity.
  - reflexivity.
  - exists p', services, sidecar. split; [exact Hp'|]. split; [exact Hservices|].
    apply (Hnetworks "backend").
    exists "web", Sample.web, (Sample.sidecarURL url.Kind_Forwarding "backend:tcp:web:80").
    split; [discriminate|]. split; reflexivity.
Defined.

(** X8: after a call that returned nil, the sidecar service mounts exactly
    the volumes that the volume endpoints of the synchronization sessions
    name: each mount is of type [volume], has the volume as source and the
    mount path of that volume in the sidecar container as target; no volume
    is mounted twice; and every one of them is declared by the project. *)
Theorem sidecar_volumes `{E : Env} (l : Liaison)
    (p : types.Project Extension) (sessions : xmutagen.configuration)
    (daemonMetadata : DaemonMetadata) :
  returned (processProject l (Some p)) = Ok tt →
  decodeSessions (types.Extensions p) = Ok sessions →
  Info (dockerCLI l) = Success daemonMetadata →
  let osType := OSType daemonMetadata in
  ∃ p' services sidecar,
    projectAfter (processProject l (Some p)) = Some p'
    ∧ types.Services p' = services ++ [sidecar]
    ∧ (∀ mount,
         mount ∈ types.Volumes sidecar
         ↔ ∃ volume,
             mount = types.mkVolume "volume" volume
                       (mountPathForVolumeInMutagenContainer osType volume)
             ∧ targetsVolume sessions osType volume)
    ∧ NoDup (types.Source <$> types.Volumes sidecar)
    ∧ (∀ mount,
         mount ∈ types.Volumes sidecar →
         is_Some (types.ProjectVolumes p !! types.Source mount)).
Proof.
  intros Hok Hsessions Hinfo osType. subst osType.
  destruct (processProject_steps l p Hok)
    as (l' & p' & md & sessions' & dF & dS & nDeps & vDeps & -> & Hmd & Hs & _ & _
        & _ & HS & _ & Hdeclared & ->).
  rewrite Hsessions in Hs. injection Hs as <-.
  rewrite Hinfo in Hmd. injection Hmd as <-. simpl.
  eexists _, _, _. split; [done|]. split; [done|]. simpl.
  unfold serviceVolumeDependencies.
  pose proof (noted_synchronization _ _ _ _ _ _ _ HS) as Hnoted.
  split; [|split].
  - intros mount. rewrite list_elem_of_fmap. split.
    + intros ([volume b] & -> & Hin). apply elem_of_rangeOrder in Hin.
      exists volume. split; [done|].
      apply (proj2 (Hnoted volume)). by rewrite Hin.
    + intros (volume & -> & Htargets). exists (volume, true). split; [done|].
      apply elem_of_rangeOrder. by apply (proj1 (Hnoted volume)).
  - rewrite <- list_fmap_compose.
    assert (types.Source
              ∘ (λ entry : string * bool,
                   types.mkVolume "volume" entry.1
                     (mountPathForVolumeInMutagenContainer (OSType daemonMetadata)
                        entry.1))
            = fst) as -> by done.
    apply rangeOrder_NoDup.
  - intros mount ([volume b] & -> & Hin)%list_elem_of_fmap.
    apply elem_of_rangeOrder in Hin. simpl.
    eapply validateDependencies_Ok; [exact Hdeclared|]. by rewrite Hin.
Qed.

Lemma sidecar_volumes_witness :
  ∃ p' services sidecar,
    projectAfter (processProject (E := Sample.env) Sample.empty (Some Sample.project))
      = Some p'
    ∧ types.Services p' = services ++ [sidecar]
    ∧ types.mkVolume "volume" "cache" "/volumes/cache" ∈ types.Volumes sidecar.
Proof.
  destruct (sidecar_volumes (E := Sample.env) Sample.empty Sample.project
              Sample.sessions (mkMetadata "linux"))
    as (p' & services & sidecar & Hp' & Hservices & Hmounts & _).
  - vm_compute. reflexivity.
  - reflexivity.
  - reflexivity.
  - exists p', services, sidecar. split; [exact Hp'|]. split; [exact Hservices|].
    apply Hmounts. exists "cache". split; [reflexivity|].
    exists "data", Sample.data, "volume://cache",
      (Sample.sidecarURL url.Kind_Synchronization "/volumes/cache").
    split; [discriminate|]. split; [reflexivity|]. split; [by right|].
    split; reflexivity.
Defined.

Lemma addSidecarDependency_cases `{E : Env} (sessions : xmutagen.configuration)
    (osType : string) (volumeDependencies : gmap string bool)
    (service : types.ServiceConfig) :
  (∀ volume,
     (targetsVolume sessions osType volume → volumeDependencies !! volume = Some true)
     ∧ (is_Some (volumeDependencies !! volume) →
        volumeDependencies !! volume = Some true
        ∧ targetsVolume sessions osType volume)) →
  (mountsTargeted sessions osType service →
     addSidecarDependency volumeDependencies service
     = types.setDependsOn service
         (<[sidecarServiceName := types.mkDependency ServiceConditionStarted]>
            (default ∅ (types.DependsOn service))))
  ∧ (¬ mountsTargeted sessions osType service →
     addSidecarDependency volumeDependencies service = service).
Proof.
  intros Hnoted. unfold addSidecarDependency.
  destruct (existsb _ (types.Volumes service)) eqn:Hmounts.
  - split; [done|]. intros Hnot. destruct Hnot.
    apply existsb_exists in Hmounts as (mount & Hin & Hmount).
    apply andb_true_iff in Hmount as [Htype Htargeted].
    exists mount. split; [by apply list_elem_of_In|].
    split; [by apply String.eqb_eq|].
    apply (proj2 (Hnoted (types.Source mount))).
    by destruct (volumeDependencies !! types.Source mount).
  - split; [|done]. intros (mount & Hin & Htype & Htargets).
    assert (existsb (λ volume, String.eqb (types.Type_ volume) "volume"
                               && default false
                                    (volumeDependencies !! types.Source volume))
              (types.Volumes service) = true) as Htrue; [|congruence].
    apply existsb_exists. exists mount. split; [by apply list_elem_of_In|].
    rewrite (proj1 (Hnoted _) Htargets). simpl. rewrite andb_true_r.
    by apply String.eqb_eq.
Qed.

(** X9: after a call that returned nil, the services that were in the
    project come first in the service list, in their order; a service that
    mounts, as a volume, a volume targeted by a synchronization session
    depends on the sidecar service having started and keeps its other
    dependencies, and every other service is unchanged. *)
Theorem sidecar_dependency_added `{E : Env} (l : Liaison)
    (p : types.Project Extension) (sessions : xmutagen.configuration)
    (daemonMetadata : DaemonMetadata) :
  returned (processProject l (Some p)) = Ok tt →
  decodeSessions (types.Extensions p) = Ok sessions →
  Info (dockerCLI l) = Success daemonMetadata →
  let osType := OSType daemonMetadata in
  ∃ p' services sidecar,
    projectAfter (processProject l (Some p)) = Some p'
    ∧ types.Services p' = services ++ [sidecar]
    ∧ Forall2
        (λ before after,
           (mountsTargeted sessions osType before →
              after = types.setDependsOn before
                        (<[sidecarServiceName
                             := types.mkDependency ServiceConditionStarted]>
                           (default ∅ (types.DependsOn before))))
           ∧ (¬ mountsTargeted sessions osType before → after = before))
        (types.Services p) services.
Proof.
  intros Hok Hsessions Hinfo osType. subst osType.
  destruct (processProject_steps l p Hok)
    as (l' & p' & md & sessions' & dF & dS & nDeps & vDeps & -> & Hmd & Hs & _ & _
        & _ & HS & _ & _ & ->).
  rewrite Hsessions in Hs. injection Hs as <-.
  rewrite Hinfo in Hmd. injection Hmd as <-. simpl.
  eexists _, _, _. split; [done|]. split; [done|].
  apply Forall2_fmap_r, Forall_Forall2_diag, Forall_forall. intros service _.
  apply addSidecarDependency_cases. by eapply noted_synchronization.
Qed.

Lemma sidecar_dependency_added_witness :
  ∃ p' after sidecar,
    projectAfter (processProject (E := Sample.env) Sample.empty (Some Sample.project))
      = Some p'
    ∧ types.Services p' = [after; sidecar]
    ∧ types.DependsOn after
      = Some {["mutagen" := types.mkDependency "service_started"]}.
Proof.
  destruct (sidecar_dependency_added (E := Sample.env) Sample.empty Sample.project
              Sample.sessions (mkMetadata "linux"))
    as (p' & services & sidecar & Hp' & Hservices & Hall).
  - vm_compute. reflexivity.
  - reflexivity.
  - reflexivity.
  - apply Forall2_cons_inv_l in Hall as (after & rest & [Hadded _] & Hrest & ->).
    apply Forall2_nil_inv_l in Hrest as ->.
    exists p', after, sidecar. split; [exact Hp'|]. split; [exact Hservices|].
    rewrite Hadded; [reflexivity|].
    exists (types.mkVolume "volume" "cache" "/srv").
    split; [left|]. split; [reflexivity|].
    exists "data", Sample.data, "volume://cache",
      (Sample.sidecarURL url.Kind_Synchronization "/volumes/cache").
    split; [discriminate|]. split; [reflexivity|]. split; [by right|].
    split; reflexivity.
Defined.

(** X10: after a call that returned nil, each synchronization session has
    one endpoint from its volume URL, as [parseVolumeURL] returns it for the
    operating system of the Docker engine, and one local endpoint: the local
    URL that [url.Parse] returns (alpha parsed as first URL, beta not), whose
    path, unless the endpoint is an absolute path, is replaced by the
    absolute path of the endpoint under the working directory of the
    project. *)
Theorem synchronization_endpoints_resolved `{E : Env} (l : Liaison)
    (p : types.Project Extension) (sessions : xmutagen.configuration)
    (daemonMetadata : DaemonMetadata)
    (name : string) (session : xmutagen.synchronizationSession) :
  returned (processProject l (Some p)) = Ok tt →
  decodeSessions (types.Extensions p) = Ok sessions →
  Info (dockerCLI l) = Success daemonMetadata →
  name ≠ "defaults" →
  xmutagen.Synchronization sessions !! name = Some session →
  let osType := OSType daemonMetadata in
  let workingDir := types.WorkingDir p in
  ∃ specification,
    synchronization (liaisonAfter (processProject l (Some p))) !! name
      = Some specification
    ∧ ((isVolumeURL (xmutagen.Alpha session) = true
        ∧ isVolumeURL (xmutagen.Beta session) = false
        ∧ (∃ volume,
             parseVolumeURL (xmutagen.Alpha session) osType
             = Success (synchronizationsvc.Alpha specification, volume))
        ∧ resolvesLocally false workingDir (xmutagen.Beta session)
            (synchronizationsvc.Beta specification))
       ∨ (isVolumeURL (xmutagen.Alpha session) = false
          ∧ isVolumeURL (xmutagen.Beta session) = true
          ∧ resolvesLocally true workingDir (xmutagen.Alpha session)
              (synchronizationsvc.Alpha specification)
          ∧ ∃ volume,
              parseVolumeURL (xmutagen.Beta session) osType
              = Success (synchronizationsvc.Beta specification, volume))).
Proof.
  intros Hok Hsessions Hinfo Hne Hsession osType workingDir. subst osType workingDir.
  destruct (processProject_steps l p Hok)
    as (l' & p' & md & sessions' & dF & dS & nDeps & vDeps & -> & Hmd & Hs & _ & _
        & _ & HS & _).
  rewrite Hsessions in Hs. injection Hs as <-.
  rewrite Hinfo in Hmd. injection Hmd as <-. simpl.
  pose proof (recorded_synchronization _ _ _ _ _ _ _ HS name) as Hrecorded.
  destruct (synchronization l' !! name) as [specification|].
  - destruct Hrecorded as (session' & volumes & _ & Hsession' & Hbody).
    rewrite Hsession in Hsession'. injection Hsession' as <-.
    exists specification. split; [done|].
    apply synchronizationSpecification_endpoints in Hbody
      as [(Ha & Hb & (volume & Hv & _) & Hlocal)|(Ha & Hb & Hlocal & (volume & Hv & _))].
    + left. split; [done|]. split; [done|]. split; [by exists volume|done].
    + right. split; [done|]. split; [done|]. split; [done|]. by exists volume.
  - destruct Hrecorded as [?|Hnone]; [done|]. by rewrite Hsession in Hnone.
Qed.

Lemma synchronization_endpoints_resolved_witness :
  ∃ specification,
    synchronization (liaisonAfter (processProject (E := Sample.env) Sample.empty
                                     (Some Sample.project))) !! "data"
      = Some specification
    ∧ resolvesLocally (E := Sample.env) true "/work" "./app"
        (synchronizationsvc.Alpha specification).
Proof.
  destruct (synchronization_endpoints_resolved (E := Sample.env) Sample.empty
              Sample.project Sample.sessions (mkMetadata "linux") "data" Sample.data)
    as (specification & Hstored & Hendpoints).
  - vm_compute. reflexivity.
  - reflexivity.
  - reflexivity.
  - discriminate.
  - reflexivity.
  - exists specification. split; [exact Hstored|].
    destruct Hendpoints as [(Halpha & _)|(_ & _ & Hlocal & _)].
    + vm_compute in Halpha. discriminate.
    + exact Hlocal.
Defined.

Section Validated.
Context `{E : Env}.

Lemma extractForwardingDefaults_valid sessions extracted defaults :
  extractForwardingDefaults sessions = Ok extracted →
  sessions !! "defaults" = Some defaults →
  forwardingEnsureValid (xmutagen.fConfiguration defaults) false = None
  ∧ forwardingEnsureValid (xmutagen.ConfigurationSource defaults) true = None
  ∧ forwardingEnsureValid (xmutagen.ConfigurationDestination defaults) true = None
  ∧ xmutagen.Source defaults = EmptyString
  ∧ xmutagen.Destination defaults = EmptyString.
Proof.
  unfold extractForwardingDefaults. intros H Hdefaults. rewrite Hdefaults in H.
  apply bind_Ok in H as (? & Hs & H).
  apply failIf_Ok, negb_false_iff, String.eqb_eq in Hs.
  apply bind_Ok in H as (? & Hd & H).
  apply failIf_Ok, negb_false_iff, String.eqb_eq in Hd.
  apply bind_Ok in H as (? & H1 & H). apply ensure_Ok in H1.
  apply bind_Ok in H as (? & H2 & H). apply ensure_Ok in H2.
  apply bind_Ok in H as (? & H3 & H). apply ensure_Ok in H3.
  done.
Qed.

Lemma extractSynchronizationDefaults_valid sessions extracted defaults :
  extractSynchronizationDefaults sessions = Ok extracted →
  sessions !! "defaults" = Some defaults →
  synchronizationEnsureValid (xmutagen.sConfiguration defaults) false = None
  ∧ synchronizationEnsureValid (xmutagen.ConfigurationAlpha defaults) true = None
  ∧ synchronizationEnsureValid (xmutagen.ConfigurationBeta defaults) true = None
  ∧ xmutagen.Alpha defaults = EmptyString
  ∧ xmutagen.Beta defaults = EmptyString.
Proof.
  unfold extractSynchronizationDefaults. intros H Hdefaults. rewrite Hdefaults in H.
  apply bind_Ok in H as (? & Hs & H).
  apply failIf_Ok, negb_false_iff, String.eqb_eq in Hs.
  apply bind_Ok in H as (? & Hd & H).
  apply failIf_Ok, negb_false_iff, String.eqb_eq in Hd.
  apply bind_Ok in H as (? & H1 & H). apply ensure_Ok in H1.
  apply bind_Ok in H as (? & H2 & H). apply ensure_Ok in H2.
  apply bind_Ok in H as (? & H3 & H). apply ensure_Ok in H3.
  done.
Qed.

End Validated.

(** X11: a call that returned nil has validated every configuration object
    of the section, those of the [defaults] entries included: the object of
    a session as a whole as a configuration that is not endpoint-specific,
    and the two objects of its endpoints as endpoint-specific ones. *)
Theorem configurations_validated `{E : Env} (l : Liaison)
    (p : types.Project Extension) (sessions : xmutagen.configuration) :
  returned (processProject l (Some p)) = Ok tt →
  decodeSessions (types.Extensions p) = Ok sessions →
  (∀ name session,
     xmutagen.Forwarding sessions !! name = Some session →
     forwardingEnsureValid (xmutagen.fConfiguration session) false = None
     ∧ forwardingEnsureValid (xmutagen.ConfigurationSource session) true = None
     ∧ forwardingEnsureValid (xmutagen.ConfigurationDestination session) true = None)
  ∧ (∀ name session,
       xmutagen.Synchronization sessions !! name = Some session →
       synchronizationEnsureValid (xmutagen.sConfiguration session) false = None
       ∧ synchronizationEnsureValid (xmutagen.ConfigurationAlpha session) true = None
       ∧ synchronizationEnsureValid (xmutagen.ConfigurationBeta session) true = None).
Proof.
  intros Hok Hsessions.
  destruct (processProject_steps l p Hok)
    as (l' & p' & md & sessions' & dF & dS & nDeps & vDeps & _ & _ & Hs & HdF & HdS
        & HF & HS & _).
  rewrite Hsessions in Hs. injection Hs as <-. split.
  - intros name session Hsession.
    destruct (decide (name = "defaults")) as [->|Hne].
    + by destruct (extractForwardingDefaults_valid _ _ _ HdF Hsession)
        as (? & ? & ? & _).
    + pose proof (recorded_forwarding _ _ _ _ _ HF name) as Hrecorded.
      destruct (forwarding l' !! name) as [specification|].
      * destruct Hrecorded as (session' & network & _ & Hsession' & Hbody).
        rewrite Hsession in Hsession'. injection Hsession' as <-.
        by apply forwardingSpecification_valid in Hbody as (? & ? & ? & _).
      * destruct Hrecorded as [?|Hnone]; [done|]. by rewrite Hsession in Hnone.
  - intros name session Hsession.
    destruct (decide (name = "defaults")) as [->|Hne].
    + by destruct (extractSynchronizationDefaults_valid _ _ _ HdS Hsession)
        as (? & ? & ? & _).
    + pose proof (recorded_synchronization _ _ _ _ _ _ _ HS name) as Hrecorded.
      destruct (synchronization l' !! name) as [specification|].
      * destruct Hrecorded as (session' & volumes & _ & Hsession' & Hbody).
        rewrite Hsession in Hsession'. injection Hsession' as <-.
        by apply synchronizationSpecification_valid in Hbody as (? & ? & ? & _).
      * destruct Hrecorded as [?|Hnone]; [done|]. by rewrite Hsession in Hnone.
Qed.

Lemma configurations_validated_witness :
  forwardingEnsureValid (Env := Sample.env) (xmutagen.fConfiguration Sample.web) false
  = None.
Proof.
  destruct (configurations_validated (E := Sample.env) Sample.empty Sample.project
              Sample.sessions) as [Hforwarding _].
  - vm_compute. reflexivity.
  - reflexivity.
  - by destruct (Hforwarding "web" Sample.web eq_refl) as (Hvalid & _).
Defined.

(** X12: session names are validated.  A session of the section, other than
    [defaults], whose name [EnsureNameValid] rejects makes [processProject]
    fail without recording anything, and the loop body of its kind answers
    with the error that carries the name and the reason; so after a call that
    returned nil every session name is valid. *)
Theorem session_names_validated `{E : Env} (l : Liaison)
    (p : types.Project Extension) (sessions : xmutagen.configuration)
    (name reason : string) :
  decodeSessions (types.Extensions p) = Ok sessions →
  name ≠ "defaults" →
  is_Some (xmutagen.Forwarding sessions !! name)
  ∨ is_Some (xmutagen.Synchronization sessions !! name) →
  EnsureNameValid name = Some reason →
  let r := processProject l (Some p) in
  returned r ≠ Ok tt
  ∧ liaisonAfter r = l
  ∧ projectAfter r = Some p
  ∧ (∀ defaults session,
       forwardingSpecification defaults name session
       = Err ("invalid forwarding session name (" +:+ name +:+ "): " +:+ reason))
  ∧ (∀ defaults workingDir osType session,
       synchronizationSpecification defaults workingDir osType name session
       = Err ("invalid synchronization session name (" +:+ name +:+ "): " +:+ reason)).
Proof.
  intros Hsessions Hne Hsession Hinvalid r.
  assert (returned r ≠ Ok tt) as Hfailed.
  { intros Hok. subst r.
    destruct (processProject_steps l p Hok)
      as (l' & p' & md & sessions' & dF & dS & nDeps & vDeps & _ & _ & Hs & _ & _
          & HF & HS & _).
    rewrite Hsessions in Hs. injection Hs as <-.
    destruct Hsession as [[session Hsession]|[session Hsession]].
    - pose proof (recorded_forwarding _ _ _ _ _ HF name) as Hrecorded.
      destruct (forwarding l' !! name) as [specification|].
      + destruct Hrecorded as (session' & network & _ & _ & Hbody).
        apply forwardingSpecification_Ok in Hbody as (Hvalid & _). congruence.
      + destruct Hrecorded as [?|Hnone]; [done|]. by rewrite Hsession in Hnone.
    - pose proof (recorded_synchronization _ _ _ _ _ _ _ HS name) as Hrecorded.
      destruct (synchronization l' !! name) as [specification|].
      + destruct Hrecorded as (session' & volumes & _ & _ & Hbody).
        apply synchronizationSpecification_Ok in Hbody as (Hvalid & _). congruence.
      + destruct Hrecorded as [?|Hnone]; [done|]. by rewrite Hsession in Hnone. }
  split; [done|]. destruct (processProject_failed l (Some p) Hfailed) as [Hl Hp].
  split; [done|]. split; [done|]. split.
  - intros defaults session. unfold forwardingSpecification. by rewrite Hinvalid.
  - intros defaults workingDir osType session. unfold synchronizationSpecification.
    by rewrite Hinvalid.
Qed.

Lemma session_names_validated_witness :
  let unnamed := xmutagen.mkConfiguration {[EmptyString := Sample.web]} ∅ in
  let p := types.mkProject "/work" [] {["backend" := tt]} ∅ {["x-mutagen" := unnamed]} in
  returned (processProject (E := Sample.env) Sample.empty (Some p)) ≠ Ok tt.
Proof.
  intros unnamed p.
  destruct (session_names_validated (E := Sample.env) Sample.empty p unnamed
              EmptyString "empty name" eq_refl) as (Hfailed & _).
  - discriminate.
  - left. eexists. vm_compute. reflexivity.
  - reflexivity.
  - exact Hfailed.
Defined.

(** * Further properties of the session methods *)

Lemma filter_ext_elem {A} (P Q : A → Prop) `{∀ x, Decision (P x)}
    `{∀ x, Decision (Q x)} (l : list A) :
  (∀ x, x ∈ l → P x ↔ Q x) → filter P l = filter Q l.
Proof.
  induction l as [|x l IH]; intros Hext; [done|].
  rewrite !filter_cons.
  rewrite IH by (intros y Hy; apply Hext; by right).
  destruct (decide (P x)) as [HP|HP], (decide (Q x)) as [HQ|HQ]; try done.
  - destruct HQ. by apply (Hext x); [left|].
  - destruct HP. by apply (Hext x); [left|].
Qed.

Lemma omap_ext_elem {A B} (f g : A → option B) (l : list A) :
  (∀ x, x ∈ l → f x = g x) → omap f l = omap g l.
Proof.
  induction l as [|x l IH]; intros Hext; [done|].
  cbn [omap list_omap]. rewrite (Hext x) by left.
  by rewrite IH by (intros y Hy; apply Hext; by right).
Qed.

Section Diff.
Context {Session Specification : Type}.
Context (name identifier : Session → string).
Context (current : Session → Specification → bool).

(** The loop over the desired specifications, in closed form. *)
Lemma diff_closed_form (nameToSession : gmap string Session)
    (entries : list (string * Specification))
    (pruneList : list string) (create : list Specification) :
  foldl (diffStep identifier current nameToSession) (pruneList, create) entries
  = (pruneList
       ++ omap (λ entry,
                  match nameToSession !! entry.1 with
                  | Some existing =>
                      if current existing entry.2 then None
                      else Some (identifier existing)
                  | None => None
                  end) entries,
     create
       ++ (snd <$> filter (λ entry,
                             Is_true
                               match nameToSession !! entry.1 with
                               | Some existing => negb (current existing entry.2)
                               | None => true
                               end) entries)).
Proof.
  revert pruneList create.
  induction entries as [|entry entries IH]; intros pruneList create.
  - simpl. by rewrite !app_nil_r.
  - cbn [foldl omap list_omap]. rewrite filter_cons.
    destruct (nameToSession !! entry.1) as [existing|] eqn:Hlookup;
      [destruct (current existing entry.2) eqn:Hcurrent|].
    + assert (diffStep identifier current nameToSession (pruneList, create) entry
              = (pruneList, create)) as ->
        by (unfold diffStep; simpl; by rewrite Hlookup, Hcurrent).
      by rewrite IH.
    + assert (diffStep identifier current nameToSession (pruneList, create) entry
              = (pruneList ++ [identifier existing], create ++ [entry.2])) as ->
        by (unfold diffStep; simpl; by rewrite Hlookup, Hcurrent).
      rewrite IH. simpl. by rewrite <- !app_assoc.
    + assert (diffStep identifier current nameToSession (pruneList, create) entry
              = (pruneList, create ++ [entry.2])) as ->
        by (unfold diffStep; simpl; by rewrite Hlookup).
      rewrite IH. simpl. by rewrite <- !app_assoc.
Qed.

End Diff.

(** The prune and create lists of a session kind, in terms of the listing. *)
Lemma plan_closed_form {Session Specification : Type}
    (name identifier : Session → string)
    (current : Session → Specification → bool) (seed : list nat)
    (desired : gmap string Specification) (listed : list Session) :
  plan name identifier current seed desired listed
  = ((classify name identifier desired listed).1
       ++ (identifier <$> omap (replaced name current listed) (rangeOrder seed desired)),
     snd <$> filter (λ entry, Is_true (wanted name current listed entry))
               (rangeOrder seed desired)).
Proof.
  unfold plan.
  destruct (classify name identifier desired listed) as [pruneList nameToSession]
    eqn:Hclassify.
  rewrite diff_closed_form. simpl.
  assert (∀ entry, entry ∈ rangeOrder seed desired →
                   nameToSession !! entry.1 = firstListed name listed entry.1)
    as Hfirst.
  { intros [n specification] Hin. apply elem_of_rangeOrder in Hin. simpl.
    pose proof (classify_current name identifier desired listed n) as Hcurrent.
    rewrite Hclassify, Hin in Hcurrent. done. }
  f_equal.
  - f_equal.
    rewrite (omap_ext_elem _ (λ entry, identifier <$> replaced name current listed entry)).
    + generalize (rangeOrder seed desired). intros entries.
      induction entries as [|entry entries IH]; [done|].
      cbn [omap list_omap]. destruct (replaced name current listed entry); simpl;
        by rewrite IH.
    + intros entry Hin. unfold replaced. rewrite (Hfirst entry Hin).
      destruct (firstListed name listed entry.1) as [existing|]; [|done].
      by destruct (current existing entry.2).
  - f_equal. apply filter_ext_elem. intros entry Hin.
    unfold wanted. by rewrite (Hfirst entry Hin).
Qed.

Section Plans.
Context {Session Specification : Type}.
Context (name identifier : Session → string).
Context (current : Session → Specification → bool).
Context (seed : list nat) (desired : gmap string Specification).

Lemma firstListed_Some (listed : list Session) (n : string) (s : Session) :
  firstListed name listed n = Some s → s ∈ listed ∧ name s = n.
Proof.
  unfold firstListed. intros Hhead.
  assert (s ∈ filter (λ s, name s = n) listed) as Hin.
  { destruct (filter _ listed) as [|first rest]; [done|].
    injection Hhead as ->. left. }
  by apply list_elem_of_filter in Hin as [? ?].
Qed.

Lemma firstListed_None (listed : list Session) (n : string) :
  firstListed name listed n = None → n ∉ name <$> listed.
Proof.
  unfold firstListed. intros Hhead Hin.
  apply list_elem_of_fmap in Hin as (s & -> & Hin).
  assert (s ∈ filter (λ s', name s' = name s) listed) as Hfiltered
    by by apply list_elem_of_filter.
  destruct (filter _ listed); [by apply elem_of_nil in Hfiltered|done].
Qed.

(** The classification prunes listed sessions only. *)
Lemma classify_pruned_listed (listed : list Session) (id : string) :
  id ∈ (classify name identifier desired listed).1 → id ∈ identifier <$> listed.
Proof.
  induction listed as [|s listed IH] using rev_ind.
  - intros Hin. by apply elem_of_nil in Hin.
  - rewrite classify_snoc, fmap_app, elem_of_app. unfold classifyStep.
    destruct (desired !! name s);
      [destruct ((classify name identifier desired listed).2 !! name s)|]; simpl.
    + rewrite elem_of_app. intros [Hin|Hin]; [left; by apply IH|by right].
    + intros Hin. left. by apply IH.
    + rewrite elem_of_app. intros [Hin|Hin]; [left; by apply IH|by right].
Qed.

Lemma plan_prunes_listed (listed : list Session) (id : string) :
  id ∈ (plan name identifier current seed desired listed).1 →
  id ∈ identifier <$> listed.
Proof.
  rewrite plan_closed_form. simpl. rewrite elem_of_app.
  intros [Hin|Hin]; [by apply classify_pruned_listed|].
  apply list_elem_of_fmap in Hin as (existing & -> & Hin).
  apply list_elem_of_omap in Hin as (entry & _ & Hreplaced).
  apply list_elem_of_fmap. exists existing. split; [done|].
  unfold replaced in Hreplaced.
  destruct (firstListed name listed entry.1) as [first|] eqn:Hfirst; [|done].
  apply firstListed_Some in Hfirst as [Hin _].
  destruct (current first entry.2); [done|]. by injection Hreplaced as <-.
Qed.

Lemma plan_creates_desired (listed : list Session) (specification : Specification) :
  specification ∈ (plan name identifier current seed desired listed).2 →
  ∃ n, desired !! n = Some specification.
Proof.
  rewrite plan_closed_form. simpl. intros Hin.
  apply list_elem_of_fmap in Hin as ([n specification'] & -> & Hin).
  apply list_elem_of_filter in Hin as [_ Hin].
  apply elem_of_rangeOrder in Hin. by exists n.
Qed.

End Plans.

(** X13: the prune and create lists of a session kind, in terms of the
    listing.  Going through the desired specifications in the order of the
    visit, a specification is put on the create list, once, exactly if no
    listed session has its name or the first listed session of its name is
    not current; in the second case the identifier of that session is put on
    the prune list, after the orphans and duplicates of the classification. *)
Theorem plan_diff {Session Specification : Type}
    (name identifier : Session → string)
    (current : Session → Specification → bool) (seed : list nat)
    (desired : gmap string Specification) (listed : list Session) :
  plan name identifier current seed desired listed
  = ((classify name identifier desired listed).1
       ++ (identifier <$> omap (replaced name current listed) (rangeOrder seed desired)),
     snd <$> filter (λ entry, Is_true (wanted name current listed entry))
               (rangeOrder seed desired)).
Proof. apply plan_closed_form. Qed.

(** ** A listing that matches the desired specifications *)

Section Converged.
Context {Session Specification : Type}.
Context (name identifier : Session → string).
Context (current : Session → Specification → bool).
Context (desired : gmap string Specification).

(** Sessions with names of their own that are all desired: none is pruned by
    the classification. *)
Lemma classify_keeps_all (listed : list Session) :
  NoDup (name <$> listed) →
  (∀ s, s ∈ listed → is_Some (desired !! name s)) →
  (classify name identifier desired listed).1 = [].
Proof.
  induction listed as [|s listed IH] using rev_ind; [done|].
  rewrite fmap_app. intros Hnodup Hdesired.
  apply NoDup_app in Hnodup as (Hnodup & Hfresh & _).
  rewrite classify_snoc. unfold classifyStep.
  assert (is_Some (desired !! name s)) as [specification Hlookup]
    by (apply Hdesired, elem_of_app; right; left).
  rewrite classify_current, Hlookup.
  destruct (head (filter (λ s', name s' = name s) listed)) as [earlier|] eqn:Hhead.
  - apply firstListed_Some in Hhead as [Hin Hname].
    destruct (Hfresh (name s)); [|left].
    apply list_elem_of_fmap. by exists earlier.
  - simpl. apply IH; [done|]. intros s' Hin. apply Hdesired, elem_of_app. by left.
Qed.

Lemma converged_current (listed : list Session) (entry : string * Specification) :
  converged name current desired listed = true →
  desired !! entry.1 = Some entry.2 →
  ∃ first, (classify name identifier desired listed).2 !! entry.1 = Some first
           ∧ current first entry.2 = true.
Proof.
  unfold converged. intros Hconverged Hentry.
  apply andb_prop in Hconverged as [Hconverged Hlisted].
  apply andb_prop in Hconverged as [_ Hcurrent].
  rewrite forallb_forall in Hlisted. rewrite forallb_forall in Hcurrent.
  rewrite classify_current, Hentry.
  destruct (head (filter (λ s, name s = entry.1) listed)) as [first|] eqn:Hhead.
  - exists first. split; [done|].
    apply firstListed_Some in Hhead as [Hin Hname].
    apply list_elem_of_In, Hcurrent in Hin. by rewrite Hname, Hentry in Hin.
  - apply firstListed_None in Hhead. destruct Hhead.
    eapply bool_decide_eq_true_1, (Hlisted entry), list_elem_of_In.
    destruct entry as [n specification]. by apply elem_of_map_to_list.
Qed.

(** Nothing is pruned and nothing is created for a listing that matches. *)
Lemma plan_converged (seed : list nat) (listed : list Session) :
  converged name current desired listed = true →
  plan name identifier current seed desired listed = ([], []).
Proof.
  intros Hconverged.
  assert ((classify name identifier desired listed).1 = []) as Hkept.
  { unfold converged in Hconverged.
    apply andb_prop in Hconverged as [Hconverged _].
    apply andb_prop in Hconverged as [Hnodup Hcurrent].
    apply bool_decide_eq_true in Hnodup. rewrite forallb_forall in Hcurrent.
    apply classify_keeps_all; [done|]. intros s Hin.
    apply list_elem_of_In, Hcurrent in Hin. by destruct (desired !! name s). }
  unfold plan.
  destruct (classify name identifier desired listed) as [pruneList nameToSession]
    eqn:Hclassify.
  simpl in Hkept. subst pruneList. rewrite diff_closed_form. simpl.
  assert (∀ entry, entry ∈ rangeOrder seed desired →
                   ∃ first, nameToSession !! entry.1 = Some first
                            ∧ current first entry.2 = true) as Hcurrent.
  { intros [n specification] Hin. apply elem_of_rangeOrder in Hin.
    destruct (converged_current listed (n, specification) Hconverged Hin)
      as (first & Hfirst & Hcurrent).
    rewrite Hclassify in Hfirst. by exists first. }
  induction (rangeOrder seed desired) as [|entry entries IH]; [done|].
  cbn [omap list_omap]. rewrite filter_cons.
  destruct (Hcurrent entry) as (first & -> & ->); [left|]. simpl.
  apply IH. intros e He. apply Hcurrent. by right.
Qed.

End Converged.

(** X14: a pass that finds everything in place changes nothing.  If the
    connection and the listings succeed, and the listed sessions of each
    kind match the stamped specifications (names of their own, each one
    current for the specification of its name, no specification without a
    session), then both prune lists and both create lists are empty, and the
    pass makes the two resumption calls and nothing else before it closes the
    connection; its result is the result of the resumptions. *)
Theorem reconcileSessions_converged `{E : Env} (d : Daemon) (l : Liaison)
    (sidecarID : string)
    (fs : list forwarding.Session) (ss : list synchronization.Session) :
  let projectSelection :=
    selection.mkSelection []
      (sessionSidecarLabelKey +:+ " == " +:+ chopSidecarIdentifier sidecarID) in
  let listing := [ClientDaemonHost; DaemonConnect;
                  ForwardingList projectSelection;
                  SynchronizationList projectSelection] in
  let run := reconcileSessions d l sidecarID in
  Connect d = None →
  forwardingListResponse d [ClientDaemonHost; DaemonConnect] projectSelection
    = Success fs →
  forwardingListResponseValid fs = None →
  synchronizationListResponse d
    [ClientDaemonHost; DaemonConnect; ForwardingList projectSelection]
    projectSelection = Success ss →
  synchronizationListResponseValid ss = None →
  converged forwarding.Name forwardingSessionCurrent (forwarding (liaison_ run)) fs
    = true →
  converged synchronization.Name synchronizationSessionCurrent
    (synchronization (liaison_ run)) ss = true →
  forwardingPlan (forwarding (liaison_ run)) fs = ([], [])
  ∧ synchronizationPlan (synchronization (liaison_ run)) ss = ([], [])
  ∧ match response d listing (ForwardResumeWithSelection projectSelection) with
    | Some e =>
        result_ run = Err ("forwarding resumption failed: " +:+ e)
        ∧ trace_ run
          = listing ++ [ForwardResumeWithSelection projectSelection; ConnectionClose]
    | None =>
        result_ run
        = ensure (response d (listing ++ [ForwardResumeWithSelection projectSelection])
                    (SyncResumeWithSelection projectSelection))
                 (λ e, "synchronization resumption failed: " +:+ e)
        ∧ trace_ run = listing ++ resumeCalls projectSelection ++ [ConnectionClose]
    end.
Proof.
  intros projectSelection listing run Hconnect Hfs Hfvalid Hss Hsvalid.
  subst run. rewrite reconcileSessions_liaison. intros Hforwarding Hsynchronization.
  assert (forwardingPlan
            (stampForwarding (DaemonHost (dockerCLI l)) sidecarID <$> forwarding l) fs
          = ([], [])) as Hfplan by by apply plan_converged.
  assert (synchronizationPlan
            (stampSynchronization (DaemonHost (dockerCLI l)) sidecarID
               <$> synchronization l) ss
          = ([], [])) as Hsplan by by apply plan_converged.
  split; [exact Hfplan|]. split; [exact Hsplan|].
  rewrite (reconcileSessions_listed d l sidecarID fs ss) by done.
  simpl. rewrite Hfplan, Hsplan. simpl.
  unfold applyPlan, pruneForwarding, pruneSynchronization.
  rewrite (bool_decide_eq_false_2 (0 < 0)) by lia.
  repeat first [ rewrite Run_bind_unfold | rewrite perform_run | progress simpl ].
  fold projectSelection. fold listing.
  destruct (response d listing (ForwardResumeWithSelection projectSelection))
    as [e|]; simpl; [done|].
  repeat first [ rewrite Run_bind_unfold | rewrite perform_run | progress simpl ].
  by destruct (response d _ (SyncResumeWithSelection projectSelection)) as [e|].
Qed.

Lemma reconcileSessions_converged_witness :
  let l := liaisonAfter (processProject (E := Sample.env) Sample.empty
                           (Some Sample.project)) in
  let d := Sample.daemon [Sample.existing "id1" "web" "backend:tcp:web:80"]
             [existingSynchronization "id2" "data" "/volumes/cache"] in
  let everything := selection.mkSelection [] "io.mutagen.compose.sidecar == 0123" in
  trace_ (reconcileSessions (E := Sample.env) d l "0123456789abcdef")
  = [ClientDaemonHost; DaemonConnect;
     ForwardingList everything; SynchronizationList everything;
     ForwardResumeWithSelection everything; SyncResumeWithSelection everything;
     ConnectionClose].
Proof.
  intros l d everything.
  destruct (reconcileSessions_converged (E := Sample.env) d l "0123456789abcdef"
              [Sample.existing "id1" "web" "backend:tcp:web:80"]
              [existingSynchronization "id2" "data" "/volumes/cache"])
    as (_ & _ & Hrun); [vm_compute; reflexivity..|].
  exact (proj2 Hrun).
Defined.

(** ** The connection to the daemon *)

Section Connection.
Context `{E : Env}.
Context (d : Daemon) (l : Liaison) (sidecarID : string).

Local Abbreviation projectSelection :=
  (selection.mkSelection []
     (sessionSidecarLabelKey +:+ " == " +:+ chopSidecarIdentifier sidecarID)).

Lemma applyCalls_open fP fC sP sC created :
  ConnectionClose ∉ applyCalls projectSelection fP fC sP sC created.
Proof.
  unfold applyCalls, pruneCalls, resumeCalls, createCalls, flushCalls.
  rewrite !elem_of_app. intros [[Hin|Hin]|[Hin|[[Hin|Hin]|Hin]]].
  - case_bool_decide; [|by apply elem_of_nil in Hin].
    by apply list_elem_of_singleton in Hin.
  - case_bool_decide; [|by apply elem_of_nil in Hin].
    by apply list_elem_of_singleton in Hin.
  - repeat (apply elem_of_cons in Hin as [Hin|Hin]; [discriminate|]).
    by apply elem_of_nil in Hin.
  - by apply list_elem_of_fmap in Hin as (spec & ? & _).
  - by apply list_elem_of_fmap in Hin as (spec & ? & _).
  - case_bool_decide; [|by apply elem_of_nil in Hin].
    by apply list_elem_of_singleton in Hin.
Qed.

Lemma reconcileSessions_connection :
  let run := reconcileSessions d l sidecarID in
  match Connect d with
  | Some e =>
      result_ run = Err ("unable to connect to Mutagen daemon: " +:+ e)
      ∧ last (trace_ run) = Some DaemonConnect
      ∧ ConnectionClose ∉ trace_ run
  | None =>
      ∃ calls, trace_ run = calls ++ [ConnectionClose]
               ∧ DaemonConnect ∈ calls ∧ ConnectionClose ∉ calls
  end.
Proof.
  intros run. subst run.
  destruct (reconcileSessions_trace d l sidecarID)
    as [(calls & fP & fC & sP & sC & created & Htrace & [rest Hscript] & _) _].
  destruct (Connect d) as [e|] eqn:Hconnect.
  - unfold reconcileSessions, withConnection. rewrite Hconnect. simpl.
    split; [done|]. split; [done|].
    intros Hin. repeat (apply elem_of_cons in Hin as [Hin|Hin]; [discriminate|]).
    by apply elem_of_nil in Hin.
  - exists ([ClientDaemonHost; DaemonConnect] ++ calls).
    split; [by rewrite Htrace, <- app_assoc|].
    split; [apply elem_of_app; left; right; left|].
    intros Hin. apply elem_of_app in Hin as [Hin|Hin].
    + repeat (apply elem_of_cons in Hin as [Hin|Hin]; [discriminate|]).
      by apply elem_of_nil in Hin.
    + assert (ConnectionClose ∈ [ForwardingList projectSelection;
                                 SynchronizationList projectSelection]
                                ++ applyCalls projectSelection fP fC sP sC created)
        as Hin' by (rewrite Hscript; apply elem_of_app; by left).
      apply elem_of_app in Hin' as [Hin'|Hin'].
      * repeat (apply elem_of_cons in Hin' as [Hin'|Hin']; [discriminate|]).
        by apply elem_of_nil in Hin'.
      * by apply applyCalls_open in Hin'.
Qed.

End Connection.

Ltac connection_of_two_calls d :=
  unfold withConnection; destruct (Connect d) as [e|]; simpl;
  [ split; [done|]; split; [done|];
    let Hin := fresh in
    intros Hin; repeat (apply elem_of_cons in Hin as [Hin|Hin]; [discriminate|]);
    by apply elem_of_nil in Hin
  | rewrite Run_bind_unfold, perform_run;
    match goal with
    | |- context [ensure ?err ?wrap] => destruct (ensure_cases err wrap) as [->|[? ->]]
    end; simpl;
    [ eexists [DaemonConnect; _; _] | eexists [DaemonConnect; _] ];
    (split; [done|]); (split; [left|]);
    let Hin := fresh in
    intros Hin; repeat (apply elem_of_cons in Hin as [Hin|Hin]; [discriminate|]);
    by apply elem_of_nil in Hin ].

(** X15: the connection to the daemon, for [reconcileSessions],
    [listSessions], [pauseSessions], [resumeSessions] and
    [terminateSessions] alike.  If the connection cannot be made, the method
    fails with "unable to connect to Mutagen daemon: ...", the attempt to
    connect is the last thing it does and nothing is closed.  If it can, the
    connection is closed exactly once, as the last call of the method,
    whatever happens in between. *)
Theorem connection_closed_last `{E : Env} (d : Daemon) (l : Liaison)
    (sidecarID : string) :
  Forall (λ method : Daemon → Liaison → string → Reconciled,
            let run := method d l sidecarID in
            match Connect d with
            | Some e =>
                result_ run = Err ("unable to connect to Mutagen daemon: " +:+ e)
                ∧ last (trace_ run) = Some DaemonConnect
                ∧ ConnectionClose ∉ trace_ run
            | None =>
                ∃ calls, trace_ run = calls ++ [ConnectionClose]
                         ∧ DaemonConnect ∈ calls ∧ ConnectionClose ∉ calls
            end) sessionMethods.
Proof.
  unfold sessionMethods. repeat apply Forall_cons_2; [..|apply Forall_nil_2].
  - apply reconcileSessions_connection.
  - unfold listSessions. connection_of_two_calls d.
  - unfold pauseSessions. connection_of_two_calls d.
  - unfold resumeSessions. connection_of_two_calls d.
  - unfold terminateSessions. connection_of_two_calls d.
Qed.

(** ** Listings that fail *)

(** X16: a pass whose listings fail.  With the connection made, a
    forwarding listing that fails or whose response is not valid ends the
    pass with "forwarding session listing failed: ..." (the RPC layer of the
    error peeled away) or "invalid forwarding session listing response
    received: ...", before synchronization sessions are listed; a
    synchronization listing that fails or is not valid ends it likewise.  In
    each case no session is terminated, resumed, created or flushed, and the
    connection is closed. *)
Theorem reconcileSessions_listing_failure `{E : Env} (d : Daemon) (l : Liaison)
    (sidecarID : string) :
  let projectSelection :=
    selection.mkSelection []
      (sessionSidecarLabelKey +:+ " == " +:+ chopSidecarIdentifier sidecarID) in
  let run := reconcileSessions d l sidecarID in
  let forwardingListed :=
    forwardingListResponse d [ClientDaemonHost; DaemonConnect] projectSelection in
  let synchronizationListed :=
    synchronizationListResponse d
      [ClientDaemonHost; DaemonConnect; ForwardingList projectSelection]
      projectSelection in
  Connect d = None →
  (∀ e, forwardingListed = Failure e →
        result_ run
        = Err ("forwarding session listing failed: " +:+ PeelAwayRPCErrorLayer e)
        ∧ trace_ run = [ClientDaemonHost; DaemonConnect;
                        ForwardingList projectSelection; ConnectionClose])
  ∧ (∀ fs e, forwardingListed = Success fs →
             forwardingListResponseValid fs = Some e →
             result_ run
             = Err ("invalid forwarding session listing response received: " +:+ e)
             ∧ trace_ run = [ClientDaemonHost; DaemonConnect;
                             ForwardingList projectSelection; ConnectionClose])
  ∧ (∀ fs e, forwardingListed = Success fs →
             forwardingListResponseValid fs = None →
             synchronizationListed = Failure e →
             result_ run
             = Err ("synchronization session listing failed: "
                      +:+ PeelAwayRPCErrorLayer e)
             ∧ trace_ run = [ClientDaemonHost; DaemonConnect;
                             ForwardingList projectSelection;
                             SynchronizationList projectSelection; ConnectionClose])
  ∧ (∀ fs ss e, forwardingListed = Success fs →
                forwardingListResponseValid fs = None →
                synchronizationListed = Success ss →
                synchronizationListResponseValid ss = Some e →
                result_ run
                = Err ("invalid synchronization session listing response received: "
                         +:+ e)
                ∧ trace_ run = [ClientDaemonHost; DaemonConnect;
                                ForwardingList projectSelection;
                                SynchronizationList projectSelection; ConnectionClose]).
Proof.
  intros projectSelection run forwardingListed synchronizationListed Hconnect.
  subst run forwardingListed synchronizationListed.
  unfold reconcileSessions, withConnection. rewrite Hconnect.
  rewrite Run_bind_unfold. unfold queryForwarding. simpl.
  repeat split.
  all: intros; fold projectSelection.
  all: repeat match goal with
         | H : forwardingListResponse _ _ _ = _ |- _ => rewrite H; clear H; simpl
         | H : forwardingListResponseValid _ = _ |- _ => rewrite H; clear H; simpl
         end; try done.
  all: rewrite Run_bind_unfold; unfold querySynchronization; simpl;
    fold projectSelection.
  all: repeat match goal with
         | H : synchronizationListResponse _ _ _ = _ |- _ => rewrite H; clear H; simpl
         | H : synchronizationListResponseValid _ = _ |- _ => rewrite H; clear H; simpl
         end; done.
Qed.

Lemma reconcileSessions_listing_failure_witness :
  let l := liaisonAfter (processProject (E := Sample.env) Sample.empty
                           (Some Sample.project)) in
  result_ (reconcileSessions (E := Sample.env) deafDaemon l "0123456789abcdef")
  = Err "forwarding session listing failed: rpc error: unavailable".
Proof.
  intros l.
  exact (proj1 (proj1 (reconcileSessions_listing_failure (E := Sample.env)
                         deafDaemon l "0123456789abcdef" eq_refl)
                  "rpc error: unavailable" eq_refl)).
Defined.

(** ** Creations that fail *)

Lemma createForwarding_stops (d : Daemon)
    (pre : list forwardingsvc.CreationSpecification)
    (specification : forwardingsvc.CreationSpecification)
    (post : list forwardingsvc.CreationSpecification) (e : string) (trace : list Call) :
  accepted d trace pre →
  forwardCreateResponse d (trace ++ (ForwardCreateWithSpecification <$> pre))
    specification = Failure e →
  createForwarding d (pre ++ specification :: post) trace
  = (Err ("unable to create forwarding session ("
            +:+ forwardingsvc.Name specification +:+ "): " +:+ e),
     trace ++ (ForwardCreateWithSpecification <$> pre ++ [specification])).
Proof.
  revert trace. induction pre as [|first pre IH]; intros trace Haccepted Hfailed.
  - simpl in *. rewrite app_nil_r in Hfailed.
    rewrite Run_bind_unfold. by rewrite Hfailed.
  - destruct Haccepted as [[identifier Hfirst] Haccepted].
    cbn [app createForwarding]. rewrite Run_bind_unfold. rewrite Hfirst. simpl.
    rewrite (IH _ Haccepted).
    + by rewrite <- app_assoc.
    + by rewrite <- app_assoc.
Qed.

Lemma createSynchronization_stops (d : Daemon)
    (pre : list synchronizationsvc.CreationSpecification)
    (specification : synchronizationsvc.CreationSpecification)
    (post : list synchronizationsvc.CreationSpecification)
    (created collected : list string) (e : string) (trace : list Call) :
  answers d trace pre created →
  syncCreateResponse d (trace ++ (SyncCreateWithSpecification <$> pre))
    specification = Failure e →
  createSynchronization d (pre ++ specification :: post) collected trace
  = (Err ("unable to create synchronization session ("
            +:+ synchronizationsvc.Name specification +:+ "): " +:+ e),
     trace ++ (SyncCreateWithSpecification <$> pre ++ [specification])).
Proof.
  revert trace created collected.
  induction pre as [|first pre IH]; intros trace created collected Hanswers Hfailed.
  - simpl in *. rewrite app_nil_r in Hfailed.
    rewrite Run_bind_unfold. by rewrite Hfailed.
  - destruct created as [|identifier created]; [done|].
    destruct Hanswers as [Hfirst Hanswers].
    cbn [app createSynchronization]. rewrite Run_bind_unfold. rewrite Hfirst. simpl.
    rewrite (IH _ created _ Hanswers).
    + by rewrite <- app_assoc.
    + by rewrite <- app_assoc.
Qed.

(** X17: a creation that fails ends the creation loop.  If the daemon
    accepts the specifications before [specification] and refuses
    [specification], the forwarding loop fails with "unable to create
    forwarding session (<name>): ..." and has asked for nothing after it;
    the synchronization loop fails likewise with "unable to create
    synchronization session (<name>): ...", and the sessions it has created
    before are not flushed. *)
Theorem creation_stops_at_first_failure (d : Daemon) (trace : list Call) :
  (∀ pre specification post e,
     accepted d trace pre →
     forwardCreateResponse d (trace ++ (ForwardCreateWithSpecification <$> pre))
       specification = Failure e →
     createForwarding d (pre ++ specification :: post) trace
     = (Err ("unable to create forwarding session ("
               +:+ forwardingsvc.Name specification +:+ "): " +:+ e),
        trace ++ (ForwardCreateWithSpecification <$> pre ++ [specification])))
  ∧ (∀ pre specification post created e,
       answers d trace pre created →
       syncCreateResponse d (trace ++ (SyncCreateWithSpecification <$> pre))
         specification = Failure e →
       (createSynchronization d (pre ++ specification :: post) [] ≫= flushNew d) trace
       = (Err ("unable to create synchronization session ("
                 +:+ synchronizationsvc.Name specification +:+ "): " +:+ e),
          trace ++ (SyncCreateWithSpecification <$> pre ++ [specification]))).
Proof.
  split.
  - intros pre specification post e. apply createForwarding_stops.
  - intros pre specification post created e Hanswers Hfailed.
    rewrite Run_bind_unfold.
    by rewrite (createSynchronization_stops d pre specification post created [] e trace).
Qed.

Lemma creation_stops_at_first_failure_witness :
  (createSynchronization (pickyDaemon "data")
     [synchronizationNamed "data"; synchronizationNamed "logs";
      synchronizationNamed "data"] []
     ≫= flushNew (pickyDaemon "data")) []
  = (Err "unable to create synchronization session (logs): refused",
     [SyncCreateWithSpecification (synchronizationNamed "data");
      SyncCreateWithSpecification (synchronizationNamed "logs")]).
Proof.
  exact (proj2 (creation_stops_at_first_failure (pickyDaemon "data") [])
           [synchronizationNamed "data"] (synchronizationNamed "logs")
           [synchronizationNamed "data"] ["sync_data"] "refused"
           (conj eq_refl I) eq_refl).
Defined.

(** ** The methods that list, pause, resume and terminate *)

Ltac two_calls d :=
  unfold twoCalls, withConnection;
  match goal with H : Connect d = None |- _ => rewrite H end;
  rewrite Run_bind_unfold, !perform_run; simpl;
  repeat match goal with
    | |- context [response d ?trace ?call] => destruct (response d trace call); simpl
    end; done.

(** X18: [listSessions], [pauseSessions], [resumeSessions] and
    [terminateSessions], with the connection made.  Each makes its forwarding
    call with the project selection; if that fails, the method fails with
    "forwarding listing failed: ..." ("pausing", "resumption", "termination")
    and the synchronization call is not made; otherwise the synchronization
    call follows and its error, if any, is returned as "synchronization
    listing failed: ..." (and so on).  The connection is closed in every case
    and the liaison is left as it was. *)
Theorem session_methods_two_calls `{E : Env} (d : Daemon) (l : Liaison)
    (sidecarID : string) :
  Connect d = None →
  twoCalls d l sidecarID listSessions
    (λ s, ForwardListWithSelection s false) (λ s, SyncListWithSelection s false)
    "forwarding listing failed: " "synchronization listing failed: "
  ∧ twoCalls d l sidecarID pauseSessions
      ForwardPauseWithSelection SyncPauseWithSelection
      "forwarding pausing failed: " "synchronization pausing failed: "
  ∧ twoCalls d l sidecarID resumeSessions
      ForwardResumeWithSelection SyncResumeWithSelection
      "forwarding resumption failed: " "synchronization resumption failed: "
  ∧ twoCalls d l sidecarID terminateSessions
      ForwardTerminateWithSelection SyncTerminateWithSelection
      "forwarding termination failed: " "synchronization termination failed: ".
Proof.
  intros Hconnect. repeat split.
  - unfold listSessions. two_calls d.
  - unfold pauseSessions. two_calls d.
  - unfold resumeSessions. two_calls d.
  - unfold terminateSessions. two_calls d.
Qed.

Lemma session_methods_two_calls_witness :
  let everything := selection.mkSelection [] "io.mutagen.compose.sidecar == 0123" in
  pauseSessions (E := Sample.env) (pickyDaemon "data") Sample.empty "0123456789abcdef"
  = mkReconciled (Err "forwarding pausing failed: busy") Sample.empty
      [DaemonConnect; ForwardPauseWithSelection everything; ConnectionClose].
Proof.
  exact (proj1 (proj2 (session_methods_two_calls (E := Sample.env)
                         (pickyDaemon "data") Sample.empty "0123456789abcdef"
                         eq_refl))).
Defined.

(** ** What a pass asks of the daemon *)

(** X19: a reconciliation pass stays within the project.  If the connection
    and the listings succeed, every call of the pass is one of these: a
    termination by identifier (empty label selector) of sessions that the
    listing of that kind returned; a creation of a specification that the
    liaison stores after the pass; a listing, a resumption, a flush, or the
    opening and closing of the connection.  The pass pauses nothing. *)
Theorem reconcileSessions_confined `{E : Env} (d : Daemon) (l : Liaison)
    (sidecarID : string)
    (fs : list forwarding.Session) (ss : list synchronization.Session) :
  let projectSelection :=
    selection.mkSelection []
      (sessionSidecarLabelKey +:+ " == " +:+ chopSidecarIdentifier sidecarID) in
  let run := reconcileSessions d l sidecarID in
  Connect d = None →
  forwardingListResponse d [ClientDaemonHost; DaemonConnect] projectSelection
    = Success fs →
  forwardingListResponseValid fs = None →
  synchronizationListResponse d
    [ClientDaemonHost; DaemonConnect; ForwardingList projectSelection]
    projectSelection = Success ss →
  synchronizationListResponseValid ss = None →
  Forall (confined fs ss (liaison_ run)) (trace_ run).
Proof.
  intros projectSelection run Hconnect Hfs Hfvalid Hss Hsvalid.
  subst run projectSelection. rewrite reconcileSessions_liaison.
  rewrite (reconcileSessions_listed d l sidecarID fs ss) by done.
  cbn [trace_ forwarding synchronization].
  set (fplan := forwardingPlan _ fs). set (splan := synchronizationPlan _ ss).
  set (stamped := mkLiaison _ _ _).
  set (projectSelection := selection.mkSelection _ _).
  destruct (applyPlan_trace d projectSelection fplan.1 fplan.2 splan.1 splan.2
              [ClientDaemonHost; DaemonConnect; ForwardingList projectSelection;
               SynchronizationList projectSelection])
    as (calls & created & -> & [rest Hscript] & _).
  assert (Forall (confined fs ss stamped)
            (applyCalls projectSelection fplan.1 fplan.2 splan.1 splan.2 created))
    as Hscripted.
  { unfold applyCalls, pruneCalls, resumeCalls, createCalls, flushCalls.
    repeat apply Forall_app_2.
    - case_bool_decide; [|done]. apply Forall_singleton. split; [done|].
      intros id. apply plan_prunes_listed.
    - case_bool_decide; [|done]. apply Forall_singleton. split; [done|].
      intros id. apply plan_prunes_listed.
    - by repeat constructor.
    - apply Forall_fmap, Forall_forall. intros spec Hin.
      by apply plan_creates_desired in Hin.
    - apply Forall_fmap, Forall_forall. intros spec Hin.
      by apply plan_creates_desired in Hin.
    - case_bool_decide; [|done]. by apply Forall_singleton. }
  rewrite Hscript in Hscripted. apply Forall_app in Hscripted as [Hcalls _].
  repeat apply Forall_app_2; [by repeat constructor|done|by repeat constructor].
Qed.

Lemma reconcileSessions_confined_witness :
  let l := liaisonAfter (processProject (E := Sample.env) Sample.empty
                           (Some Sample.project)) in
  let fs := [Sample.existing "id1" "web" "backend:tcp:old:80";
             Sample.existing "id2" "gone" "backend:tcp:web:80"] in
  let run := reconcileSessions (E := Sample.env) (Sample.daemon fs []) l
               "0123456789abcdef" in
  Forall (confined fs [] (liaison_ run)) (trace_ run).
Proof.
  intros l fs run.
  exact (reconcileSessions_confined (E := Sample.env) (Sample.daemon fs []) l
           "0123456789abcdef" fs [] eq_refl eq_refl eq_refl eq_refl eq_refl).
Defined.

(** ** The sessions that are terminated *)

Lemma NoDup_fmap_same {A B} (f : A → B) (l : list A) (x y : A) :
  NoDup (f <$> l) → x ∈ l → y ∈ l → f x = f y → x = y.
Proof.
  induction l as [|z l IH]; intros Hnodup Hx Hy Hsame.
  - by apply elem_of_nil in Hx.
  - rewrite fmap_cons in Hnodup. apply NoDup_cons in Hnodup as [Hfresh Hnodup].
    apply elem_of_cons in Hx as [->|Hx]; apply elem_of_cons in Hy as [->|Hy].
    + done.
    + destruct Hfresh. rewrite Hsame. apply list_elem_of_fmap. by exists y.
    + destruct Hfresh. rewrite <- Hsame. apply list_elem_of_fmap. by exists x.
    + by apply IH.
Qed.

Section Terminated.
Context {Session Specification : Type}.
Context (name identifier : Session → string).
Context (current : Session → Specification → bool).
Context (seed : list nat) (desired : gmap string Specification).

Lemma firstListed_app (pre post : list Session) (n : string) :
  firstListed name (pre ++ post) n
  = match firstListed name pre n with
    | Some first => Some first
    | None => firstListed name post n
    end.
Proof.
  unfold firstListed. rewrite filter_app.
  by destruct (filter (λ s, name s = n) pre).
Qed.

Lemma firstListed_here (pre post : list Session) (s : Session) :
  name s ∉ name <$> pre → firstListed name (pre ++ s :: post) (name s) = Some s.
Proof.
  intros Hfresh. rewrite firstListed_app.
  destruct (firstListed name pre (name s)) as [first|] eqn:Hfirst.
  - apply firstListed_Some in Hfirst as [Hin Hname]. destruct Hfresh.
    apply list_elem_of_fmap. by exists first.
  - unfold firstListed. rewrite filter_cons. by rewrite decide_True.
Qed.

Lemma firstListed_earlier (pre post : list Session) (s : Session) :
  name s ∈ name <$> pre →
  ∃ first, firstListed name (pre ++ s :: post) (name s) = Some first ∧ first ∈ pre.
Proof.
  intros Hin. rewrite firstListed_app.
  destruct (firstListed name pre (name s)) as [first|] eqn:Hfirst.
  - exists first. split; [done|]. by apply firstListed_Some in Hfirst as [? _].
  - by apply firstListed_None in Hfirst.
Qed.

(** What the classification prunes is an orphan or a duplicate. *)
Lemma classify_pruned_split (listed : list Session) (id : string) :
  id ∈ (classify name identifier desired listed).1 →
  ∃ pre s post,
    listed = pre ++ s :: post ∧ identifier s = id
    ∧ (desired !! name s = None ∨ name s ∈ name <$> pre).
Proof.
  induction listed as [|s listed IH] using rev_ind.
  - intros Hin. by apply elem_of_nil in Hin.
  - rewrite classify_snoc. unfold classifyStep.
    assert (id ∈ (classify name identifier desired listed).1 →
            ∃ pre s' post, listed ++ [s] = pre ++ s' :: post ∧ identifier s' = id
              ∧ (desired !! name s' = None ∨ name s' ∈ name <$> pre)) as Hbefore.
    { intros Hin. destruct (IH Hin) as (pre & s' & post & -> & Hid & Hwhy).
      exists pre, s', (post ++ [s]). by rewrite <- app_assoc. }
    destruct (desired !! name s) as [specification|] eqn:Hdesired.
    + rewrite classify_current, Hdesired.
      destruct (head (filter (λ s', name s' = name s) listed)) as [first|] eqn:Hhead;
        simpl; [|done].
      rewrite elem_of_app. intros [Hin|Hin]; [by apply Hbefore|].
      apply list_elem_of_singleton in Hin as ->.
      exists listed, s, []. split; [done|]. split; [done|]. right.
      apply firstListed_Some in Hhead as [Hin Hname].
      apply list_elem_of_fmap. by exists first.
    + simpl. rewrite elem_of_app. intros [Hin|Hin]; [by apply Hbefore|].
      apply list_elem_of_singleton in Hin as ->.
      exists listed, s, []. split; [done|]. split; [done|]. by left.
Qed.

(** An orphan or a duplicate is pruned by the classification. *)
Lemma classify_prunes (pre post : list Session) (s : Session) :
  desired !! name s = None ∨ name s ∈ name <$> pre →
  identifier s ∈ (classify name identifier desired (pre ++ s :: post)).1.
Proof.
  intros Hwhy. apply classify_pruned_here. unfold classifyStep.
  destruct (desired !! name s) as [specification|] eqn:Hdesired; cycle 1.
  { simpl. apply elem_of_app. right. left. }
  destruct Hwhy as [?|Hin]; [done|].
  rewrite classify_current, Hdesired.
  destruct (head (filter (λ s', name s' = name s) pre)) as [first|] eqn:Hhead.
  - simpl. apply elem_of_app. right. left.
  - by apply firstListed_None in Hhead.
Qed.

Lemma plan_keeps (listed : list Session) (s : Session) :
  NoDup (identifier <$> listed) → s ∈ listed →
  kept name current desired listed s →
  identifier s ∉ (plan name identifier current seed desired listed).1.
Proof.
  intros Hnodup Hlisted (Hfirst & specification & Hdesired & Hcurrent).
  rewrite plan_closed_form. simpl. rewrite elem_of_app. intros [Hin|Hin].
  - apply classify_pruned_split in Hin
      as (pre & s' & post & Hsplit & Hid & Hwhy).
    assert (s' = s) as ->.
    { apply (NoDup_fmap_same identifier listed); [done| |done|done].
      rewrite Hsplit. apply elem_of_app. right. left. }
    destruct Hwhy as [Horphan|Hduplicate]; [by rewrite Hdesired in Horphan|].
    apply (firstListed_earlier pre post) in Hduplicate as (first & Hfirst' & Hin).
    rewrite <- Hsplit, Hfirst in Hfirst'. injection Hfirst' as <-.
    rewrite Hsplit, fmap_app in Hnodup.
    apply NoDup_app in Hnodup as (_ & Hfresh & _).
    apply (Hfresh (identifier s)); [apply list_elem_of_fmap; by exists s|].
    rewrite fmap_cons. left.
  - apply list_elem_of_fmap in Hin as (existing & Hid & Hin).
    apply list_elem_of_omap in Hin as ([n specification'] & Hentry & Hreplaced).
    apply elem_of_rangeOrder in Hentry.
    unfold replaced in Hreplaced. simpl in Hreplaced.
    destruct (firstListed name listed n) as [first|] eqn:Hfirst'; [|done].
    destruct (current first specification') eqn:Hstale; [done|].
    injection Hreplaced as ->.
    pose proof (firstListed_Some _ _ _ _ Hfirst') as [Hin Hname].
    assert (existing = s) as ->
      by by apply (NoDup_fmap_same identifier listed).
    rewrite Hname, Hentry in Hdesired. injection Hdesired as ->.
    by rewrite Hcurrent in Hstale.
Qed.

Lemma plan_prunes (listed : list Session) (s : Session) :
  s ∈ listed →
  ¬ kept name current desired listed s →
  identifier s ∈ (plan name identifier current seed desired listed).1.
Proof.
  intros Hlisted Hstale. rewrite plan_closed_form. simpl. rewrite elem_of_app.
  apply list_elem_of_split in Hlisted as (pre & post & ->).
  destruct (desired !! name s) as [specification|] eqn:Hdesired; cycle 1.
  { left. apply classify_prunes. by left. }
  destruct (decide (name s ∈ name <$> pre)) as [Hduplicate|Hfresh].
  { left. apply classify_prunes. by right. }
  right. apply list_elem_of_fmap. exists s. split; [done|].
  apply list_elem_of_omap. exists (name s, specification).
  split; [by apply elem_of_rangeOrder|].
  unfold replaced. simpl. rewrite (firstListed_here pre post s Hfresh).
  destruct (current s specification) eqn:Hcurrent; [|done].
  destruct Hstale. split; [by apply firstListed_here|]. by exists specification.
Qed.

End Terminated.

(** X20: which sessions a pass terminates.  For either kind of session,
    if the listed sessions have identifiers of their own, the prune list holds
    the identifier of a listed session exactly if the session is not kept:
    it is pruned if its name is not desired, if an earlier listed session has
    its name, or if it is not current for the desired specification of its
    name, and in no other case. *)
Theorem plan_prunes_exactly {Session Specification : Type}
    (name identifier : Session → string)
    (current : Session → Specification → bool) (seed : list nat)
    (desired : gmap string Specification) (listed : list Session) (s : Session) :
  NoDup (identifier <$> listed) →
  s ∈ listed →
  identifier s ∈ (plan name identifier current seed desired listed).1
  ↔ ¬ kept name current desired listed s.
Proof.
  intros Hnodup Hlisted. split.
  - intros Hin Hkept. by apply (plan_keeps name identifier current seed desired listed s).
  - by apply plan_prunes.
Qed.

Lemma plan_prunes_exactly_witness :
  let desired : gmap string forwardingsvc.CreationSpecification :=
    {["web" := forwardingsvc.mkSpec
                 (Sample.localURL url.Kind_Forwarding "tcp:localhost:8080")
                 (Sample.sidecarURL url.Kind_Forwarding "backend:tcp:web:80")
                 ∅ ∅ ∅ "web" ∅]} in
  let first := Sample.existing "id1" "web" "backend:tcp:web:80" in
  let second := Sample.existing "id2" "web" "backend:tcp:web:80" in
  "id2" ∈ (forwardingPlan (E := Sample.env) desired [first; second]).1
  ↔ ¬ kept forwarding.Name (forwardingSessionCurrent (Env := Sample.env)) desired
        [first; second] second.
Proof.
  intros desired first second.
  apply (plan_prunes_exactly forwarding.Name forwarding.Identifier
           (forwardingSessionCurrent (Env := Sample.env)) (rangeSeed 5) desired
           [first; second] second).
  - apply (bool_decide_unpack (NoDup _)). vm_compute. exact I.
  - right. left.
Defined.
